(** * Logic Command Center: the manifest-to-diagram compiler

    A shallow embedding of the Mermaid emitters of [src/diagrams.ts] and of
    the Markmap outline emitter ([generateMindmapMarkdown] and its helpers,
    the second unit listed in [src/manifestClient.ts], which [App.tsx]
    imports from [./mindmapMarkdown]), together with the interfaces of
    [src/types.ts] they read, and the properties of the specification
    proved or refuted on that embedding. *)

From Stdlib Require Import ZArith NArith List String Ascii Lia Sorted Permutation DecimalPos.
From stdpp Require Import gmap list.
Import ListNotations.
Local Open Scope N_scope.

(** ** JavaScript values and built-ins used by the emitters *)

Module JS.

(** A JavaScript string is a sequence of UTF-16 code units.  Regular
    expressions without the [u] flag, [replaceAll] and [trim] all work on
    code units, so this is the granularity the sanitizers see. *)
Definition jsstring := list N.

(** Source literals are written as Rocq strings (UTF-8 bytes) and decoded to
    code units; code points above U+FFFF become a surrogate pair. *)
Fixpoint utf16_of_utf8 (bs : list N) : jsstring :=
  match bs with
  | [] => []
  | b :: r =>
    if b <? 128 then b :: utf16_of_utf8 r
    else if b <? 224 then
      match r with
      | c1 :: r' => ((b - 192) * 64 + (c1 - 128)) :: utf16_of_utf8 r'
      | _ => []
      end
    else if b <? 240 then
      match r with
      | c1 :: c2 :: r' =>
        ((b - 224) * 4096 + (c1 - 128) * 64 + (c2 - 128)) :: utf16_of_utf8 r'
      | _ => []
      end
    else
      match r with
      | c1 :: c2 :: c3 :: r' =>
        let cp := (b - 240) * 262144 + (c1 - 128) * 4096 + (c2 - 128) * 64 + (c3 - 128) in
        let v := cp - 65536 in
        (55296 + v / 1024) :: (56320 + v mod 1024) :: utf16_of_utf8 r'
      | _ => []
      end
  end.

Definition js (s : string) : jsstring :=
  utf16_of_utf8 (map (fun a => N_of_ascii a) (list_ascii_of_string s)).
Arguments js : simpl never.

(** Code units that the sanitizers name. *)
Definition BACKSLASH : N := 92.
Definition DQUOTE : N := 34.
Definition SQUOTE : N := 39.
Definition NEWLINE : N := 10.
Definition CR : N := 13.
Definition LPAREN : N := 40.
Definition RPAREN : N := 41.
Definition LBRACKET : N := 91.
Definition RBRACKET : N := 93.
Definition AMP : N := 38.
Definition LT : N := 60.
Definition GT : N := 62.
Definition BACKTICK : N := 96.
Definition UNDERSCORE : N := 95.

(** [s.replaceAll(c, rep)] for a pattern [c] of one code unit (every pattern
    in the sources is one code unit long). *)
Definition replaceAll (c : N) (rep : jsstring) (s : jsstring) : jsstring :=
  flat_map (fun x => if x =? c then rep else [x]) s.

(** [xs.join(sep)] *)
Fixpoint join (sep : jsstring) (xs : list jsstring) : jsstring :=
  match xs with
  | [] => []
  | [x] => x
  | x :: rest => x ++ sep ++ join sep rest
  end.

(** [s.repeat(n)] for a count that is already a natural number. *)
Fixpoint repeat_str (s : jsstring) (n : nat) : jsstring :=
  match n with
  | O => []
  | S k => s ++ repeat_str s k
  end.

(** [s.includes(c)] for a pattern of one code unit. *)
Definition includes (c : N) (s : jsstring) : bool :=
  existsb (fun x => x =? c) s.

(** Truthiness of a string: every string but the empty one. *)
Definition truthy (s : jsstring) : bool :=
  match s with [] => false | _ => true end.

(** Truthiness of an optional string property ([undefined] is falsy). *)
Definition truthy_opt (o : option jsstring) : bool :=
  match o with Some s => truthy s | None => false end.

(** [String(v)] of a value that is a string or [undefined]. *)
Definition String_ (v : option jsstring) : jsstring :=
  match v with Some s => s | None => js "undefined" end.

(** White space and line terminators removed by [String.prototype.trim]. *)
Definition is_space (c : N) : bool :=
  (c =? 9) || (c =? 10) || (c =? 11) || (c =? 12) || (c =? 13) || (c =? 32)
  || (c =? 160) || (c =? 5760) || ((8192 <=? c) && (c <=? 8202))
  || (c =? 8232) || (c =? 8233) || (c =? 8239) || (c =? 8287)
  || (c =? 12288) || (c =? 65279).

Fixpoint trimStart (s : jsstring) : jsstring :=
  match s with
  | c :: r => if is_space c then trimStart r else s
  | [] => []
  end.

Definition trim (s : jsstring) : jsstring :=
  rev (trimStart (rev (trimStart s))).

(** Decimal digits of a natural number, as [Number.prototype.toString]
    prints an integer (below 10^21, where the exponent form starts). *)
Fixpoint codes_of_uint (d : Decimal.uint) : jsstring :=
  match d with
  | Decimal.Nil => []
  | Decimal.D0 r => 48 :: codes_of_uint r
  | Decimal.D1 r => 49 :: codes_of_uint r
  | Decimal.D2 r => 50 :: codes_of_uint r
  | Decimal.D3 r => 51 :: codes_of_uint r
  | Decimal.D4 r => 52 :: codes_of_uint r
  | Decimal.D5 r => 53 :: codes_of_uint r
  | Decimal.D6 r => 54 :: codes_of_uint r
  | Decimal.D7 r => 55 :: codes_of_uint r
  | Decimal.D8 r => 56 :: codes_of_uint r
  | Decimal.D9 r => 57 :: codes_of_uint r
  end.

Definition string_of_N (n : N) : jsstring := codes_of_uint (N.to_uint n).
Definition string_of_nat (n : nat) : jsstring := string_of_N (N.of_nat n).
Definition string_of_Z (z : Z) : jsstring :=
  match z with
  | Z0 => js "0"
  | Zpos p => string_of_N (Npos p)
  | Zneg p => js "-" ++ string_of_N (Npos p)
  end.

(** [xs.sort(cmp)]: the sort is stable (ECMAScript 2019); for a consistent
    comparator the result is the one a stable insertion sort gives.  [x],
    which stood before every element of [s], stays before the first element
    it does not compare greater than. *)
Fixpoint sort_insert {A} (cmp : A -> A -> Z) (x : A) (s : list A) : list A :=
  match s with
  | [] => [x]
  | y :: r => if (cmp x y <=? 0)%Z then x :: y :: r else y :: sort_insert cmp x r
  end.

Definition sort {A} (cmp : A -> A -> Z) (xs : list A) : list A :=
  fold_right (sort_insert cmp) [] xs.

(** A [Set] of strings keeps its members in insertion order; [add] of a
    member already present changes nothing. *)
Definition Set_add (s : list jsstring) (x : jsstring) : list jsstring :=
  if bool_decide (x ∈ s) then s else s ++ [x].

(** [Array.from(new Set(xs))]: first occurrences, in insertion order. *)
Definition Array_from_Set (xs : list jsstring) : list jsstring :=
  foldl Set_add [] xs.

(** [new Map(entries)] and a loop of [map.set(k, v)]: a later entry
    replaces an earlier one of the same key. *)
Definition Map_of_entries {V} (es : list (jsstring * V)) : gmap jsstring V :=
  foldl (fun m e => <[e.1 := e.2]> m) ∅ es.

(** The elements of an array with their indices, as an indexed [for] loop
    reads them. *)
Definition indexed {A} (xs : list A) : list (nat * A) :=
  imap (fun i x => (i, x)) xs.

(** The lines of a text: [s.split('\n')]. *)
Fixpoint split_on (c : N) (s : jsstring) : list jsstring :=
  match s with
  | [] => [[]]
  | x :: r =>
    if x =? c then [] :: split_on c r
    else match split_on c r with
         | l :: ls => (x :: l) :: ls
         | [] => [[x]]
         end
  end.

(** *** Array objects and exceptions

    An emitter allocates its output buffer with [const lines = []], fills it
    with [lines.push(..)] (in the outline emitter through the helpers [push],
    [pushTitle] and [moduleToMarkdown], which receive the same array) and
    reads it back with [lines.join(..)].  The store holds the array objects
    created so far, addressed by their position; it is what persists from one
    call to the next.  A computation ends normally or throws. *)
Inductive Error : Type :=
  | TypeError (msg : string).

Inductive completion (A : Type) : Type :=
  | Normal (a : A)
  | Throw (e : Error).
Arguments Normal {A} a.
Arguments Throw {A} e.

Definition ArrayRef := nat.
Definition Store := list (list jsstring).

Definition Eff (A : Type) : Type := Store -> completion A * Store.

#[export] Instance Eff_ret : MRet Eff := fun A a st => (Normal a, st).
#[export] Instance Eff_bind : MBind Eff := fun A B k c st =>
  match c st with
  | (Normal a, st') => k a st'
  | (Throw e, st') => (Throw e, st')
  end.

Definition throw {A} (e : Error) : Eff A := fun st => (Throw e, st).

(** [[]] : a fresh array object. *)
Definition Array_new : Eff ArrayRef :=
  fun st => (Normal (length st), st ++ [[]]).

(** [a.push(s)] *)
Definition Array_push (a : ArrayRef) (s : jsstring) : Eff unit :=
  fun st => (Normal tt, alter (fun xs => xs ++ [s]) a st).

(** [a.join(sep)] *)
Definition Array_join (a : ArrayRef) (sep : jsstring) : Eff jsstring :=
  fun st => (Normal (join sep (default [] (st !! a))), st).

(** [for (const x of xs) body] *)
Fixpoint for_of {A} (xs : list A) (body : A -> Eff unit) : Eff unit :=
  match xs with
  | [] => mret tt
  | x :: r => body x ;; for_of r body
  end.

(** A loop whose body also updates a local value [acc] (an array or a
    counter declared outside the loop and used after it). *)
Fixpoint for_acc {A B} (xs : list A) (acc : B) (body : B -> A -> Eff B) : Eff B :=
  match xs with
  | [] => mret acc
  | x :: r => acc' ← body acc x; for_acc r acc' body
  end.

(** [if (b) c] *)
Definition when (b : bool) (c : Eff unit) : Eff unit :=
  if b then c else mret tt.

(** Reading a property of [o]: a [TypeError] when [o] is [undefined]. *)
Definition prop_of {A} (o : option A) : Eff A :=
  match o with
  | Some a => mret a
  | None => throw (TypeError "Cannot read properties of undefined")
  end.

(** The completion of a call started in store [st]. *)
Definition run {A} (c : Eff A) (st : Store) : completion A := fst (c st).

End JS.

Import JS.

(** ** The manifest ([src/types.ts])

    One record per interface, in a module of the interface's name so that
    the fields keep theirs.  An optional property is an [option]; a [number]
    is an integer. *)

Module CodeRef.
Record t := mk {
  file : jsstring;
  function : option jsstring;
  line : option Z }.
End CodeRef.

Module ProjectInfo.
Record t := mk {
  id : jsstring;
  name : jsstring;
  description : jsstring;
  version : jsstring;
  updated_at : jsstring }.
End ProjectInfo.

(** The interface declares [id], [name] and [description?]; the outline
    emitter also reads [models], [key_fields] and [statuses], which older
    manifests carry. *)
Module KeyField.
Record t := mk {
  name : jsstring;
  label : jsstring;
  description : option jsstring;
  source : option jsstring }.
End KeyField.

Module Status.
Record t := mk {
  value : jsstring;
  label : jsstring;
  description : option jsstring }.
End Status.

Module Entity.
Record t := mk {
  id : jsstring;
  name : jsstring;
  description : option jsstring;
  models : option (list jsstring);
  key_fields : option (list KeyField.t);
  statuses : option (list Status.t) }.
End Entity.

Module FlowStep.
Record t := mk {
  id : jsstring;
  order : Z;
  name : jsstring;
  description : option jsstring;
  rules : option (list jsstring) }.
End FlowStep.

Module Flow.
Record t := mk {
  id : jsstring;
  name : jsstring;
  description : option jsstring;
  trigger : option jsstring;
  steps : list FlowStep.t;
  code_ref : option CodeRef.t }.
End Flow.

Inductive Priority := high | medium | low.
Inductive Operation := op_C | op_R | op_U | op_D.

Module Affects.
Record t := mk {
  entities : option (list jsstring);
  fields : option (list jsstring);
  operations : option (list Operation) }.
End Affects.

Module Rule.
Record t := mk {
  id : jsstring;
  name : jsstring;
  description : jsstring;
  priority : Priority;
  category : option jsstring;
  constraints : option (list jsstring);
  effects : option (list jsstring);
  affects : option Affects.t;
  code_ref : option CodeRef.t }.
End Rule.

Module StateDefinition.
Record t := mk {
  id : jsstring;
  name : jsstring;
  description : option jsstring;
  is_initial : option bool;
  is_final : option bool }.
End StateDefinition.

Module StateTransition.
Record t := mk {
  from : jsstring;
  to : jsstring;
  trigger : jsstring;
  description : option jsstring;
  rules : option (list jsstring) }.
End StateTransition.

Module StateMachine.
Record t := mk {
  id : jsstring;
  name : jsstring;
  description : option jsstring;
  entity : jsstring;
  field : jsstring;
  states : list StateDefinition.t;
  transitions : list StateTransition.t }.
End StateMachine.

Inductive StepType :=
  | st_comment | st_action | st_condition | st_loop | st_call | st_return | st_error.

Module PseudocodeStep.
Record t := mk {
  indent : Z;
  text : jsstring;
  type : StepType }.
End PseudocodeStep.

Inductive CallType := ct_api | ct_db | ct_internal | ct_schedule.

Module ApiCall.
Record t := mk {
  name : jsstring;
  type : CallType;
  method : option jsstring;
  endpoint : option jsstring;
  table : option jsstring;
  description : option jsstring }.
End ApiCall.

Module Pseudocode.
Record t := mk {
  id : jsstring;
  name : jsstring;
  description : option jsstring;
  params : option (list jsstring);
  returns : option jsstring;
  steps : list PseudocodeStep.t;
  calls : list ApiCall.t;
  code_ref : option CodeRef.t }.
End Pseudocode.

(** [interface Module] *)
Module Mod.
Record t := mk {
  id : jsstring;
  name : jsstring;
  description : jsstring;
  tags : option (list jsstring);
  dependencies : option (list jsstring);
  code_refs : option (list CodeRef.t);
  flows : list Flow.t;
  rules : list Rule.t;
  state_machines : list StateMachine.t;
  pseudocodes : list Pseudocode.t }.
End Mod.

Module ModelField.
Record t := mk {
  name : jsstring;
  type : jsstring;
  label : jsstring;
  description : option jsstring;
  required : option bool;
  unique : option bool;
  enum_options : option (list (jsstring * jsstring));
  references : option (jsstring * jsstring) }.
End ModelField.

Inductive SourceType := src_yao | src_prisma | src_typeorm | src_sql | src_other.

Module Source.
Record t := mk {
  file : jsstring;
  type : SourceType }.
End Source.

Module DataModel.
Record t := mk {
  id : jsstring;
  name : jsstring;
  table : jsstring;
  description : jsstring;
  entity : option jsstring;
  fields : list ModelField.t;
  source : option Source.t }.
End DataModel.

Module GlossaryEntry.
Record t := mk {
  term : jsstring;
  description : jsstring }.
End GlossaryEntry.

Inductive ChangeType := chg_init | chg_add | chg_modify | chg_remove.

Definition ChangeType_string (c : ChangeType) : jsstring :=
  match c with
  | chg_init => js "init"
  | chg_add => js "add"
  | chg_modify => js "modify"
  | chg_remove => js "remove"
  end.

Module ChangelogEntry.
Record t := mk {
  date : jsstring;
  type : ChangeType;
  summary : jsstring;
  details : option jsstring }.
End ChangelogEntry.

(** [glossary] is a [Record<string, GlossaryEntry>]: its entries are kept in
    the order [Object.entries] enumerates them. *)
Module LogicManifest.
Record t := mk {
  schema : jsstring;
  project : ProjectInfo.t;
  modules : list Mod.t;
  data_models : list DataModel.t;
  entities : option (list Entity.t);
  glossary : list (jsstring * GlossaryEntry.t);
  changelog : list ChangelogEntry.t }.
End LogicManifest.

(** ** [src/diagrams.ts] *)

Module Diagrams.

Definition is_digit (c : N) : bool := (48 <=? c) && (c <=? 57).

(** The class [[a-zA-Z0-9_]]. *)
Definition is_word (c : N) : bool :=
  ((97 <=? c) && (c <=? 122)) || ((65 <=? c) && (c <=? 90)) || is_digit c
  || (c =? UNDERSCORE).

(** [/^[0-9]/.test(id)] *)
Definition starts_with_digit (id : jsstring) : bool :=
  match id with
  | c :: _ => is_digit c
  | [] => false
  end.

Definition safeNodeId (prefix raw : jsstring) : jsstring :=
  let id := map (fun c => if is_word c then c else UNDERSCORE) raw in
  let normalized := if starts_with_digit id then UNDERSCORE :: id else id in
  if truthy (prefix ++ normalized) then prefix ++ normalized
  else prefix ++ js "x".

Definition escapeLabel (text : jsstring) : jsstring :=
  replaceAll NEWLINE (js "<br/>")
    (replaceAll DQUOTE [SQUOTE]
      (replaceAll BACKSLASH [BACKSLASH; BACKSLASH] text)).

Definition escapeMindmapText (text : jsstring) : jsstring :=
  replaceAll RBRACKET (js "】")
    (replaceAll LBRACKET (js "【")
      (replaceAll RPAREN (js "）")
        (replaceAll LPAREN (js "（") (escapeLabel text)))).

Definition formatCodeRef (ref : option CodeRef.t) : jsstring :=
  match ref with
  | None => []
  | Some ref =>
    let parts := [CodeRef.file ref] in
    let parts :=
      if truthy_opt (CodeRef.function ref)
      then parts ++ [String_ (CodeRef.function ref)] else parts in
    let parts :=
      match CodeRef.line ref with
      | Some l => parts ++ [string_of_Z l]
      | None => parts
      end in
    join (js ":") parts
  end.

Definition uniqueStrings (xs : list jsstring) : list jsstring :=
  Array_from_Set (filter (fun x => truthy x = true) xs).

Definition dq : jsstring := [DQUOTE].

Definition generateProjectMindmap (manifest : LogicManifest.t) : Eff jsstring :=
  lines ← Array_new;
  Array_push lines (js "mindmap");;
  let project := LogicManifest.project manifest in
  let projectTitle :=
    escapeMindmapText (js "项目：" ++ ProjectInfo.name project ++ js " ("
                       ++ ProjectInfo.id project ++ js ")") in
  Array_push lines (js "  root((" ++ projectTitle ++ js "))");;
  Array_push lines (js "    模块");;
  for_of (LogicManifest.modules manifest) (fun m =>
    let mTitle := escapeMindmapText (Mod.name m ++ js " (" ++ Mod.id m ++ js ")") in
    Array_push lines (js "      " ++ mTitle);;
    match Mod.dependencies m with
    | Some deps =>
      when (0 <? length deps)%nat (
        Array_push lines (js "        依赖");;
        for_of (uniqueStrings deps) (fun dep =>
          Array_push lines (js "          " ++ escapeMindmapText dep)))
    | None => mret tt
    end;;
    let moduleCodeRefs :=
      uniqueStrings (map (fun r => formatCodeRef (Some r)) (default [] (Mod.code_refs m))) in
    when (0 <? length moduleCodeRefs)%nat (
      Array_push lines (js "        代码入口");;
      for_of moduleCodeRefs (fun c =>
        Array_push lines (js "          " ++ escapeMindmapText c)));;
    when (0 <? length (Mod.flows m))%nat (
      Array_push lines (js "        流程");;
      for_of (Mod.flows m) (fun f =>
        Array_push lines (js "          " ++ escapeMindmapText (Flow.name f));;
        let code := formatCodeRef (Flow.code_ref f) in
        when (truthy code)
          (Array_push lines (js "            代码：" ++ escapeMindmapText code))));;
    when (0 <? length (Mod.rules m))%nat (
      Array_push lines (js "        规则");;
      for_of (Mod.rules m) (fun r =>
        Array_push lines (js "          " ++ escapeMindmapText (Rule.name r));;
        let code := formatCodeRef (Rule.code_ref r) in
        when (truthy code)
          (Array_push lines (js "            代码：" ++ escapeMindmapText code))));;
    when (0 <? length (Mod.state_machines m))%nat (
      Array_push lines (js "        状态机");;
      for_of (Mod.state_machines m) (fun sm =>
        Array_push lines
          (js "          "
           ++ escapeMindmapText (StateMachine.name sm ++ js "（" ++ StateMachine.entity sm
                                 ++ js "." ++ StateMachine.field sm ++ js "）"))));;
    when (0 <? length (Mod.pseudocodes m))%nat (
      Array_push lines (js "        伪代码");;
      for_of (Mod.pseudocodes m) (fun pc =>
        Array_push lines (js "          " ++ escapeMindmapText (Pseudocode.name pc));;
        let code := formatCodeRef (Pseudocode.code_ref pc) in
        when (truthy code)
          (Array_push lines (js "            代码：" ++ escapeMindmapText code)))));;
  match LogicManifest.entities manifest with
  | Some entities =>
    when (0 <? length entities)%nat (
      Array_push lines (js "    实体");;
      for_of entities (fun e =>
        Array_push lines (js "      " ++ escapeMindmapText (Entity.name e) ++ js " ("
                          ++ escapeMindmapText (Entity.id e) ++ js ")")))
  | None => mret tt
  end;;
  when (0 <? length (LogicManifest.data_models manifest))%nat (
    Array_push lines (js "    数据模型");;
    for_of (LogicManifest.data_models manifest) (fun dm =>
      let label :=
        if truthy (DataModel.table dm)
        then DataModel.name dm ++ js " (" ++ DataModel.table dm ++ js ")"
        else DataModel.name dm in
      Array_push lines (js "      " ++ escapeMindmapText label);;
      let src :=
        match DataModel.source dm with
        | Some so => if truthy (Source.file so) then Source.file so else []
        | None => []
        end in
      when (truthy src) (Array_push lines (js "        来源：" ++ escapeMindmapText src))));;
  Array_join lines [NEWLINE].

Definition generateModuleDependencyGraph (manifest : LogicManifest.t) : Eff jsstring :=
  lines ← Array_new;
  Array_push lines (js "flowchart LR");;
  let byId : gmap jsstring Mod.t :=
    foldl (fun byId m => <[Mod.id m := m]> byId) ∅ (LogicManifest.modules manifest) in
  for_of (LogicManifest.modules manifest) (fun m =>
    let id := safeNodeId (js "mod_") (Mod.id m) in
    Array_push lines (js "  " ++ id ++ js "[" ++ dq ++ escapeLabel (Mod.name m) ++ js "<br/>("
                      ++ escapeLabel (Mod.id m) ++ js ")" ++ dq ++ js "]"));;
  for_of (LogicManifest.modules manifest) (fun m =>
    let from := safeNodeId (js "mod_") (Mod.id m) in
    for_of (uniqueStrings (default [] (Mod.dependencies m))) (fun dep =>
      let depMod := byId !! dep in
      let to :=
        match depMod with
        | Some depMod => safeNodeId (js "mod_") (Mod.id depMod)
        | None => safeNodeId (js "ext_") dep
        end in
      when (negb (bool_decide (is_Some depMod)))
        (Array_push lines (js "  " ++ to ++ js "[" ++ dq ++ escapeLabel dep
                           ++ js "<br/>(外部/未知模块)" ++ dq ++ js "]"));;
      Array_push lines (js "  " ++ from ++ js " --> " ++ to)));;
  Array_join lines [NEWLINE].

Definition generateFlowchartForFlow (flow : Flow.t) (rules : list Rule.t) : Eff jsstring :=
  let rulesById : gmap jsstring Rule.t :=
    Map_of_entries (map (fun r => (Rule.id r, r)) rules) in
  lines ← Array_new;
  Array_push lines (js "flowchart TD");;
  let titleId := js "T" in
  Array_push lines (js "  " ++ titleId ++ js "[" ++ dq ++ escapeLabel (Flow.name flow) ++ dq ++ js "]");;
  let triggerId := js "TR" in
  let triggerLabel :=
    if truthy_opt (Flow.trigger flow) then js "触发：" ++ String_ (Flow.trigger flow)
    else js "触发：-" in
  Array_push lines (js "  " ++ triggerId ++ js "([" ++ dq ++ escapeLabel triggerLabel ++ dq ++ js "])");;
  Array_push lines (js "  " ++ titleId ++ js " --> " ++ triggerId);;
  let sorted := sort (fun a b => (FlowStep.order a - FlowStep.order b)%Z) (Flow.steps flow) in
  stepIds ← for_acc (indexed sorted) [] (fun stepIds '(i, s) =>
    let id := js "S" ++ string_of_nat (i + 1) in
    let stepIds := stepIds ++ [id] in
    let ruleNames :=
      uniqueStrings
        (map (fun rid => match rulesById !! rid with
                         | Some r => Rule.name r
                         | None => rid
                         end)
             (default [] (FlowStep.rules s))) in
    let parts := [string_of_Z (FlowStep.order s) ++ js ". " ++ FlowStep.name s] in
    let parts :=
      if truthy_opt (FlowStep.description s)
      then parts ++ [String_ (FlowStep.description s)] else parts in
    let parts :=
      if (0 <? length ruleNames)%nat
      then parts ++ [js "规则：" ++ join (js "、") ruleNames] else parts in
    Array_push lines (js "  " ++ id ++ js "[" ++ dq ++ escapeLabel (join [NEWLINE] parts) ++ dq ++ js "]");;
    mret stepIds);
  (if (length stepIds =? 0)%nat then
     let emptyId := js "EMPTY" in
     Array_push lines (js "  " ++ emptyId ++ js "[" ++ dq ++ js "暂无步骤" ++ dq ++ js "]");;
     Array_push lines (js "  " ++ triggerId ++ js " --> " ++ emptyId)
   else
     Array_push lines (js "  " ++ triggerId ++ js " --> " ++ String_ (stepIds !! 0%nat));;
     for_of (seq 0 (length stepIds - 1)) (fun i =>
       Array_push lines (js "  " ++ String_ (stepIds !! i) ++ js " --> "
                         ++ String_ (stepIds !! (i + 1)%nat))));;
  let code := formatCodeRef (Flow.code_ref flow) in
  when (truthy code) (
    let codeId := js "CODE" in
    Array_push lines (js "  " ++ codeId ++ js "[" ++ dq ++ escapeLabel (js "代码：" ++ code) ++ dq ++ js "]");;
    Array_push lines (js "  " ++ titleId ++ js " -.-> " ++ codeId));;
  Array_join lines [NEWLINE].

(** [flag] of an optional boolean property used as a condition. *)
Definition flag (o : option bool) : bool := default false o.

Definition generateStateDiagram (sm : StateMachine.t) : Eff jsstring :=
  lines ← Array_new;
  Array_push lines (js "stateDiagram-v2");;
  Array_push lines (js "  %% " ++ escapeLabel (StateMachine.name sm ++ js "（" ++ StateMachine.entity sm
                                               ++ js "." ++ StateMachine.field sm ++ js "）"));;
  let aliasById : gmap jsstring jsstring :=
    foldl (fun aliasById '(i, s) =>
             <[StateDefinition.id s := js "S" ++ string_of_nat (i + 1)]> aliasById)
          ∅ (indexed (StateMachine.states sm)) in
  for_of (StateMachine.states sm) (fun s =>
    let alias := default (safeNodeId (js "S") (StateDefinition.id s))
                         (aliasById !! StateDefinition.id s) in
    Array_push lines (js "  state " ++ dq ++ escapeLabel (StateDefinition.name s) ++ dq
                      ++ js " as " ++ alias));;
  let initial : option jsstring :=
    match find (fun s => flag (StateDefinition.is_initial s)) (StateMachine.states sm) with
    | Some s => Some (StateDefinition.id s)
    | None => StateDefinition.id <$> (StateMachine.states sm !! 0%nat)
    end in
  match initial with
  | Some initial =>
    when (truthy initial) (
      let to := default (safeNodeId (js "S") initial) (aliasById !! initial) in
      Array_push lines (js "  [*] --> " ++ to))
  | None => mret tt
  end;;
  for_of (StateMachine.transitions sm) (fun t =>
    let from := default (safeNodeId (js "S") (StateTransition.from t))
                        (aliasById !! StateTransition.from t) in
    let to := default (safeNodeId (js "S") (StateTransition.to t))
                      (aliasById !! StateTransition.to t) in
    let label :=
      if truthy (StateTransition.trigger t) then js ": " ++ StateTransition.trigger t else [] in
    Array_push lines (js "  " ++ from ++ js " --> " ++ to ++ label));;
  let finals :=
    map StateDefinition.id
        (filter (fun s => flag (StateDefinition.is_final s) = true) (StateMachine.states sm)) in
  for_of finals (fun f =>
    let from := default (safeNodeId (js "S") f) (aliasById !! f) in
    Array_push lines (js "  " ++ from ++ js " --> [*]"));;
  Array_join lines [NEWLINE].

End Diagrams.

(** ** The outline emitter ([./mindmapMarkdown], second unit of [src/manifestClient.ts]) *)

Module MindmapMarkdown.

Definition mdEscape (text : jsstring) : jsstring :=
  trim
    (replaceAll RBRACKET (js "】")
      (replaceAll LBRACKET (js "【")
        (replaceAll NEWLINE (js " ")
          (replaceAll GT (js "&gt;")
            (replaceAll LT (js "&lt;")
              (replaceAll AMP (js "&amp;")
                (replaceAll CR [] text))))))).

Definition mdCode (text : jsstring) : jsstring :=
  let t := text in
  if includes BACKTICK t
  then [BACKTICK; BACKTICK] ++ replaceAll BACKTICK [BACKSLASH; BACKTICK] t ++ [BACKTICK; BACKTICK]
  else [BACKTICK] ++ t ++ [BACKTICK].

Definition formatCodeRef (ref : option CodeRef.t) : option jsstring :=
  match ref with
  | None => None
  | Some ref =>
    if negb (truthy (CodeRef.file ref)) then None
    else
      let parts := [CodeRef.file ref] in
      let parts :=
        if truthy_opt (CodeRef.function ref)
        then parts ++ [String_ (CodeRef.function ref)] else parts in
      let parts :=
        match CodeRef.line ref with
        | Some l => parts ++ [string_of_Z l]
        | None => parts
        end in
      Some (join (js ":") parts)
  end.

Definition push (lines : ArrayRef) (level : Z) (text : jsstring) : Eff unit :=
  let indent := repeat_str (js "  ") (Z.to_nat (Z.max 0 level)) in
  Array_push lines (indent ++ js "- " ++ text).

Definition pushTitle (lines : ArrayRef) (level : Z) (text : jsstring) : Eff unit :=
  let prefix := repeat_str (js "#") (Z.to_nat (Z.min 6 (Z.max 1 level))) in
  Array_push lines (prefix ++ js " " ++ text).

(** [`（${n}）`] after a section name. *)
Definition count (n : nat) : jsstring := js "（" ++ string_of_nat n ++ js "）".

Definition moduleToMarkdown (lines : ArrayRef) (m : Mod.t) : Eff unit :=
  pushTitle lines 3 (mdEscape (Mod.name m) ++ js "（" ++ mdEscape (Mod.id m) ++ js "）");;
  when (truthy (Mod.description m))
    (push lines 0 (js "说明：" ++ mdEscape (Mod.description m)));;
  match Mod.tags m with
  | Some tags =>
    when (0 <? length tags)%nat (push lines 0 (js "标签：" ++ mdEscape (join (js "、") tags)))
  | None => mret tt
  end;;
  match Mod.dependencies m with
  | Some deps =>
    when (0 <? length deps)%nat (push lines 0 (js "依赖：" ++ mdEscape (join (js "、") deps)))
  | None => mret tt
  end;;
  match Mod.code_refs m with
  | Some code_refs =>
    when (0 <? length code_refs)%nat (
      push lines 0 (js "代码入口" ++ count (length code_refs));;
      for_of code_refs (fun r =>
        let c := formatCodeRef (Some r) in
        push lines 1 (if truthy_opt c then mdCode (String_ c) else mdCode (CodeRef.file r))))
  | None => mret tt
  end;;
  when (0 <? length (Mod.flows m))%nat (
    push lines 0 (js "流程" ++ count (length (Mod.flows m)));;
    for_of (Mod.flows m) (fun f =>
      push lines 1 (mdEscape (Flow.name f));;
      when (truthy_opt (Flow.trigger f))
        (push lines 2 (js "触发：" ++ mdEscape (String_ (Flow.trigger f))));;
      when (truthy_opt (Flow.description f))
        (push lines 2 (js "说明：" ++ mdEscape (String_ (Flow.description f))));;
      let code := formatCodeRef (Flow.code_ref f) in
      when (truthy_opt code) (push lines 2 (js "代码定位：" ++ mdCode (String_ code)));;
      when (0 <? length (Flow.steps f))%nat (
        push lines 2 (js "步骤" ++ count (length (Flow.steps f)));;
        for_of (sort (fun a b => (FlowStep.order a - FlowStep.order b)%Z) (Flow.steps f)) (fun s =>
          let parts := [string_of_Z (FlowStep.order s) ++ js ". " ++ mdEscape (FlowStep.name s)] in
          let parts :=
            if truthy_opt (FlowStep.description s)
            then parts ++ [mdEscape (String_ (FlowStep.description s))] else parts in
          let parts :=
            match FlowStep.rules s with
            | Some rules =>
              if (0 <? length rules)%nat
              then parts ++ [js "规则：" ++ mdEscape (join (js "、") rules)] else parts
            | None => parts
            end in
          push lines 3 (mdEscape (join (js " / ") parts))))));;
  when (0 <? length (Mod.rules m))%nat (
    push lines 0 (js "规则" ++ count (length (Mod.rules m)));;
    for_of (Mod.rules m) (fun r =>
      push lines 1 (mdEscape (Rule.name r));;
      push lines 2 (js "优先级：" ++ match Rule.priority r with
                                     | high => js "高"
                                     | medium => js "中"
                                     | low => js "低"
                                     end);;
      when (truthy_opt (Rule.category r))
        (push lines 2 (js "分类：" ++ mdEscape (String_ (Rule.category r))));;
      when (truthy (Rule.description r))
        (push lines 2 (js "说明：" ++ mdEscape (Rule.description r)));;
      let code := formatCodeRef (Rule.code_ref r) in
      when (truthy_opt code) (push lines 2 (js "代码定位：" ++ mdCode (String_ code)))));;
  when (0 <? length (Mod.state_machines m))%nat (
    push lines 0 (js "状态机" ++ count (length (Mod.state_machines m)));;
    for_of (Mod.state_machines m) (fun sm =>
      push lines 1 (mdEscape (StateMachine.name sm) ++ js "（" ++ mdEscape (StateMachine.entity sm)
                    ++ js "." ++ mdEscape (StateMachine.field sm) ++ js "）");;
      when (truthy_opt (StateMachine.description sm))
        (push lines 2 (js "说明：" ++ mdEscape (String_ (StateMachine.description sm))));;
      push lines 2 (js "状态" ++ count (length (StateMachine.states sm)));;
      for_of (StateMachine.states sm) (fun s =>
        let tags :=
          (if Diagrams.flag (StateDefinition.is_initial s) then [js "初始"] else [])
          ++ (if Diagrams.flag (StateDefinition.is_final s) then [js "终态"] else []) in
        push lines 3 (if (0 <? length tags)%nat
                      then mdEscape (StateDefinition.name s) ++ js "（" ++ join (js "、") tags ++ js "）"
                      else mdEscape (StateDefinition.name s)));;
      when (0 <? length (StateMachine.transitions sm))%nat (
        push lines 2 (js "转换" ++ count (length (StateMachine.transitions sm)));;
        for_of (StateMachine.transitions sm) (fun t =>
          let label := mdEscape (StateTransition.from t) ++ js " -> " ++ mdEscape (StateTransition.to t)
                       ++ js " / 触发：" ++ mdEscape (StateTransition.trigger t) in
          push lines 3 (if truthy_opt (StateTransition.description t)
                        then label ++ js " / " ++ mdEscape (String_ (StateTransition.description t))
                        else label)))));;
  when (0 <? length (Mod.pseudocodes m))%nat (
    push lines 0 (js "伪代码" ++ count (length (Mod.pseudocodes m)));;
    for_of (Mod.pseudocodes m) (fun pc =>
      let sig := Pseudocode.name pc ++ js "("
                 ++ default [] (join (js ", ") <$> Pseudocode.params pc) ++ js ")" in
      push lines 1 (mdCode sig);;
      when (truthy_opt (Pseudocode.description pc))
        (push lines 2 (js "说明：" ++ mdEscape (String_ (Pseudocode.description pc))));;
      when (truthy_opt (Pseudocode.returns pc))
        (push lines 2 (js "返回：" ++ mdEscape (String_ (Pseudocode.returns pc))));;
      let code := formatCodeRef (Pseudocode.code_ref pc) in
      when (truthy_opt code) (push lines 2 (js "代码定位：" ++ mdCode (String_ code)));;
      when (0 <? length (Pseudocode.steps pc))%nat (
        push lines 2 (js "步骤" ++ count (length (Pseudocode.steps pc)));;
        for_of (Pseudocode.steps pc) (fun step =>
          let indent := Z.min 6 (Z.max 0 (PseudocodeStep.indent step)) in
          push lines (3 + indent) (mdEscape (PseudocodeStep.text step)))))).

Definition generateMindmapMarkdown (manifest : LogicManifest.t) : Eff jsstring :=
  lines ← Array_new;
  let project := LogicManifest.project manifest in
  pushTitle lines 1 (js "项目：" ++ mdEscape (ProjectInfo.name project) ++ js "（"
                     ++ mdEscape (ProjectInfo.id project) ++ js "） v"
                     ++ mdEscape (ProjectInfo.version project));;
  push lines 0 (js "项目说明：" ++ mdEscape (ProjectInfo.description project));;
  push lines 0 (js "更新时间：" ++ mdEscape (ProjectInfo.updated_at project));;
  pushTitle lines 2 (js "模块" ++ count (length (LogicManifest.modules manifest)));;
  for_of (LogicManifest.modules manifest) (fun m => moduleToMarkdown lines m);;
  (* [manifest.entities.length]: [entities] is read without a guard *)
  entities ← prop_of (LogicManifest.entities manifest);
  pushTitle lines 2 (js "实体" ++ count (length entities));;
  for_of entities (fun e =>
    pushTitle lines 3 (mdEscape (Entity.name e) ++ js "（" ++ mdEscape (Entity.id e) ++ js "）");;
    push lines 0 (js "说明：" ++ mdEscape (String_ (Entity.description e)));;
    match Entity.models e with
    | Some models =>
      when (0 <? length models)%nat
        (push lines 0 (js "关联模型：" ++ mdEscape (join (js "、") models)))
    | None => mret tt
    end;;
    match Entity.key_fields e with
    | Some key_fields =>
      when (0 <? length key_fields)%nat (
        push lines 0 (js "核心字段" ++ count (length key_fields));;
        for_of key_fields (fun f =>
          let meta :=
            join (js " / ")
                 ([js "字段名：" ++ KeyField.name f]
                  ++ (if truthy_opt (KeyField.source f)
                      then [js "来源：" ++ String_ (KeyField.source f)] else [])) in
          push lines 1 (mdEscape (KeyField.label f) ++ js "："
                        ++ mdEscape (String_ (KeyField.description f)) ++ js "（"
                        ++ mdEscape meta ++ js "）")))
    | None => mret tt
    end;;
    match Entity.statuses e with
    | Some statuses =>
      when (0 <? length statuses)%nat (
        push lines 0 (js "状态" ++ count (length statuses));;
        for_of statuses (fun s =>
          push lines 1 (mdEscape (Status.label s) ++ js "（" ++ mdEscape (Status.value s) ++ js "）"
                        ++ (if truthy_opt (Status.description s)
                            then js "：" ++ mdEscape (String_ (Status.description s))
                            else []))))
    | None => mret tt
    end);;
  pushTitle lines 2 (js "数据模型" ++ count (length (LogicManifest.data_models manifest)));;
  for_of (LogicManifest.data_models manifest) (fun m =>
    pushTitle lines 3 (mdEscape (DataModel.name m) ++ js "（" ++ mdEscape (DataModel.table m) ++ js "）");;
    push lines 0 (js "说明：" ++ mdEscape (DataModel.description m));;
    when (truthy_opt (DataModel.entity m))
      (push lines 0 (js "对应实体：" ++ mdEscape (String_ (DataModel.entity m))));;
    match DataModel.source m with
    | Some so =>
      when (truthy (Source.file so)) (push lines 0 (js "来源：" ++ mdCode (Source.file so)))
    | None => mret tt
    end;;
    when (0 <? length (DataModel.fields m))%nat (
      push lines 0 (js "字段" ++ count (length (DataModel.fields m)));;
      for_of (DataModel.fields m) (fun f =>
        push lines 1 (mdCode (ModelField.name f ++ js ": " ++ ModelField.type f) ++ js " - "
                      ++ mdEscape (ModelField.label f)))));;
  pushTitle lines 2 (js "术语表" ++ count (length (LogicManifest.glossary manifest)));;
  for_of (LogicManifest.glossary manifest) (fun '(k, v) =>
    push lines 0 (mdEscape k ++ js "（" ++ mdEscape (GlossaryEntry.term v) ++ js "）："
                  ++ mdEscape (GlossaryEntry.description v)));;
  pushTitle lines 2 (js "变更历史" ++ count (length (LogicManifest.changelog manifest)));;
  for_of (LogicManifest.changelog manifest) (fun c =>
    push lines 0 (mdEscape (ChangelogEntry.date c) ++ js " / "
                  ++ mdEscape (ChangeType_string (ChangelogEntry.type c)) ++ js "："
                  ++ mdEscape (ChangelogEntry.summary c)));;
  joined ← Array_join lines [NEWLINE];
  mret (joined ++ [NEWLINE]).

End MindmapMarkdown.

(** * What the emitters compute

    The definitions below are used to state the properties: the effect of a
    computation on its output buffer, and, emitter by emitter, the lines it
    pushes, as plain lists.  Each list is proved to be what the emitter of
    the previous part leaves in its buffer. *)

Import Diagrams.

(** Started with the buffer [a] as the newest object of the store, holding
    [buf], the computation completes with [res] and has appended [out] to
    the buffer, leaving every other object as it was. *)
Definition runs_from {A} (a : ArrayRef) (c : Eff A) (buf : list jsstring)
           (res : completion A) (out : list jsstring) : Prop :=
  forall h, length h = a -> c (h ++ [buf]) = (res, h ++ [buf ++ out]).

(** The component [safeNodeId] appends to its prefix. *)
Definition normalized (raw : jsstring) : jsstring :=
  let id := map (fun c => if is_word c then c else UNDERSCORE) raw in
  if starts_with_digit id then UNDERSCORE :: id else id.

(** ** Flowchart of a flow *)

Definition by_order (a b : FlowStep.t) : Z := (FlowStep.order a - FlowStep.order b)%Z.

(** The id of the node at position [i] of the sorted steps. *)
Definition stepId (i : nat) : jsstring := js "S" ++ string_of_nat (i + 1).

Definition stepLabel (rules : list Rule.t) (s : FlowStep.t) : jsstring :=
  let rulesById : gmap jsstring Rule.t :=
    Map_of_entries (map (fun r => (Rule.id r, r)) rules) in
  let ruleNames :=
    uniqueStrings
      (map (fun rid => match rulesById !! rid with
                       | Some r => Rule.name r
                       | None => rid
                       end)
           (default [] (FlowStep.rules s))) in
  join [NEWLINE]
    (if (0 <? length ruleNames)%nat
     then (if truthy_opt (FlowStep.description s)
           then [string_of_Z (FlowStep.order s) ++ js ". " ++ FlowStep.name s]
                ++ [String_ (FlowStep.description s)]
           else [string_of_Z (FlowStep.order s) ++ js ". " ++ FlowStep.name s])
          ++ [js "规则：" ++ join (js "、") ruleNames]
     else if truthy_opt (FlowStep.description s)
          then [string_of_Z (FlowStep.order s) ++ js ". " ++ FlowStep.name s]
               ++ [String_ (FlowStep.description s)]
          else [string_of_Z (FlowStep.order s) ++ js ". " ++ FlowStep.name s]).

Definition stepNode (rules : list Rule.t) (i : nat) (s : FlowStep.t) : jsstring :=
  js "  " ++ stepId i ++ js "[" ++ dq ++ escapeLabel (stepLabel rules s) ++ dq ++ js "]".

Definition edge (from to : jsstring) : jsstring := js "  " ++ from ++ js " --> " ++ to.

Definition flowHead (flow : Flow.t) : list jsstring :=
  [ js "flowchart TD";
    js "  " ++ js "T" ++ js "[" ++ dq ++ escapeLabel (Flow.name flow) ++ dq ++ js "]";
    js "  " ++ js "TR" ++ js "([" ++ dq
    ++ escapeLabel (if truthy_opt (Flow.trigger flow)
                    then js "触发：" ++ String_ (Flow.trigger flow)
                    else js "触发：-")
    ++ dq ++ js "])";
    edge (js "T") (js "TR") ].

(** The placeholder of a flow without steps. *)
Definition flowEmpty : list jsstring :=
  [ js "  " ++ js "EMPTY" ++ js "[" ++ dq ++ js "暂无步骤" ++ dq ++ js "]";
    edge (js "TR") (js "EMPTY") ].

(** The edges that chain [n] step nodes behind the trigger node. *)
Definition flowChain (n : nat) : list jsstring :=
  if (n =? 0)%nat then flowEmpty
  else edge (js "TR") (stepId 0)
       :: map (fun i => edge (stepId i) (stepId (i + 1))) (seq 0 (n - 1)).

Definition flowCode (flow : Flow.t) : list jsstring :=
  let code := formatCodeRef (Flow.code_ref flow) in
  if truthy code
  then [ js "  " ++ js "CODE" ++ js "[" ++ dq ++ escapeLabel (js "代码：" ++ code) ++ dq ++ js "]";
         js "  " ++ js "T" ++ js " -.-> " ++ js "CODE" ]
  else [].

Definition flowchart_lines (flow : Flow.t) (rules : list Rule.t) : list jsstring :=
  let sorted := sort by_order (Flow.steps flow) in
  flowHead flow ++ imap (stepNode rules) sorted ++ flowChain (length sorted) ++ flowCode flow.

(** ** Module dependency graph *)

Definition byId (manifest : LogicManifest.t) : gmap jsstring Mod.t :=
  foldl (fun byId m => <[Mod.id m := m]> byId) ∅ (LogicManifest.modules manifest).

(** The node of a module of the manifest. *)
Definition moduleNode (m : Mod.t) : jsstring :=
  js "  " ++ safeNodeId (js "mod_") (Mod.id m) ++ js "[" ++ dq ++ escapeLabel (Mod.name m)
  ++ js "<br/>(" ++ escapeLabel (Mod.id m) ++ js ")" ++ dq ++ js "]".

(** The node synthesized for a dependency that is no module of the
    manifest. *)
Definition externalNode (dep : jsstring) : jsstring :=
  js "  " ++ safeNodeId (js "ext_") dep ++ js "[" ++ dq ++ escapeLabel dep
  ++ js "<br/>(外部/未知模块)" ++ dq ++ js "]".

(** The node a dependency string resolves to. *)
Definition dependencyTarget (manifest : LogicManifest.t) (dep : jsstring) : jsstring :=
  match byId manifest !! dep with
  | Some depMod => safeNodeId (js "mod_") (Mod.id depMod)
  | None => safeNodeId (js "ext_") dep
  end.

Definition dependencyLines (manifest : LogicManifest.t) (m : Mod.t) : list jsstring :=
  flat_map
    (fun dep =>
       (if negb (bool_decide (is_Some (byId manifest !! dep)))
        then [externalNode dep] else [])
       ++ [edge (safeNodeId (js "mod_") (Mod.id m)) (dependencyTarget manifest dep)])
    (uniqueStrings (default [] (Mod.dependencies m))).

Definition dependencyGraph_lines (manifest : LogicManifest.t) : list jsstring :=
  [js "flowchart LR"]
  ++ flat_map (fun m => [moduleNode m]) (LogicManifest.modules manifest)
  ++ flat_map (dependencyLines manifest) (LogicManifest.modules manifest).

(** ** State diagram *)

Definition aliasById (sm : StateMachine.t) : gmap jsstring jsstring :=
  foldl (fun aliasById '(i, s) =>
           <[StateDefinition.id s := js "S" ++ string_of_nat (i + 1)]> aliasById)
        ∅ (indexed (StateMachine.states sm)).

(** The aliases of declared states: [S1], [S2], ... *)
Definition is_alias (a : jsstring) : Prop :=
  exists n, a = js "S" ++ string_of_nat n.

(** [aliasById.get(id) ?? safeNodeId('S', id)] *)
Definition aliasOf (sm : StateMachine.t) (id : jsstring) : jsstring :=
  default (safeNodeId (js "S") id) (aliasById sm !! id).

Definition stateLine (sm : StateMachine.t) (s : StateDefinition.t) : jsstring :=
  js "  state " ++ dq ++ escapeLabel (StateDefinition.name s) ++ dq ++ js " as "
  ++ aliasOf sm (StateDefinition.id s).

Definition initialState (sm : StateMachine.t) : option jsstring :=
  match find (fun s => flag (StateDefinition.is_initial s)) (StateMachine.states sm) with
  | Some s => Some (StateDefinition.id s)
  | None => StateDefinition.id <$> (StateMachine.states sm !! 0%nat)
  end.

Definition transitionLine (sm : StateMachine.t) (t : StateTransition.t) : jsstring :=
  js "  " ++ aliasOf sm (StateTransition.from t) ++ js " --> " ++ aliasOf sm (StateTransition.to t)
  ++ (if truthy (StateTransition.trigger t) then js ": " ++ StateTransition.trigger t else []).

Definition stateDiagram_lines (sm : StateMachine.t) : list jsstring :=
  [js "stateDiagram-v2"]
  ++ [js "  %% " ++ escapeLabel (StateMachine.name sm ++ js "（" ++ StateMachine.entity sm
                                 ++ js "." ++ StateMachine.field sm ++ js "）")]
  ++ flat_map (fun s => [stateLine sm s]) (StateMachine.states sm)
  ++ match initialState sm with
     | Some initial =>
       if truthy initial then [js "  [*] --> " ++ aliasOf sm initial] else []
     | None => []
     end
  ++ flat_map (fun t => [transitionLine sm t]) (StateMachine.transitions sm)
  ++ flat_map (fun f => [js "  " ++ aliasOf sm f ++ js " --> [*]"])
       (map StateDefinition.id
            (filter (fun s => flag (StateDefinition.is_final s) = true) (StateMachine.states sm))).

(** ** Outline *)

Import MindmapMarkdown.

(** The line [push(lines, level, text)] appends. *)
Definition bullet (level : Z) (text : jsstring) : jsstring :=
  repeat_str (js "  ") (Z.to_nat (Z.max 0 level)) ++ js "- " ++ text.

(** The line [pushTitle(lines, level, text)] appends. *)
Definition heading (level : Z) (text : jsstring) : jsstring :=
  repeat_str (js "#") (Z.to_nat (Z.min 6 (Z.max 1 level))) ++ js " " ++ text.

(** A sub-collection of [n] members guarded by [if (xs.length > 0)]: its
    announcement with the count, then its members' lines; nothing at all
    when it is empty. *)
Definition guarded (level : Z) (name : jsstring) (n : nat) (members : list jsstring)
  : list jsstring :=
  if (0 <? n)%nat then [bullet level (name ++ count n)] ++ members else [].

Definition flowStepLine (s : FlowStep.t) : jsstring :=
  bullet 3
    (mdEscape
       (join (js " / ")
          match FlowStep.rules s with
          | Some rules =>
            if (0 <? length rules)%nat
            then (if truthy_opt (FlowStep.description s)
                  then [string_of_Z (FlowStep.order s) ++ js ". " ++ mdEscape (FlowStep.name s)]
                       ++ [mdEscape (String_ (FlowStep.description s))]
                  else [string_of_Z (FlowStep.order s) ++ js ". " ++ mdEscape (FlowStep.name s)])
                 ++ [js "规则：" ++ mdEscape (join (js "、") rules)]
            else if truthy_opt (FlowStep.description s)
                 then [string_of_Z (FlowStep.order s) ++ js ". " ++ mdEscape (FlowStep.name s)]
                      ++ [mdEscape (String_ (FlowStep.description s))]
                 else [string_of_Z (FlowStep.order s) ++ js ". " ++ mdEscape (FlowStep.name s)]
          | None =>
            if truthy_opt (FlowStep.description s)
            then [string_of_Z (FlowStep.order s) ++ js ". " ++ mdEscape (FlowStep.name s)]
                 ++ [mdEscape (String_ (FlowStep.description s))]
            else [string_of_Z (FlowStep.order s) ++ js ". " ++ mdEscape (FlowStep.name s)]
          end)).

Definition flowLines (f : Flow.t) : list jsstring :=
  [bullet 1 (mdEscape (Flow.name f))]
  ++ (if truthy_opt (Flow.trigger f)
      then [bullet 2 (js "触发：" ++ mdEscape (String_ (Flow.trigger f)))] else [])
  ++ (if truthy_opt (Flow.description f)
      then [bullet 2 (js "说明：" ++ mdEscape (String_ (Flow.description f)))] else [])
  ++ (if truthy_opt (formatCodeRef (Flow.code_ref f))
      then [bullet 2 (js "代码定位：" ++ mdCode (String_ (formatCodeRef (Flow.code_ref f))))]
      else [])
  ++ guarded 2 (js "步骤") (length (Flow.steps f))
       (flat_map (fun s => [flowStepLine s]) (sort by_order (Flow.steps f))).

Definition ruleLines (r : Rule.t) : list jsstring :=
  [bullet 1 (mdEscape (Rule.name r))]
  ++ [bullet 2 (js "优先级：" ++ match Rule.priority r with
                                  | high => js "高"
                                  | medium => js "中"
                                  | low => js "低"
                                  end)]
  ++ (if truthy_opt (Rule.category r)
      then [bullet 2 (js "分类：" ++ mdEscape (String_ (Rule.category r)))] else [])
  ++ (if truthy (Rule.description r)
      then [bullet 2 (js "说明：" ++ mdEscape (Rule.description r))] else [])
  ++ (if truthy_opt (formatCodeRef (Rule.code_ref r))
      then [bullet 2 (js "代码定位：" ++ mdCode (String_ (formatCodeRef (Rule.code_ref r))))]
      else []).

Definition stateTags (s : StateDefinition.t) : list jsstring :=
  (if flag (StateDefinition.is_initial s) then [js "初始"] else [])
  ++ (if flag (StateDefinition.is_final s) then [js "终态"] else []).

Definition stateMachineLines (sm : StateMachine.t) : list jsstring :=
  [bullet 1 (mdEscape (StateMachine.name sm) ++ js "（" ++ mdEscape (StateMachine.entity sm)
             ++ js "." ++ mdEscape (StateMachine.field sm) ++ js "）")]
  ++ (if truthy_opt (StateMachine.description sm)
      then [bullet 2 (js "说明：" ++ mdEscape (String_ (StateMachine.description sm)))] else [])
  ++ [bullet 2 (js "状态" ++ count (length (StateMachine.states sm)))]
  ++ flat_map
       (fun s =>
          [bullet 3 (if (0 <? length (stateTags s))%nat
                     then mdEscape (StateDefinition.name s) ++ js "（"
                          ++ join (js "、") (stateTags s) ++ js "）"
                     else mdEscape (StateDefinition.name s))])
       (StateMachine.states sm)
  ++ guarded 2 (js "转换") (length (StateMachine.transitions sm))
       (flat_map
          (fun t =>
             [bullet 3
                (if truthy_opt (StateTransition.description t)
                 then (mdEscape (StateTransition.from t) ++ js " -> "
                       ++ mdEscape (StateTransition.to t) ++ js " / 触发："
                       ++ mdEscape (StateTransition.trigger t))
                      ++ js " / " ++ mdEscape (String_ (StateTransition.description t))
                 else mdEscape (StateTransition.from t) ++ js " -> "
                      ++ mdEscape (StateTransition.to t) ++ js " / 触发："
                      ++ mdEscape (StateTransition.trigger t))])
          (StateMachine.transitions sm)).

Definition pseudocodeLines (pc : Pseudocode.t) : list jsstring :=
  [bullet 1 (mdCode (Pseudocode.name pc ++ js "("
                     ++ default [] (join (js ", ") <$> Pseudocode.params pc) ++ js ")"))]
  ++ (if truthy_opt (Pseudocode.description pc)
      then [bullet 2 (js "说明：" ++ mdEscape (String_ (Pseudocode.description pc)))] else [])
  ++ (if truthy_opt (Pseudocode.returns pc)
      then [bullet 2 (js "返回：" ++ mdEscape (String_ (Pseudocode.returns pc)))] else [])
  ++ (if truthy_opt (formatCodeRef (Pseudocode.code_ref pc))
      then [bullet 2 (js "代码定位：" ++ mdCode (String_ (formatCodeRef (Pseudocode.code_ref pc))))]
      else [])
  ++ guarded 2 (js "步骤") (length (Pseudocode.steps pc))
       (flat_map
          (fun step =>
             [bullet (3 + Z.min 6 (Z.max 0 (PseudocodeStep.indent step)))
                     (mdEscape (PseudocodeStep.text step))])
          (Pseudocode.steps pc)).

(** Title, description, tags and dependencies of a module. *)
Definition moduleHead (m : Mod.t) : list jsstring :=
  [heading 3 (mdEscape (Mod.name m) ++ js "（" ++ mdEscape (Mod.id m) ++ js "）")]
  ++ (if truthy (Mod.description m)
      then [bullet 0 (js "说明：" ++ mdEscape (Mod.description m))] else [])
  ++ match Mod.tags m with
     | Some tags =>
       if (0 <? length tags)%nat
       then [bullet 0 (js "标签：" ++ mdEscape (join (js "、") tags))] else []
     | None => []
     end
  ++ match Mod.dependencies m with
     | Some deps =>
       if (0 <? length deps)%nat
       then [bullet 0 (js "依赖：" ++ mdEscape (join (js "、") deps))] else []
     | None => []
     end.

Definition codeRefsSection (m : Mod.t) : list jsstring :=
  match Mod.code_refs m with
  | Some code_refs =>
    guarded 0 (js "代码入口") (length code_refs)
      (flat_map
         (fun r => [bullet 1 (if truthy_opt (formatCodeRef (Some r))
                              then mdCode (String_ (formatCodeRef (Some r)))
                              else mdCode (CodeRef.file r))])
         code_refs)
  | None => []
  end.

Definition flowsSection (m : Mod.t) : list jsstring :=
  guarded 0 (js "流程") (length (Mod.flows m)) (flat_map flowLines (Mod.flows m)).

Definition rulesSection (m : Mod.t) : list jsstring :=
  guarded 0 (js "规则") (length (Mod.rules m)) (flat_map ruleLines (Mod.rules m)).

Definition stateMachinesSection (m : Mod.t) : list jsstring :=
  guarded 0 (js "状态机") (length (Mod.state_machines m))
    (flat_map stateMachineLines (Mod.state_machines m)).

Definition pseudocodesSection (m : Mod.t) : list jsstring :=
  guarded 0 (js "伪代码") (length (Mod.pseudocodes m))
    (flat_map pseudocodeLines (Mod.pseudocodes m)).

Definition module_lines (m : Mod.t) : list jsstring :=
  moduleHead m ++ codeRefsSection m ++ flowsSection m ++ rulesSection m
  ++ stateMachinesSection m ++ pseudocodesSection m.

Definition projectLines (project : ProjectInfo.t) : list jsstring :=
  [ heading 1 (js "项目：" ++ mdEscape (ProjectInfo.name project) ++ js "（"
               ++ mdEscape (ProjectInfo.id project) ++ js "） v"
               ++ mdEscape (ProjectInfo.version project));
    bullet 0 (js "项目说明：" ++ mdEscape (ProjectInfo.description project));
    bullet 0 (js "更新时间：" ++ mdEscape (ProjectInfo.updated_at project)) ].

Definition entityLines (e : Entity.t) : list jsstring :=
  [heading 3 (mdEscape (Entity.name e) ++ js "（" ++ mdEscape (Entity.id e) ++ js "）")]
  ++ [bullet 0 (js "说明：" ++ mdEscape (String_ (Entity.description e)))]
  ++ match Entity.models e with
     | Some models =>
       if (0 <? length models)%nat
       then [bullet 0 (js "关联模型：" ++ mdEscape (join (js "、") models))] else []
     | None => []
     end
  ++ match Entity.key_fields e with
     | Some key_fields =>
       guarded 0 (js "核心字段") (length key_fields)
         (flat_map
            (fun f =>
               [bullet 1 (mdEscape (KeyField.label f) ++ js "："
                          ++ mdEscape (String_ (KeyField.description f)) ++ js "（"
                          ++ mdEscape
                               (join (js " / ")
                                  ([js "字段名：" ++ KeyField.name f]
                                   ++ (if truthy_opt (KeyField.source f)
                                       then [js "来源：" ++ String_ (KeyField.source f)]
                                       else [])))
                          ++ js "）")])
            key_fields)
     | None => []
     end
  ++ match Entity.statuses e with
     | Some statuses =>
       guarded 0 (js "状态") (length statuses)
         (flat_map
            (fun s =>
               [bullet 1 (mdEscape (Status.label s) ++ js "（" ++ mdEscape (Status.value s)
                          ++ js "）"
                          ++ (if truthy_opt (Status.description s)
                              then js "：" ++ mdEscape (String_ (Status.description s))
                              else []))])
            statuses)
     | None => []
     end.

Definition dataModelLines (m : DataModel.t) : list jsstring :=
  [heading 3 (mdEscape (DataModel.name m) ++ js "（" ++ mdEscape (DataModel.table m) ++ js "）")]
  ++ [bullet 0 (js "说明：" ++ mdEscape (DataModel.description m))]
  ++ (if truthy_opt (DataModel.entity m)
      then [bullet 0 (js "对应实体：" ++ mdEscape (String_ (DataModel.entity m)))] else [])
  ++ match DataModel.source m with
     | Some so =>
       if truthy (Source.file so) then [bullet 0 (js "来源：" ++ mdCode (Source.file so))] else []
     | None => []
     end
  ++ guarded 0 (js "字段") (length (DataModel.fields m))
       (flat_map
          (fun f =>
             [bullet 1 (mdCode (ModelField.name f ++ js ": " ++ ModelField.type f) ++ js " - "
                        ++ mdEscape (ModelField.label f))])
          (DataModel.fields m)).

Definition glossaryLine (k : jsstring) (v : GlossaryEntry.t) : jsstring :=
  bullet 0 (mdEscape k ++ js "（" ++ mdEscape (GlossaryEntry.term v) ++ js "）："
            ++ mdEscape (GlossaryEntry.description v)).

Definition changelogLine (c : ChangelogEntry.t) : jsstring :=
  bullet 0 (mdEscape (ChangelogEntry.date c) ++ js " / "
            ++ mdEscape (ChangeType_string (ChangelogEntry.type c)) ++ js "："
            ++ mdEscape (ChangelogEntry.summary c)).

(** What is in the buffer when [manifest.entities] is read. *)
Definition outline_lines_modules (manifest : LogicManifest.t) : list jsstring :=
  projectLines (LogicManifest.project manifest)
  ++ [heading 2 (js "模块" ++ count (length (LogicManifest.modules manifest)))]
  ++ flat_map module_lines (LogicManifest.modules manifest).

(** What follows for a manifest whose [entities] are the list given. *)
Definition outline_lines_rest (manifest : LogicManifest.t) (entities : list Entity.t)
  : list jsstring :=
  [heading 2 (js "实体" ++ count (length entities))]
  ++ flat_map entityLines entities
  ++ [heading 2 (js "数据模型" ++ count (length (LogicManifest.data_models manifest)))]
  ++ flat_map dataModelLines (LogicManifest.data_models manifest)
  ++ [heading 2 (js "术语表" ++ count (length (LogicManifest.glossary manifest)))]
  ++ flat_map (fun p => [glossaryLine p.1 p.2]) (LogicManifest.glossary manifest)
  ++ [heading 2 (js "变更历史" ++ count (length (LogicManifest.changelog manifest)))]
  ++ flat_map (fun c => [changelogLine c]) (LogicManifest.changelog manifest).

Definition outline_lines (manifest : LogicManifest.t) (entities : list Entity.t)
  : list jsstring :=
  outline_lines_modules manifest ++ outline_lines_rest manifest entities.

(** ** Reading an output back *)

Fixpoint starts_with (p s : jsstring) : bool :=
  match p, s with
  | [], _ => true
  | x :: p', y :: s' => (x =? y) && starts_with p' s'
  | _ :: _, [] => false
  end.

(** [s.includes(p)] *)
Fixpoint contains (p s : jsstring) : bool :=
  starts_with p s || match s with
                     | [] => false
                     | _ :: r => contains p r
                     end.

(** Some line of the text contains [p]. *)
Definition some_line_contains (p text : jsstring) : bool :=
  existsb (contains p) (split_on NEWLINE text).

(** ** Calls in sequence *)

(** The completion of the second of two consecutive calls, the second
    started in the store the first has left. *)
Definition run_again {A} (c : Eff A) (st : Store) : completion A :=
  run c (snd (c st)).

(** An emitter call is deterministic when its completion is the same in
    every store, in particular in the store a previous call has left. *)
Definition deterministic {A} (c : Eff A) : Prop :=
  (forall st st' : Store, run c st = run c st')
  /\ (forall st : Store, run_again c st = run c st).

(** ** Sample manifests *)

Definition sample_project : ProjectInfo.t :=
  ProjectInfo.mk (js "shop") (js "Shop") (js "demo") (js "1.0") (js "2024-01-01").

Definition sample_module (id : jsstring) (dependencies : option (list jsstring)) : Mod.t :=
  Mod.mk id id (js "a module") None dependencies None [] [] [] [].

Definition sample_manifest (modules : list Mod.t) (entities : option (list Entity.t))
  : LogicManifest.t :=
  LogicManifest.mk (js "v3.1") sample_project modules [] entities [] [].

Definition sample_step (order : Z) (name : jsstring) : FlowStep.t :=
  FlowStep.mk name order name None None.

Definition sample_flow (steps : list FlowStep.t) : Flow.t :=
  Flow.mk (js "f1") (js "checkout") None None steps None.

Definition sample_machine : StateMachine.t :=
  StateMachine.mk (js "sm") (js "order status") None (js "order") (js "status")
    [ StateDefinition.mk (js "new") (js "New") None (Some true) None;
      StateDefinition.mk (js "paid") (js "Paid") None None (Some true) ]
    [ StateTransition.mk (js "new") (js "shipped") (js "ship") None None ].

(** * The code around the emitters *)

(** ** The loader ([src/manifestClient.ts], first unit) *)

Module ManifestClient.

Definition shortSha (sha : jsstring) : jsstring :=
  if (12 <? length sha)%nat then take 12 sha else sha.

(** [s.replace(pat, rep)] with a string pattern: the first occurrence
    only. *)
Fixpoint replace_first (pat rep s : jsstring) : jsstring :=
  if starts_with pat s then rep ++ drop (length pat) s
  else match s with
       | [] => []
       | c :: r => c :: replace_first pat rep r
       end.

Inductive Structure := modular | monolithic.

Module ManifestIndex.
Record t := mk {
  schema : jsstring;
  version : option jsstring;
  structure : option Structure;
  project : ProjectInfo.t;
  modules : list jsstring;
  modules_dir : option jsstring;
  data_models_ref : option jsstring;
  glossary : option (list (jsstring * GlossaryEntry.t));
  changelog : option (list ChangelogEntry.t) }.
End ManifestIndex.

(** What a request meets at a URL: [fetch] itself rejects (no response),
    the response is not [ok], its body is no JSON text ([res.json()]
    rejects), or it carries a document.  [fetchJson<T>] casts the document
    to [T] unchecked; the documents are taken to have the shape they are
    cast to. *)
Inductive Response (A : Type) : Type :=
  | NoResponse
  | NotOk (status : nat) (statusText : jsstring)
  | NotJson
  | Document (a : A).
Arguments NoResponse {A}.
Arguments NotOk {A} status statusText.
Arguments NotJson {A}.
Arguments Document {A} a.

(** What the static server answers, by URL: a manifest or an index at the
    top, modules and data models below. *)
Record Server := {
  top : jsstring -> Response (LogicManifest.t + ManifestIndex.t);
  module_at : jsstring -> Response Mod.t;
  data_models_at : jsstring -> Response (list DataModel.t) }.

(** What an [async] loader rejects with: the error of [fetch], the [Error]
    that [fetchJson] throws with its message, or the error of
    [res.json()]. *)
Inductive FetchError : Type :=
  | NetworkError
  | FetchFailed (message : jsstring)
  | InvalidJson.

(** The completion of an [async] loader: the value of the promise, or what
    it rejects with. *)
Inductive fetched (A : Type) : Type :=
  | Fetched (a : A)
  | Failed (e : FetchError).
Arguments Fetched {A} a.
Arguments Failed {A} e.

Definition fetchJson {A} (docs : jsstring -> Response A) (url : jsstring) : fetched A :=
  match docs url with
  | NoResponse => Failed NetworkError
  | NotOk status statusText =>
    Failed (FetchFailed (js "Fetch failed: " ++ string_of_nat status ++ js " " ++ statusText
                         ++ js " (" ++ url ++ js ")"))
  | NotJson => Failed InvalidJson
  | Document a => Fetched a
  end.

Definition fetchManifestIndex (server : Server) (baseUrl projectId ref : jsstring)
  : fetched (LogicManifest.t + ManifestIndex.t) :=
  let file := if bool_decide (ref = js "latest") then js "latest.json" else ref ++ js ".json" in
  fetchJson (top server) (baseUrl ++ js "/" ++ projectId ++ js "/" ++ file).

Definition fetchModule (server : Server) (baseUrl projectId ref moduleId : jsstring)
  : fetched Mod.t :=
  let dir := if bool_decide (ref = js "latest") then js "modules" else ref ++ js "/modules" in
  fetchJson (module_at server)
            (baseUrl ++ js "/" ++ projectId ++ js "/" ++ dir ++ js "/" ++ moduleId ++ js ".json").

Definition fetchDataModels (server : Server) (baseUrl projectId ref : jsstring)
  : fetched (list DataModel.t) :=
  let file :=
    if bool_decide (ref = js "latest") then js "data_models.json"
    else ref ++ js "/data_models.json" in
  fetchJson (data_models_at server) (baseUrl ++ js "/" ++ projectId ++ js "/" ++ file).

(** [fetchManifest] returns [data as LogicManifest] for every document that
    is not a modular index: a manifest as it is, an index without
    [structure: 'modular'] unconverted. *)
Inductive Loaded : Type :=
  | Manifest (manifest : LogicManifest.t)
  | Unconverted (index : ManifestIndex.t).

Definition fetchManifest (server : Server) (baseUrl projectId ref : jsstring)
  : fetched Loaded :=
  let file := if bool_decide (ref = js "latest") then js "latest.json" else ref ++ js ".json" in
  match fetchJson (top server) (baseUrl ++ js "/" ++ projectId ++ js "/" ++ file) with
  | Failed e => Failed e
  | Fetched (inl manifest) => Fetched (Manifest manifest)
  | Fetched (inr index) =>
    match ManifestIndex.structure index with
    | Some modular =>
      let modulesDir :=
        let dir := default [] (replace_first (js "./") [] <$> ManifestIndex.modules_dir index) in
        if truthy dir then dir else js "modules" in
      (* a module whose load fails, for whatever reason, is skipped with a
         warning *)
      let modules :=
        omap (fun moduleId =>
                match fetchJson (module_at server)
                        (baseUrl ++ js "/" ++ projectId ++ js "/" ++ modulesDir ++ js "/"
                         ++ moduleId ++ js ".json") with
                | Fetched m => Some m
                | Failed _ => None
                end)
             (ManifestIndex.modules index) in
      let data_models :=
        if truthy_opt (ManifestIndex.data_models_ref index) then
          match fetchJson (data_models_at server)
                  (baseUrl ++ js "/" ++ projectId ++ js "/"
                   ++ replace_first (js "./") [] (String_ (ManifestIndex.data_models_ref index))) with
          | Fetched d => d
          | Failed _ => []
          end
        else [] in
      Fetched (Manifest
                 (LogicManifest.mk
                    (ManifestIndex.schema index)
                    (ManifestIndex.project index)
                    modules
                    data_models
                    None
                    (default [] (ManifestIndex.glossary index))
                    (default [] (ManifestIndex.changelog index))))
    | _ => Fetched (Unconverted index)
    end
  end.

End ManifestClient.

(** ** The Markmap component ([src/components/MarkmapMindmap.tsx]) *)

Module MarkmapMindmap.

(** [markdown.trim() + '\n']: the text handed to the transformer. *)
Definition normalized (markdown : jsstring) : jsstring := trim markdown ++ [NEWLINE].

End MarkmapMindmap.

(** ** The indexing script ([deploy/indexer.mjs]) *)

Module Indexer.

(** The class [[0-9a-f]] under the flag [i]. *)
Definition is_hex (c : N) : bool :=
  is_digit c || ((97 <=? c) && (c <=? 102)) || ((65 <=? c) && (c <=? 70)).

(** [/^[0-9a-f]{7,40}$/i.test(name)] *)
Definition isShaLike (name : jsstring) : bool :=
  (7 <=? length name)%nat && (length name <=? 40)%nat && forallb is_hex name.

(** [f.endsWith(suffix)] *)
Definition endsWith (f suffix : jsstring) : bool :=
  starts_with (rev suffix) (rev f).

(** The commit versions collected from the file names of a project
    directory. *)
Definition collectVersions (files : list jsstring) : list jsstring :=
  foldl (fun versions f =>
           if negb (endsWith f (js ".json")) then versions
           else
             let base := take (length f - length (js ".json")) f in
             if bool_decide (base = js "latest") || bool_decide (base = js "index") then versions
             else if negb (isShaLike base) then versions
             else versions ++ [base])
        [] files.

End Indexer.

(** ** Names used in the statements about the diagram emitters *)

(** The entries of a list that are non-empty and occur at no earlier
    position of the list, in the order of the list. *)
Definition firstOccurrences (xs : list jsstring) : list jsstring :=
  omap (fun '(i, x) =>
          if truthy x && negb (bool_decide (x ∈ take i xs)) then Some x else None)
       (indexed xs).

(** What a rule id stands for, read off the list of rules: the name of the
    last rule with that id, and the id itself when no rule has it. *)
Definition shownRule (rules : list Rule.t) (rid : jsstring) : jsstring :=
  match list_find (fun r => Rule.id r = rid) (rev rules) with
  | Some (_, r) => Rule.name r
  | None => rid
  end.

(** ** The line structure of a state diagram

    The statements of the dialect that [generateStateDiagram] uses, one to
    a line: a comment, the declaration of a state with its quoted label and
    its alias, and an arrow between two ends, with or without a label.  An
    end is the pseudostate or an alias.  A text has this structure when its
    first line is the header and every other line is such a statement. *)






(** ** Names used in the statements about the loader *)

(** The URL of the top document of a version. *)
Definition manifestUrl (baseUrl projectId ref : jsstring) : jsstring :=
  baseUrl ++ js "/" ++ projectId ++ js "/"
  ++ (if bool_decide (ref = js "latest") then js "latest.json" else ref ++ js ".json").

(** The module a completed [fetchModule] has loaded, if any. *)
Definition loaded_module (r : ManifestClient.fetched Mod.t) : option Mod.t :=
  match r with
  | ManifestClient.Fetched m => Some m
  | ManifestClient.Failed _ => None
  end.

(** The version name a file of a project directory stands for: the name
    without [.json] when that is like a commit hash. *)
Definition versionOfFile (f : jsstring) : option jsstring :=
  if negb (Indexer.endsWith f (js ".json")) then None
  else
    let base := take (length f - length (js ".json")) f in
    if bool_decide (base = js "latest") || bool_decide (base = js "index") then None
    else if negb (Indexer.isShaLike base) then None
    else Some base.

(** ** More sample data *)

Definition sample_index (modules : list jsstring) : ManifestClient.ManifestIndex.t :=
  ManifestClient.ManifestIndex.mk (js "v3.1") None (Some ManifestClient.modular) sample_project
    modules None None None None.

(** A server that holds a modular index at [/manifests/shop/latest.json] and
    the module [order] below it, and answers 404 elsewhere. *)
Definition sample_server : ManifestClient.Server :=
  {| ManifestClient.top url :=
       if bool_decide (url = js "/manifests/shop/latest.json")
       then ManifestClient.Document (inr (sample_index [js "order"; js "stock"]))
       else ManifestClient.NotOk 404 (js "Not Found");
     ManifestClient.module_at url :=
       if bool_decide (url = js "/manifests/shop/modules/order.json")
       then ManifestClient.Document (sample_module (js "order") None)
       else ManifestClient.NotOk 404 (js "Not Found");
     ManifestClient.data_models_at url := ManifestClient.NotJson |}.

(** * Lemmas *)

(** ** The output buffer: what a computation appends to it *)

Section RunsFrom.

Context {A : Type}.

Lemma rf_ret a (x : A) buf : runs_from a (mret x) buf (Normal x) [].
Proof. intros h _. unfold mret, Eff_ret. by rewrite app_nil_r. Qed.

Lemma rf_throw a e buf : runs_from a (throw e : Eff A) buf (Throw e) [].
Proof. intros h _. unfold throw. by rewrite app_nil_r. Qed.

Lemma rf_eq a (c : Eff A) buf res res' out out' :
  runs_from a c buf res' out' -> res' = res -> out' = out ->
  runs_from a c buf res out.
Proof. by intros H <- <-. Qed.

End RunsFrom.

Lemma rf_push a s buf : runs_from a (Array_push a s) buf (Normal tt) [s].
Proof.
  intros h <-. unfold Array_push. f_equal.
  rewrite (alter_app_r_alt _ h [buf]) by lia. by rewrite Nat.sub_diag.
Qed.

Lemma rf_join a sep buf :
  runs_from a (Array_join a sep) buf (Normal (join sep buf)) [].
Proof.
  intros h <-. unfold Array_join. rewrite app_nil_r. f_equal.
  rewrite (lookup_app_r h [buf]) by lia. by rewrite Nat.sub_diag.
Qed.

Lemma rf_bind {A B} a (c : Eff A) (k : A -> Eff B) buf x o1 r o2 :
  runs_from a c buf (Normal x) o1 ->
  runs_from a (k x) (buf ++ o1) r o2 ->
  runs_from a (c ≫= k) buf r (o1 ++ o2).
Proof.
  intros H1 H2 h Hh. unfold mbind, Eff_bind.
  rewrite (H1 h Hh), (H2 h Hh). by rewrite app_assoc.
Qed.

Lemma rf_bind_throw {A B} a (c : Eff A) (k : A -> Eff B) buf e o1 :
  runs_from a c buf (Throw e) o1 ->
  runs_from a (c ≫= k) buf (Throw e) o1.
Proof. intros H1 h Hh. unfold mbind, Eff_bind. by rewrite (H1 h Hh). Qed.

Lemma rf_when a (b : bool) c buf o :
  runs_from a c buf (Normal tt) o ->
  runs_from a (when b c) buf (Normal tt) (if b then o else []).
Proof. destruct b; [done | intros _; apply rf_ret]. Qed.

Lemma rf_for_of {A} a (xs : list A) (f : A -> Eff unit) (g : A -> list jsstring) :
  (forall x buf, runs_from a (f x) buf (Normal tt) (g x)) ->
  forall buf, runs_from a (for_of xs f) buf (Normal tt) (flat_map g xs).
Proof.
  intros Hf. induction xs as [|x xs IH]; intros buf; simpl.
  - apply rf_ret.
  - eapply rf_bind; [apply Hf | apply IH].
Qed.

Lemma rf_for_acc {A B} a (xs : list A) (body : B -> A -> Eff B)
      (f : B -> A -> B) (g : A -> list jsstring) :
  (forall acc x buf, runs_from a (body acc x) buf (Normal (f acc x)) (g x)) ->
  forall acc buf,
    runs_from a (for_acc xs acc body) buf (Normal (foldl f acc xs)) (flat_map g xs).
Proof.
  intros Hf. induction xs as [|x xs IH]; intros acc buf; simpl.
  - apply rf_ret.
  - eapply rf_bind; [apply Hf | apply IH].
Qed.

Lemma rf_match_option {A} a (o : option A) (f : A -> Eff unit) g buf :
  (forall x, runs_from a (f x) buf (Normal tt) (g x)) ->
  runs_from a (match o with Some x => f x | None => mret tt end) buf (Normal tt)
            (match o with Some x => g x | None => [] end).
Proof. destruct o; [done | intros _; apply rf_ret]. Qed.

(** A call that allocates its buffer, fills it and returns: the completion
    does not depend on the store it starts in, and the store only grows by
    the buffer. *)
Lemma rf_new {A} (k : ArrayRef -> Eff A) res out :
  (forall a, runs_from a (k a) [] res out) ->
  forall st, (Array_new ≫= k) st = (res, st ++ [out]).
Proof.
  intros H st. unfold mbind, Eff_bind, Array_new.
  by rewrite (H (length st) st eq_refl).
Qed.

Lemma rf_if a (b : bool) (c1 c2 : Eff unit) buf o1 o2 :
  runs_from a c1 buf (Normal tt) o1 ->
  runs_from a c2 buf (Normal tt) o2 ->
  runs_from a (if b then c1 else c2) buf (Normal tt) (if b then o1 else o2).
Proof. by destruct b. Qed.

Lemma rf_for_acc_indexed {A B} a (xs : list (nat * A)) (body : B -> nat * A -> Eff B)
      (f : B -> nat -> A -> B) (g : nat -> A -> list jsstring) :
  (forall acc i x buf, runs_from a (body acc (i, x)) buf (Normal (f acc i x)) (g i x)) ->
  forall acc buf,
    runs_from a (for_acc xs acc body) buf
              (Normal (foldl (fun acc p => f acc p.1 p.2) acc xs))
              (flat_map (fun p => g p.1 p.2) xs).
Proof. intros Hf. apply rf_for_acc. intros acc [i x] buf. apply Hf. Qed.

(** One step through a computation written with the combinators above. *)
Ltac rf_step :=
  cbv beta zeta;
  lazymatch goal with
  | |- runs_from _ (mret _) _ _ _ => apply rf_ret
  | |- runs_from _ (Array_push _ _) _ _ _ => apply rf_push
  | |- runs_from _ (Array_join _ _) _ _ _ => apply rf_join
  | |- runs_from _ (when _ _) _ _ _ => eapply rf_when
  | |- runs_from _ (for_of _ _) _ _ _ => eapply rf_for_of; intros ? ?
  | |- runs_from _ (for_acc (indexed _) _ _) _ _ _ =>
    eapply rf_for_acc_indexed; intros ? ? ? ?
  | |- runs_from _ (match ?o with Some x => @?f x | None => mret tt end) _ _ _ =>
    eapply (rf_match_option _ o f); intros ?
  | |- runs_from _ (if _ then _ else _) _ _ _ => eapply rf_if
  | |- runs_from _ (_ ≫= _) _ _ _ => eapply rf_bind
  end.



(** ** Sanitizers *)

Lemma replaceAll_not_in_same c rep s :
  ~ In c rep -> ~ In c (replaceAll c rep s).
Proof.
  intros Hrep Hin. unfold replaceAll in Hin.
  apply in_flat_map in Hin as (x & _ & Hx).
  destruct (x =? c) eqn:E.
  - done.
  - destruct Hx as [->|[]]. by rewrite N.eqb_refl in E.
Qed.

Lemma replaceAll_not_in_other x c rep s :
  ~ In x s -> ~ In x rep -> ~ In x (replaceAll c rep s).
Proof.
  intros Hs Hrep Hin. unfold replaceAll in Hin.
  apply in_flat_map in Hin as (y & Hy & Hx).
  destruct (y =? c); [done|].
  destruct Hx as [->|[]]. done.
Qed.

Lemma not_in_literal (x : N) (l : list N) :
  forallb (fun y => negb (y =? x)) l = true -> ~ In x l.
Proof.
  intros H Hin. rewrite forallb_forall in H. specialize (H x Hin).
  by rewrite N.eqb_refl in H.
Qed.

Ltac literal_free := apply not_in_literal; vm_compute; reflexivity.

Lemma escapeLabel_no_dquote text : ~ In DQUOTE (escapeLabel text).
Proof.
  unfold escapeLabel. apply replaceAll_not_in_other; [|literal_free].
  apply replaceAll_not_in_same. literal_free.
Qed.

Lemma escapeLabel_no_newline text : ~ In NEWLINE (escapeLabel text).
Proof. unfold escapeLabel. apply replaceAll_not_in_same. literal_free. Qed.

(** The four bracket replacements of [escapeMindmapText] keep out whatever
    their input and their replacement texts are free of. *)
Lemma escapeMindmapText_keeps_out x text :
  ~ In x (escapeLabel text) ->
  forallb (fun y => negb (y =? x)) (js "（" ++ js "）" ++ js "【" ++ js "】") = true ->
  ~ In x (escapeMindmapText text).
Proof.
  intros Hx Hlit. apply not_in_literal in Hlit.
  unfold escapeMindmapText.
  repeat (apply replaceAll_not_in_other;
          [| intros Hin; apply Hlit; rewrite !in_app_iff; tauto]).
  exact Hx.
Qed.

(** ** Node ids and state aliases *)

Lemma string_of_N_digit n :
  exists d r, string_of_N n = d :: r /\ is_digit d = true.
Proof.
  unfold string_of_N.
  assert (Hnil : N.to_uint n <> Decimal.Nil).
  { destruct n as [|p]; [discriminate|]. apply Unsigned.to_uint_nonnil. }
  destruct (N.to_uint n); [done | simpl; eauto ..].
Qed.

Lemma string_of_nat_digit n :
  exists d r, string_of_nat n = d :: r /\ is_digit d = true.
Proof. apply string_of_N_digit. Qed.

Lemma normalized_no_digit raw : starts_with_digit (normalized raw) = false.
Proof.
  unfold normalized. cbv zeta.
  destruct (starts_with_digit (map _ raw)) eqn:E; [reflexivity | exact E].
Qed.

Lemma safeNodeId_nonempty_prefix p prefix raw :
  safeNodeId (p :: prefix) raw = (p :: prefix) ++ normalized raw.
Proof. reflexivity. Qed.

Lemma safeNodeId_S_not_alias raw n :
  safeNodeId (js "S") raw <> js "S" ++ string_of_nat n.
Proof.
  change (js "S") with [83]. rewrite safeNodeId_nonempty_prefix.
  intros H. apply app_inv_head in H.
  destruct (string_of_nat_digit n) as (d & r & Hn & Hd).
  pose proof (normalized_no_digit raw) as Hno.
  rewrite H, Hn in Hno. simpl in Hno. congruence.
Qed.


(** ** [sort] with a numeric key *)

Section SortByKey.

Context {A : Type} (key : A -> Z).

Local Abbreviation cmp := (fun a b : A => (key a - key b)%Z).
Local Abbreviation le := (fun a b : A => (key a <= key b)%Z).

Lemma sort_insert_perm x s : Permutation (sort_insert cmp x s) (x :: s).
Proof.
  induction s as [|y s IH]; simpl; [done|].
  destruct (key x - key y <=? 0)%Z; [done|].
  rewrite IH. apply perm_swap.
Qed.

Lemma sort_perm xs : Permutation (sort cmp xs) xs.
Proof.
  induction xs as [|x xs IH]; simpl; [done|].
  rewrite sort_insert_perm. by constructor.
Qed.

Lemma sort_insert_sorted x s :
  StronglySorted le s -> StronglySorted le (sort_insert cmp x s).
Proof.
  induction 1 as [|y s Hs IH Hy]; simpl.
  - repeat constructor.
  - destruct (Z.leb_spec (key x - key y) 0) as [Hle|Hgt].
    + constructor; [by constructor|].
      constructor; [lia|].
      eapply Forall_impl; [exact Hy|]. simpl. intros; lia.
    + constructor; [exact IH|].
      rewrite (sort_insert_perm x s). constructor; [lia | exact Hy].
Qed.

Lemma sort_sorted xs : StronglySorted le (sort cmp xs).
Proof.
  induction xs as [|x xs IH]; simpl; [constructor|].
  by apply sort_insert_sorted.
Qed.

(** Stability: among the elements of one key nothing moves. *)
Lemma sort_insert_stable k x s :
  filter (fun y => key y = k) (sort_insert cmp x s)
  = filter (fun y => key y = k) (x :: s).
Proof.
  induction s as [|y s IH]; simpl; [done|].
  destruct (Z.leb_spec (key x - key y) 0) as [Hle|Hgt]; [done|].
  rewrite filter_cons, IH, !filter_cons.
  repeat case_decide; try reflexivity; lia.
Qed.

Lemma sort_stable k xs :
  filter (fun y => key y = k) (sort cmp xs) = filter (fun y => key y = k) xs.
Proof.
  induction xs as [|x xs IH]; simpl; [done|].
  rewrite sort_insert_stable, !filter_cons, IH. done.
Qed.

Lemma sort_length xs : length (sort cmp xs) = length xs.
Proof. apply Permutation_length, sort_perm. Qed.

End SortByKey.

(** ** Flowchart of a flow *)

Lemma flat_map_singleton {A B} (g : A -> B) (xs : list A) :
  flat_map (fun x => [g x]) xs = map g xs.
Proof. induction xs as [|x xs IH]; simpl; [done | by rewrite IH]. Qed.

Lemma flat_map_indexed {A B} (g : nat -> A -> B) (xs : list A) :
  flat_map (fun p => [g p.1 p.2]) (indexed xs) = imap g xs.
Proof.
  unfold indexed.
  enough (forall f : nat -> nat,
             flat_map (fun p => [g p.1 p.2]) (imap (fun i x => (f i, x)) xs)
             = imap (fun i => g (f i)) xs) as H by apply (H (fun i => i)).
  induction xs as [|x xs IH]; intros f; simpl; [done|].
  f_equal. apply (IH (f ∘ S)).
Qed.

(** The ids collected in the loop over the sorted steps. *)
Lemma stepIds_collected {A} (xs : list A) :
  foldl (fun (acc : list jsstring) (p : nat * A) => acc ++ [js "S" ++ string_of_nat (p.1 + 1)])
        [] (indexed xs)
  = map stepId (seq 0 (length xs)).
Proof.
  unfold indexed.
  enough (forall (f : nat -> nat) acc,
             foldl (fun (acc : list jsstring) (p : nat * A) =>
                      acc ++ [js "S" ++ string_of_nat (p.1 + 1)])
                   acc (imap (fun i x => (f i, x)) xs)
             = acc ++ map (fun i => stepId (f i)) (seq 0 (length xs))) as H.
  { rewrite (H (fun i => i) []). simpl. apply map_ext. done. }
  induction xs as [|x xs IH]; intros f acc; simpl.
  - by rewrite app_nil_r.
  - rewrite (IH (f ∘ S)). rewrite <- app_assoc. simpl.
    by rewrite <- seq_shift, map_map.
Qed.

Lemma stepIds_lookup n i :
  (i < n)%nat -> String_ (map stepId (seq 0 n) !! i) = stepId i.
Proof.
  intros Hi. rewrite list_lookup_fmap, lookup_seq_lt by done. done.
Qed.

Lemma generateFlowchartForFlow_lines flow rules st :
  generateFlowchartForFlow flow rules st
  = (Normal (join [NEWLINE] (flowchart_lines flow rules)),
     st ++ [flowchart_lines flow rules]).
Proof.
  unfold generateFlowchartForFlow. apply rf_new. intros a.
  assert (Hchain :
    forall n,
      (if (length (map stepId (seq 0 n)) =? 0)%nat
       then flowEmpty
       else [js "  " ++ js "TR" ++ js " --> " ++ String_ (map stepId (seq 0 n) !! 0%nat)]
            ++ flat_map (fun i => [js "  " ++ String_ (map stepId (seq 0 n) !! i) ++ js " --> "
                                   ++ String_ (map stepId (seq 0 n) !! (i + 1)%nat)])
                        (seq 0 (length (map stepId (seq 0 n)) - 1)))
      = flowChain n).
  { intros n. rewrite length_map, length_seq. unfold flowChain.
    destruct n as [|n]; [reflexivity|]. simpl Nat.eqb. cbv iota.
    rewrite flat_map_singleton. rewrite stepIds_lookup by lia.
    change ([?x] ++ ?l) with (x :: l). f_equal.
    apply map_ext_in. intros i Hi%in_seq.
    rewrite !stepIds_lookup by lia. reflexivity. }
  eapply rf_eq.
  - repeat rf_step.
  - rewrite !stepIds_collected, Hchain, <- !app_assoc.
    rewrite (flat_map_indexed (stepNode rules)). reflexivity.
  - rewrite !stepIds_collected, Hchain.
    rewrite (flat_map_indexed (stepNode rules)).
    unfold flowchart_lines. rewrite app_nil_r. reflexivity.
Qed.

(** An emitter whose buffer receives [lines] and which returns them joined;
    [tac] shows that the lines pushed are the ones announced. *)
Ltac emitter_lines_by tac :=
  apply rf_new; intros ?; eapply rf_eq;
  [ repeat rf_step
  | f_equal; f_equal; rewrite <- ?app_assoc; rewrite ?app_nil_r;
    change ([] ++ ?x) with x; tac
  | rewrite ?app_nil_r; tac ].

Ltac emitter_lines := emitter_lines_by ltac:(reflexivity).

(** ** Module dependency graph *)

Lemma generateModuleDependencyGraph_lines manifest st :
  generateModuleDependencyGraph manifest st
  = (Normal (join [NEWLINE] (dependencyGraph_lines manifest)),
     st ++ [dependencyGraph_lines manifest]).
Proof.
  unfold generateModuleDependencyGraph.
  emitter_lines_by ltac:(
    unfold dependencyGraph_lines; do 2 f_equal;
    apply flat_map_ext; intros m; unfold dependencyLines;
    apply flat_map_ext; intros dep;
    unfold externalNode, edge, dependencyTarget, byId;
    destruct (foldl _ _ _ !! dep); reflexivity).
Qed.

(** ** State diagram *)

Lemma generateStateDiagram_lines sm st :
  generateStateDiagram sm st
  = (Normal (join [NEWLINE] (stateDiagram_lines sm)), st ++ [stateDiagram_lines sm]).
Proof. unfold generateStateDiagram. emitter_lines. Qed.

(** ** Outline *)

Lemma rf_mm_push a level text buf :
  runs_from a (push a level text) buf (Normal tt) [bullet level text].
Proof. apply rf_push. Qed.

Lemma rf_mm_pushTitle a level text buf :
  runs_from a (pushTitle a level text) buf (Normal tt) [heading level text].
Proof. apply rf_push. Qed.

Lemma rf_for_of_pair {A B} a (xs : list (A * B)) (f : A * B -> Eff unit) g :
  (forall k v buf, runs_from a (f (k, v)) buf (Normal tt) (g k v)) ->
  forall buf, runs_from a (for_of xs f) buf (Normal tt) (flat_map (fun p => g p.1 p.2) xs).
Proof. intros Hf. apply rf_for_of. intros [k v] buf. apply Hf. Qed.

Ltac rf_outline_step :=
  cbv beta zeta;
  lazymatch goal with
  | |- runs_from _ (push _ _ _) _ _ _ => apply rf_mm_push
  | |- runs_from _ (pushTitle _ _ _) _ _ _ => apply rf_mm_pushTitle
  | |- runs_from _ (for_of (LogicManifest.glossary _) _) _ _ _ =>
    eapply rf_for_of_pair; intros ? ? ?
  | |- runs_from _ (prop_of (Some _)) _ _ _ => apply rf_ret
  | |- _ => rf_step
  end.

Lemma moduleToMarkdown_lines a m buf :
  runs_from a (moduleToMarkdown a m) buf (Normal tt) (module_lines m).
Proof.
  unfold moduleToMarkdown. eapply rf_eq.
  - repeat rf_outline_step.
  - reflexivity.
  - unfold module_lines, moduleHead. rewrite <- ?app_assoc. reflexivity.
Qed.

Ltac rf_outline :=
  repeat (cbv beta zeta;
          lazymatch goal with
          | |- runs_from _ (moduleToMarkdown _ _) _ _ _ => apply moduleToMarkdown_lines
          | |- _ => rf_outline_step
          end).

Lemma generateMindmapMarkdown_lines manifest entities st :
  LogicManifest.entities manifest = Some entities ->
  generateMindmapMarkdown manifest st
  = (Normal (join [NEWLINE] (outline_lines manifest entities) ++ [NEWLINE]),
     st ++ [outline_lines manifest entities]).
Proof.
  intros E. unfold generateMindmapMarkdown. rewrite E.
  apply rf_new. intros a. eapply rf_eq.
  - rf_outline.
  - f_equal. f_equal. f_equal. rewrite <- ?app_assoc. reflexivity.
  - rewrite ?app_nil_r. unfold outline_lines, outline_lines_modules.
    rewrite <- ?app_assoc. reflexivity.
Qed.

Lemma generateMindmapMarkdown_throws manifest st :
  LogicManifest.entities manifest = None ->
  generateMindmapMarkdown manifest st
  = (Throw (TypeError "Cannot read properties of undefined"),
     st ++ [outline_lines_modules manifest]).
Proof.
  intros E. unfold generateMindmapMarkdown. rewrite E.
  apply rf_new. intros a. eapply rf_eq.
  - do 5 (eapply rf_bind; [rf_outline|]).
    apply rf_bind_throw. apply rf_throw.
  - reflexivity.
  - rewrite ?app_nil_r. reflexivity.
Qed.

(** ** Project mind map *)

Lemma generateProjectMindmap_lines manifest :
  exists lines, forall st,
    generateProjectMindmap manifest st = (Normal (join [NEWLINE] lines), st ++ [lines]).
Proof.
  eexists. intros st. unfold generateProjectMindmap.
  apply rf_new. intros a. eapply rf_eq; [repeat rf_step | | reflexivity].
  rewrite <- ?app_assoc, ?app_nil_r. reflexivity.
Qed.

(** ** Aliases of the declared states *)

Local Abbreviation set_alias :=
  (fun (aliasById : gmap jsstring jsstring) '(i, s) =>
     <[StateDefinition.id s := js "S" ++ string_of_nat (i + 1)]> aliasById).

Lemma alias_fold_keeps (l : list (nat * StateDefinition.t)) (m : gmap jsstring jsstring) k :
  (exists a, m !! k = Some a /\ is_alias a) ->
  exists a, foldl set_alias m l !! k = Some a /\ is_alias a.
Proof.
  revert m. induction l as [|[i s] l IH]; intros m Hm; simpl; [done|].
  apply IH. destruct (decide (StateDefinition.id s = k)) as [->|Hne].
  - rewrite lookup_insert_eq. eexists; split; [done | by eexists].
  - by rewrite lookup_insert_ne.
Qed.

Lemma alias_fold_declared (l : list (nat * StateDefinition.t)) (m : gmap jsstring jsstring) p :
  In p l ->
  exists a, foldl set_alias m l !! StateDefinition.id p.2 = Some a /\ is_alias a.
Proof.
  revert m. induction l as [|[i s] l IH]; intros m Hin; simpl; [done|].
  destruct Hin as [<-|Hin]; [|by apply IH].
  apply alias_fold_keeps. simpl. rewrite lookup_insert_eq.
  eexists; split; [done | by eexists].
Qed.

Lemma alias_fold_undeclared (l : list (nat * StateDefinition.t)) (m : gmap jsstring jsstring) k :
  m !! k = None ->
  (forall p, In p l -> StateDefinition.id p.2 <> k) ->
  foldl set_alias m l !! k = None.
Proof.
  revert m. induction l as [|[i s] l IH]; intros m Hm Hl; simpl; [done|].
  apply IH.
  - rewrite lookup_insert_ne; [done|]. apply (Hl (i, s)). by left.
  - intros p Hp. apply Hl. by right.
Qed.

Lemma indexed_In {A} (xs : list A) p : In p (indexed xs) <-> xs !! p.1 = Some p.2.
Proof.
  unfold indexed. rewrite <- list_elem_of_In, list_elem_of_lookup. split.
  - intros (j & Hj). apply list_lookup_imap_Some in Hj as (x & Hx & ->). done.
  - intros Hp. exists p.1. apply list_lookup_imap_Some. exists p.2.
    split; [done | by destruct p].
Qed.

Lemma aliasById_declared sm s :
  In s (StateMachine.states sm) ->
  exists a, aliasById sm !! StateDefinition.id s = Some a /\ is_alias a.
Proof.
  intros Hs. apply list_elem_of_In, list_elem_of_lookup in Hs as (i & Hi).
  apply (alias_fold_declared _ _ (i, s)). by apply indexed_In.
Qed.

Lemma aliasById_undeclared sm id :
  (forall s, In s (StateMachine.states sm) -> StateDefinition.id s <> id) ->
  aliasById sm !! id = None.
Proof.
  intros Hid. apply alias_fold_undeclared; [apply lookup_empty|].
  intros p Hp%indexed_In. apply Hid.
  apply list_elem_of_In, list_elem_of_lookup. eauto.
Qed.



(** ** Lines of a text *)

Lemma split_on_nonempty c (x : jsstring) : split_on c x <> [].
Proof.
  destruct x as [|a x]; simpl; [done|].
  destruct (a =? c); [done|]. by destruct (split_on c x).
Qed.

Lemma split_on_app c (x y : jsstring) :
  split_on c (x ++ c :: y) = split_on c x ++ split_on c y.
Proof.
  induction x as [|a x IH]; simpl.
  - by rewrite N.eqb_refl.
  - destruct (a =? c); [by rewrite IH|].
    rewrite IH. pose proof (split_on_nonempty c x).
    by destruct (split_on c x).
Qed.

Lemma split_on_line c (l : jsstring) : ~ In c l -> split_on c l = [l].
Proof.
  induction l as [|a l IH]; simpl; [done|]. intros Hin.
  destruct (N.eqb_spec a c) as [->|Hne]; [tauto|].
  rewrite IH by tauto. done.
Qed.

Lemma In_split_join c (l : jsstring) (lines : list jsstring) :
  In l lines -> ~ In c l -> In l (split_on c (join [c] lines)).
Proof.
  intros Hin Hc. induction lines as [|x lines IH]; [done|].
  destruct lines as [|y lines].
  - destruct Hin as [->|[]]. simpl. rewrite split_on_line by done. by left.
  - change (join [c] (x :: y :: lines)) with (x ++ c :: join [c] (y :: lines)).
    rewrite split_on_app, in_app_iff.
    destruct Hin as [->|Hin].
    + left. rewrite split_on_line by done. by left.
    + right. by apply IH.
Qed.

Lemma In_split_join_nl c (l : jsstring) (lines : list jsstring) :
  In l lines -> ~ In c l -> In l (split_on c (join [c] lines ++ [c])).
Proof.
  intros Hin Hc. rewrite split_on_app, in_app_iff. left.
  by apply In_split_join.
Qed.

Lemma codes_of_uint_digits d x : In x (codes_of_uint d) -> is_digit x = true.
Proof.
  induction d; simpl; intros Hin; try done;
    (destruct Hin as [<-|Hin]; [reflexivity | by apply IHd]).
Qed.

Lemma count_no_newline n : ~ In NEWLINE (count n).
Proof.
  unfold count. rewrite !in_app_iff. intros [H|[H|H]].
  - revert H. literal_free.
  - apply codes_of_uint_digits in H. done.
  - revert H. literal_free.
Qed.

(** * The properties of the specification *)

(** ** Sanitizers *)

(** C3 (code defect).  The fallback of [safeNodeId] tests the whole id, prefix
    included, so with a non-empty prefix it never fires: for an empty raw
    component the result is the bare prefix, not the prefix followed by
    [x]. *)
Theorem safeNodeId_empty_component_is_bare_prefix :
  forall prefix : jsstring,
    prefix <> [] ->
    safeNodeId prefix [] = prefix /\ safeNodeId prefix [] <> prefix ++ js "x".
Proof.
  intros [|p prefix] Hp; [done|].
  rewrite safeNodeId_nonempty_prefix.
  change (normalized []) with (@nil N). rewrite app_nil_r. split; [done|].
  intros H.
  assert (Hlen : length (p :: prefix) = length ((p :: prefix) ++ js "x")) by congruence.
  rewrite length_app in Hlen. change (length (js "x")) with 1%nat in Hlen. lia.
Qed.

Lemma safeNodeId_empty_component_witness :
  js "mod_" <> [] /\ safeNodeId (js "mod_") [] = js "mod_".
Proof.
  split; [discriminate|].
  apply (safeNodeId_empty_component_is_bare_prefix (js "mod_")). discriminate.
Defined.

(** C7.  An escaped label holds no double quote and no newline, and an
    escaped outline text holds, besides, no ASCII parenthesis or square
    bracket; the replacements are applied in the order backslash, double
    quote, newline. *)
Theorem escaped_text_is_free_of_reserved_characters :
  forall text : jsstring,
    escapeLabel text
    = replaceAll NEWLINE (js "<br/>")
        (replaceAll DQUOTE [SQUOTE] (replaceAll BACKSLASH [BACKSLASH; BACKSLASH] text))
    /\ ~ In DQUOTE (escapeLabel text)
    /\ ~ In NEWLINE (escapeLabel text)
    /\ (forall c, In c [DQUOTE; NEWLINE; LPAREN; RPAREN; LBRACKET; RBRACKET] ->
                  ~ In c (escapeMindmapText text)).
Proof.
  intros text. split; [reflexivity|].
  split; [apply escapeLabel_no_dquote|].
  split; [apply escapeLabel_no_newline|].
  intros c Hc. simpl in Hc.
  destruct Hc as [<-|[<-|Hc]].
  - apply escapeMindmapText_keeps_out; [apply escapeLabel_no_dquote | by vm_compute].
  - apply escapeMindmapText_keeps_out; [apply escapeLabel_no_newline | by vm_compute].
  - unfold escapeMindmapText.
    destruct Hc as [<-|[<-|[<-|[<-|[]]]]].
    + do 3 (apply replaceAll_not_in_other; [|literal_free]).
      apply replaceAll_not_in_same. literal_free.
    + do 2 (apply replaceAll_not_in_other; [|literal_free]).
      apply replaceAll_not_in_same. literal_free.
    + do 1 (apply replaceAll_not_in_other; [|literal_free]).
      apply replaceAll_not_in_same. literal_free.
    + apply replaceAll_not_in_same. literal_free.
Qed.

Lemma escaped_text_is_free_of_reserved_characters_witness :
  In LPAREN [DQUOTE; NEWLINE; LPAREN; RPAREN; LBRACKET; RBRACKET]
  /\ ~ In LPAREN (escapeMindmapText (js "pay (card) [v2]")).
Proof.
  split; [vm_compute; tauto|].
  apply (escaped_text_is_free_of_reserved_characters (js "pay (card) [v2]")).
  vm_compute; tauto.
Defined.

(** ** Flowchart of a flow *)

(** C2.  The steps are rendered sorted by ascending [order], steps of equal
    [order] in their original relative order, whatever the order of the
    array: node [S1] is the first sorted step, the trigger node points to
    it, and each node points to the next.  For steps given with the orders
    3, 1, 2 the chain is step 1, step 2, step 3. *)
Theorem flowchart_renders_steps_in_ascending_order :
  forall (flow : Flow.t) (rules : list Rule.t) (st : Store),
    let sorted := sort by_order (Flow.steps flow) in
    StronglySorted (fun a b => (FlowStep.order a <= FlowStep.order b)%Z) sorted
    /\ Permutation sorted (Flow.steps flow)
    /\ (forall k : Z,
           filter (fun s => FlowStep.order s = k) sorted
           = filter (fun s => FlowStep.order s = k) (Flow.steps flow))
    /\ run (generateFlowchartForFlow flow rules) st
       = Normal (join [NEWLINE]
                   (flowHead flow
                    ++ imap (stepNode rules) sorted
                    ++ flowChain (length sorted)
                    ++ flowCode flow))
    /\ (forall s3 s1 s2 : FlowStep.t,
           Flow.steps flow = [s3; s1; s2] ->
           FlowStep.order s3 = 3%Z -> FlowStep.order s1 = 1%Z -> FlowStep.order s2 = 2%Z ->
           run (generateFlowchartForFlow flow rules) st
           = Normal (join [NEWLINE]
                       (flowHead flow
                        ++ [ js "  " ++ js "S1" ++ js "[" ++ dq
                             ++ escapeLabel (stepLabel rules s1) ++ dq ++ js "]";
                             js "  " ++ js "S2" ++ js "[" ++ dq
                             ++ escapeLabel (stepLabel rules s2) ++ dq ++ js "]";
                             js "  " ++ js "S3" ++ js "[" ++ dq
                             ++ escapeLabel (stepLabel rules s3) ++ dq ++ js "]" ]
                        ++ [ edge (js "TR") (js "S1");
                             edge (js "S1") (js "S2");
                             edge (js "S2") (js "S3") ]
                        ++ flowCode flow))).
Proof.
  intros flow rules st sorted.
  assert (Hrun : run (generateFlowchartForFlow flow rules) st
                 = Normal (join [NEWLINE] (flowchart_lines flow rules))).
  { unfold run. by rewrite generateFlowchartForFlow_lines. }
  split; [apply (sort_sorted FlowStep.order)|].
  split; [apply (sort_perm FlowStep.order)|].
  split; [intros k; apply (sort_stable FlowStep.order)|].
  split; [exact Hrun|].
  intros s3 s1 s2 Hsteps H3 H1 H2. rewrite Hrun.
  unfold flowchart_lines. rewrite Hsteps.
  assert (Hsorted : sort by_order [s3; s1; s2] = [s1; s2; s3]).
  { unfold sort, by_order.
    repeat (progress (simpl; rewrite ?H1, ?H2, ?H3)). reflexivity. }
  rewrite Hsorted. reflexivity.
Qed.

Lemma flowchart_renders_steps_in_ascending_order_witness :
  let flow := sample_flow [sample_step 3 (js "ship"); sample_step 1 (js "create");
                           sample_step 2 (js "pay")] in
  run (generateFlowchartForFlow flow []) []
  = Normal (join [NEWLINE]
              [ js "flowchart TD";
                js "  T[" ++ dq ++ js "checkout" ++ dq ++ js "]";
                js "  TR([" ++ dq ++ js "触发：-" ++ dq ++ js "])";
                js "  T --> TR";
                js "  S1[" ++ dq ++ js "1. create" ++ dq ++ js "]";
                js "  S2[" ++ dq ++ js "2. pay" ++ dq ++ js "]";
                js "  S3[" ++ dq ++ js "3. ship" ++ dq ++ js "]";
                js "  TR --> S1";
                js "  S1 --> S2";
                js "  S2 --> S3" ]).
Proof.
  intros flow.
  destruct (flowchart_renders_steps_in_ascending_order flow [] [])
    as (_ & _ & _ & _ & H).
  rewrite (H (sample_step 3 (js "ship")) (sample_step 1 (js "create"))
             (sample_step 2 (js "pay")) eq_refl eq_refl eq_refl eq_refl).
  vm_compute. reflexivity.
Defined.

(** C8.  A flow without steps gets no step node: after the title and the
    trigger, one placeholder node and one edge from the trigger node to
    it. *)
Theorem flowchart_of_no_steps_has_placeholder :
  forall (flow : Flow.t) (rules : list Rule.t) (st : Store),
    Flow.steps flow = [] ->
    run (generateFlowchartForFlow flow rules) st
    = Normal (join [NEWLINE]
                (flowHead flow
                 ++ [ js "  " ++ js "EMPTY" ++ js "[" ++ dq ++ js "暂无步骤" ++ dq ++ js "]";
                      edge (js "TR") (js "EMPTY") ]
                 ++ flowCode flow)).
Proof.
  intros flow rules st Hsteps. unfold run.
  rewrite generateFlowchartForFlow_lines. simpl.
  unfold flowchart_lines. rewrite Hsteps. reflexivity.
Qed.

Lemma flowchart_of_no_steps_has_placeholder_witness :
  Flow.steps (sample_flow []) = []
  /\ run (generateFlowchartForFlow (sample_flow []) []) []
     = Normal (join [NEWLINE]
                 [ js "flowchart TD";
                   js "  T[" ++ dq ++ js "checkout" ++ dq ++ js "]";
                   js "  TR([" ++ dq ++ js "触发：-" ++ dq ++ js "])";
                   js "  T --> TR";
                   js "  EMPTY[" ++ dq ++ js "暂无步骤" ++ dq ++ js "]";
                   js "  TR --> EMPTY" ]).
Proof.
  split; [reflexivity|].
  rewrite (flowchart_of_no_steps_has_placeholder (sample_flow []) [] [] eq_refl).
  vm_compute. reflexivity.
Defined.

(** ** Module dependency graph *)

Lemma uniqueStrings_singleton (x : jsstring) : x <> [] -> uniqueStrings [x] = [x].
Proof. destruct x; [done|]. reflexivity. Qed.

Lemma ext_id_is_no_mod_id dep id :
  safeNodeId (js "ext_") dep <> safeNodeId (js "mod_") id.
Proof.
  change (js "ext_") with [101; 120; 116; 95].
  change (js "mod_") with [109; 111; 100; 95].
  rewrite !safeNodeId_nonempty_prefix. simpl. intros [=].
Qed.

(** ** State diagram *)

(** C10.  The alias minted for an id that no declared state has is never the
    alias of a declared state: those are [S] followed by a decimal number,
    while after its [S] a minted alias is empty or starts with a character
    that is no digit. *)
Theorem minted_alias_differs_from_declared_aliases :
  forall (sm : StateMachine.t) (raw : jsstring),
    (forall s, In s (StateMachine.states sm) -> StateDefinition.id s <> raw) ->
    aliasOf sm raw = safeNodeId (js "S") raw
    /\ (forall n : nat, aliasOf sm raw <> js "S" ++ string_of_nat n)
    /\ (forall s, In s (StateMachine.states sm) ->
                  is_alias (aliasOf sm (StateDefinition.id s))
                  /\ aliasOf sm (StateDefinition.id s) <> aliasOf sm raw).
Proof.
  intros sm raw Hraw.
  assert (Hminted : aliasOf sm raw = safeNodeId (js "S") raw).
  { unfold aliasOf. by rewrite aliasById_undeclared. }
  split; [exact Hminted|]. rewrite Hminted.
  split; [intros n; apply safeNodeId_S_not_alias|].
  intros s Hs. destruct (aliasById_declared sm s Hs) as (a & Ha & Halias).
  unfold aliasOf at 1 2. rewrite Ha. simpl. split; [exact Halias|].
  destruct Halias as [n ->]. intros H. symmetry in H.
  by apply safeNodeId_S_not_alias in H.
Qed.

Lemma minted_alias_differs_from_declared_aliases_witness :
  aliasOf sample_machine (js "shipped") = js "Sshipped"
  /\ aliasOf sample_machine (js "new") <> aliasOf sample_machine (js "shipped").
Proof.
  destruct (minted_alias_differs_from_declared_aliases sample_machine (js "shipped"))
    as (H1 & _ & H3).
  - intros s [<-|[<-|[]]]; discriminate.
  - split; [rewrite H1; reflexivity|].
    apply (H3 (StateDefinition.mk (js "new") (js "New") None (Some true) None)).
    by left.
Defined.

(** ** Outline *)

(** C1 (code defect).  [generateMindmapMarkdown] reads
    [manifest.entities.length] without a guard although [entities] is
    optional: on a manifest without [entities] it throws a [TypeError],
    where [generateProjectMindmap], which tests [manifest.entities] first,
    returns its text. *)
Theorem outline_throws_when_entities_are_absent :
  forall (manifest : LogicManifest.t) (st : Store),
    LogicManifest.entities manifest = None ->
    run (generateMindmapMarkdown manifest) st
    = Throw (TypeError "Cannot read properties of undefined")
    /\ exists text, run (generateProjectMindmap manifest) st = Normal text.
Proof.
  intros manifest st E. split.
  - unfold run. by rewrite generateMindmapMarkdown_throws.
  - destruct (generateProjectMindmap_lines manifest) as (lines & H).
    eexists. unfold run. by rewrite H.
Qed.

(** Apart from that read, no emitter can throw: the four emitters of
    [diagrams.ts] return a text for every argument, and so does the outline
    emitter for a manifest that has its [entities]. *)
Lemma emitters_return_text_otherwise :
  forall (manifest : LogicManifest.t) (flow : Flow.t) (rules : list Rule.t)
         (sm : StateMachine.t) (st : Store),
    (exists text, run (generateProjectMindmap manifest) st = Normal text)
    /\ (exists text, run (generateModuleDependencyGraph manifest) st = Normal text)
    /\ (exists text, run (generateFlowchartForFlow flow rules) st = Normal text)
    /\ (exists text, run (generateStateDiagram sm) st = Normal text)
    /\ (forall entities,
           LogicManifest.entities manifest = Some entities ->
           exists text, run (generateMindmapMarkdown manifest) st = Normal text).
Proof.
  intros manifest flow rules sm st. unfold run.
  destruct (generateProjectMindmap_lines manifest) as (lines & H).
  rewrite H, generateModuleDependencyGraph_lines, generateFlowchartForFlow_lines,
    generateStateDiagram_lines.
  repeat split; eauto.
  intros entities E. rewrite (generateMindmapMarkdown_lines _ _ _ E). eauto.
Qed.

Lemma outline_throws_when_entities_are_absent_witness :
  LogicManifest.entities (sample_manifest [sample_module (js "order") None] None) = None
  /\ run (generateMindmapMarkdown (sample_manifest [sample_module (js "order") None] None)) []
     = Throw (TypeError "Cannot read properties of undefined").
Proof.
  split; [reflexivity|].
  apply (outline_throws_when_entities_are_absent
           (sample_manifest [sample_module (js "order") None] None) []).
  reflexivity.
Defined.

Lemma heading2_no_newline name n :
  ~ In NEWLINE name -> ~ In NEWLINE (heading 2 (name ++ count n)).
Proof.
  intros Hname.
  change (heading 2 (name ++ count n)) with (js "##" ++ js " " ++ name ++ count n).
  rewrite !in_app_iff. intros [H|[H|[H|H]]].
  - revert H. literal_free.
  - revert H. literal_free.
  - done.
  - by apply count_no_newline in H.
Qed.

Ltac find_in := first [ by apply in_eq | left; find_in | right; find_in ].

(** C4, as the code has it.  For a manifest with its [entities] the outline
    announces each of the five top-level collections (modules, entities,
    data models, glossary, changelog) by a heading with its count, a count
    of 0 included.  Inside a module a sub-collection (code entries, flows,
    rules, state machines, pseudocodes) is announced with its count when it
    has members and contributes no line when it is empty. *)
Theorem outline_announces_top_level_collections :
  forall (manifest : LogicManifest.t) (entities : list Entity.t) (st : Store),
    LogicManifest.entities manifest = Some entities ->
    run (generateMindmapMarkdown manifest) st
    = Normal (join [NEWLINE] (outline_lines manifest entities) ++ [NEWLINE])
    /\ (forall title,
           In title
              [ heading 2 (js "模块" ++ count (length (LogicManifest.modules manifest)));
                heading 2 (js "实体" ++ count (length entities));
                heading 2 (js "数据模型" ++ count (length (LogicManifest.data_models manifest)));
                heading 2 (js "术语表" ++ count (length (LogicManifest.glossary manifest)));
                heading 2 (js "变更历史" ++ count (length (LogicManifest.changelog manifest))) ] ->
           In title (split_on NEWLINE (join [NEWLINE] (outline_lines manifest entities)
                                       ++ [NEWLINE])))
    /\ (forall m : Mod.t,
           module_lines m
           = moduleHead m ++ codeRefsSection m ++ flowsSection m ++ rulesSection m
             ++ stateMachinesSection m ++ pseudocodesSection m
           /\ (default [] (Mod.code_refs m) = [] -> codeRefsSection m = [])
           /\ (Mod.flows m = [] -> flowsSection m = [])
           /\ (Mod.rules m = [] -> rulesSection m = [])
           /\ (Mod.state_machines m = [] -> stateMachinesSection m = [])
           /\ (Mod.pseudocodes m = [] -> pseudocodesSection m = [])
           /\ (Mod.flows m <> [] ->
               exists members,
                 flowsSection m
                 = bullet 0 (js "流程" ++ count (length (Mod.flows m))) :: members)).
Proof.
  intros manifest entities st E.
  split; [unfold run; by rewrite (generateMindmapMarkdown_lines _ _ _ E)|].
  split.
  - intros title Htitle. apply In_split_join_nl.
    + unfold outline_lines, outline_lines_modules, outline_lines_rest.
      rewrite !in_app_iff.
      destruct Htitle as [<-|[<-|[<-|[<-|[<-|[]]]]]]; find_in.
    + destruct Htitle as [<-|[<-|[<-|[<-|[<-|[]]]]]];
        apply heading2_no_newline; literal_free.
  - intros m. split; [reflexivity|].
    unfold codeRefsSection, flowsSection, rulesSection, stateMachinesSection,
      pseudocodesSection.
    repeat split.
    + destruct (Mod.code_refs m) as [refs|]; [|done]. simpl. by intros ->.
    + by intros ->.
    + by intros ->.
    + by intros ->.
    + by intros ->.
    + intros Hne. destruct (Mod.flows m) as [|f fs] eqn:Hf; [done|].
      eexists. reflexivity.
Qed.

Lemma outline_announces_top_level_collections_witness :
  let manifest := sample_manifest [sample_module (js "order") None] (Some []) in
  In (js "## 实体（0）") (split_on NEWLINE (join [NEWLINE] (outline_lines manifest []) ++ [NEWLINE]))
  /\ run (generateMindmapMarkdown manifest) []
     = Normal (join [NEWLINE]
                 [ js "# 项目：Shop（shop） v1.0";
                   js "- 项目说明：demo";
                   js "- 更新时间：2024-01-01";
                   js "## 模块（1）";
                   js "### order（order）";
                   js "- 说明：a module";
                   js "## 实体（0）";
                   js "## 数据模型（0）";
                   js "## 术语表（0）";
                   js "## 变更历史（0）" ] ++ [NEWLINE]).
Proof.
  intros manifest.
  destruct (outline_announces_top_level_collections manifest [] [] eq_refl)
    as (Hrun & Hin & _).
  split.
  - apply Hin. vm_compute. tauto.
  - rewrite Hrun. vm_compute. reflexivity.
Defined.

(** C4 as stated fails: the module of this manifest has no flow, no rule, no
    state machine, no pseudocode and no code entry, and no line of the
    outline announces any of them with the count 0, while the empty
    top-level collections are announced. *)
Lemma outline_omits_empty_module_collections :
  let m := sample_module (js "order") None in
  let manifest := sample_manifest [m] (Some []) in
  Mod.flows m = []
  /\ exists text,
       run (generateMindmapMarkdown manifest) [] = Normal text
       /\ some_line_contains (js "流程" ++ count 0) text = false
       /\ some_line_contains (js "规则" ++ count 0) text = false
       /\ some_line_contains (js "状态机" ++ count 0) text = false
       /\ some_line_contains (js "伪代码" ++ count 0) text = false
       /\ some_line_contains (js "代码入口" ++ count 0) text = false
       /\ some_line_contains (js "流程") text = false
       /\ some_line_contains (js "实体" ++ count 0) text = true.
Proof.
  intros m manifest. split; [reflexivity|].
  eexists. split; [vm_compute; reflexivity|].
  vm_compute. tauto.
Qed.

(** ** Determinism *)

Lemma fresh_buffer_deterministic {A} (c : Eff A) res lines :
  (forall st, c st = (res, st ++ [lines])) -> deterministic c.
Proof.
  intros H. split.
  - intros st st'. unfold run. by rewrite !H.
  - intros st. unfold run_again, run. by rewrite !H.
Qed.

(** C9.  The completion of each emitter depends on its argument alone: it
    is the same in every store, so a second call on the same argument, made
    after any other calls, returns the same text (or throws the same
    error). *)
Theorem emitters_are_deterministic :
  forall (manifest : LogicManifest.t) (flow : Flow.t) (rules : list Rule.t)
         (sm : StateMachine.t),
    deterministic (generateProjectMindmap manifest)
    /\ deterministic (generateModuleDependencyGraph manifest)
    /\ deterministic (generateFlowchartForFlow flow rules)
    /\ deterministic (generateStateDiagram sm)
    /\ deterministic (generateMindmapMarkdown manifest).
Proof.
  intros manifest flow rules sm. repeat split.
  1,2: destruct (generateProjectMindmap_lines manifest) as (lines & H);
       eapply fresh_buffer_deterministic; exact H.
  1,2: eapply fresh_buffer_deterministic; apply generateModuleDependencyGraph_lines.
  1,2: eapply fresh_buffer_deterministic; apply generateFlowchartForFlow_lines.
  1,2: eapply fresh_buffer_deterministic; apply generateStateDiagram_lines.
  1,2: destruct (LogicManifest.entities manifest) as [entities|] eqn:E;
       eapply fresh_buffer_deterministic; intros ?;
       [ by apply generateMindmapMarkdown_lines | by apply generateMindmapMarkdown_throws ].
Qed.

(** * Further properties of the code *)

(** ** Node ids *)

Lemma sanitized_is_word raw :
  Forall (fun c => is_word c = true) (map (fun c => if is_word c then c else UNDERSCORE) raw).
Proof.
  apply Forall_forall. intros c Hc. apply list_elem_of_In in Hc.
  apply in_map_iff in Hc as (x & <- & _).
  destruct (is_word x) eqn:E; [exact E | reflexivity].
Qed.

Lemma normalized_is_word raw : Forall (fun c => is_word c = true) (normalized raw).
Proof.
  unfold normalized. cbv zeta.
  destruct (starts_with_digit _); [constructor; [reflexivity|] |]; apply sanitized_is_word.
Qed.

Lemma safeNodeId_unfold prefix raw :
  safeNodeId prefix raw
  = if truthy (prefix ++ normalized raw) then prefix ++ normalized raw else prefix ++ js "x".
Proof. reflexivity. Qed.

(** X1.  Whatever the prefix and the raw string, the id is the prefix
    followed by a component made of characters of [[A-Za-z0-9_]] only that
    does not start with a digit. *)
Theorem safeNodeId_appends_a_legal_component :
  forall prefix raw : jsstring,
    exists component : jsstring,
      safeNodeId prefix raw = prefix ++ component
      /\ Forall (fun c => is_word c = true) component
      /\ starts_with_digit component = false.
Proof.
  intros prefix raw. rewrite safeNodeId_unfold.
  destruct (truthy (prefix ++ normalized raw)).
  - exists (normalized raw).
    split; [reflexivity|]. split; [apply normalized_is_word | apply normalized_no_digit].
  - exists (js "x"). split; [reflexivity|]. split; [|reflexivity].
    repeat constructor.
Qed.

Lemma sanitize_word_fixed (s : jsstring) :
  Forall (fun c => is_word c = true) s ->
  map (fun c => if is_word c then c else UNDERSCORE) s = s.
Proof.
  induction 1 as [|c s Hc _ IH]; simpl; [done|]. by rewrite Hc, IH.
Qed.

Lemma normalized_idempotent raw : normalized (normalized raw) = normalized raw.
Proof.
  pose proof (normalized_is_word raw) as Hw.
  pose proof (normalized_no_digit raw) as Hd.
  unfold normalized at 1. cbv zeta.
  rewrite (sanitize_word_fixed _ Hw). by rewrite Hd.
Qed.

(** X2.  Sanitizing is idempotent: an id component that [safeNodeId] has
    produced is left as it is when it is used as a raw string again. *)
Theorem safeNodeId_is_idempotent_on_its_component :
  forall prefix raw : jsstring,
    safeNodeId prefix (normalized raw) = safeNodeId prefix raw.
Proof.
  intros prefix raw. rewrite !safeNodeId_unfold.
  by rewrite normalized_idempotent.
Qed.

(** X3.  There is no disambiguation: two raw strings that differ in one
    character outside [[A-Za-z0-9_]] get the same id. *)
Theorem safeNodeId_merges_non_word_characters :
  forall (prefix before after : jsstring) (c1 c2 : N),
    is_word c1 = false -> is_word c2 = false ->
    safeNodeId prefix (before ++ c1 :: after) = safeNodeId prefix (before ++ c2 :: after).
Proof.
  intros prefix before after c1 c2 H1 H2. unfold safeNodeId. cbv zeta.
  rewrite !map_app. simpl. by rewrite H1, H2.
Qed.

Lemma safeNodeId_merges_non_word_characters_witness :
  js "a-b" <> js "a.b"
  /\ safeNodeId (js "mod_") (js "a-b") = safeNodeId (js "mod_") (js "a.b").
Proof.
  split; [discriminate|].
  apply (safeNodeId_merges_non_word_characters (js "mod_") (js "a") (js "b") 45 46);
    reflexivity.
Defined.

(** ** Escaping *)

Lemma replaceAll_absent c rep s : ~ In c s -> replaceAll c rep s = s.
Proof.
  unfold replaceAll. induction s as [|x s IH]; simpl; [done|]. intros Hin.
  destruct (N.eqb_spec x c) as [->|Hne]; [tauto|].
  rewrite IH by tauto. done.
Qed.

(** X4.  Escaping changes nothing in a text without reserved characters:
    [escapeLabel] is the identity on a text without backslash, double quote
    and newline, and [escapeMindmapText] on one that also has no ASCII
    parenthesis or square bracket. *)
Theorem escaping_keeps_clean_text :
  forall text : jsstring,
    ~ In BACKSLASH text -> ~ In DQUOTE text -> ~ In NEWLINE text ->
    escapeLabel text = text
    /\ (~ In LPAREN text -> ~ In RPAREN text -> ~ In LBRACKET text -> ~ In RBRACKET text ->
        escapeMindmapText text = text).
Proof.
  intros text Hb Hq Hn.
  assert (He : escapeLabel text = text).
  { unfold escapeLabel. by rewrite (replaceAll_absent BACKSLASH), (replaceAll_absent DQUOTE),
      (replaceAll_absent NEWLINE). }
  split; [exact He|]. intros H1 H2 H3 H4.
  unfold escapeMindmapText. rewrite He.
  by rewrite (replaceAll_absent LPAREN), (replaceAll_absent RPAREN),
    (replaceAll_absent LBRACKET), (replaceAll_absent RBRACKET).
Qed.

Lemma escaping_keeps_clean_text_witness :
  escapeLabel (js "创建订单 1") = js "创建订单 1".
Proof.
  apply (escaping_keeps_clean_text (js "创建订单 1")); literal_free.
Defined.

(** ** Code references *)

(** X5.  The two [formatCodeRef] agree: the one of the outline emitter
    returns [null] for an absent reference and for one with an empty file,
    and otherwise the very text the one of [diagrams.ts] returns, which
    starts with the file and is not empty. *)
Theorem formatCodeRef_versions_agree :
  MindmapMarkdown.formatCodeRef None = None
  /\ Diagrams.formatCodeRef None = []
  /\ (forall r : CodeRef.t,
         CodeRef.file r = [] -> MindmapMarkdown.formatCodeRef (Some r) = None)
  /\ (forall r : CodeRef.t,
         CodeRef.file r <> [] ->
         MindmapMarkdown.formatCodeRef (Some r) = Some (Diagrams.formatCodeRef (Some r))
         /\ truthy (Diagrams.formatCodeRef (Some r)) = true
         /\ exists rest, Diagrams.formatCodeRef (Some r) = CodeRef.file r ++ rest).
Proof.
  split; [reflexivity|]. split; [reflexivity|]. split.
  - intros r Hf. unfold MindmapMarkdown.formatCodeRef. by rewrite Hf.
  - intros r Hf. unfold MindmapMarkdown.formatCodeRef, Diagrams.formatCodeRef.
    destruct (CodeRef.file r) as [|c file] eqn:E; [done|]. simpl.
    split; [reflexivity|].
    destruct (truthy_opt (CodeRef.function r)), (CodeRef.line r); simpl; eauto.
    split; [reflexivity|]. exists []. by rewrite app_nil_r.
Qed.

Lemma formatCodeRef_versions_agree_witness :
  MindmapMarkdown.formatCodeRef (Some (CodeRef.mk (js "order.ts") (Some (js "pay")) (Some 12%Z)))
  = Some (js "order.ts:pay:12").
Proof.
  destruct formatCodeRef_versions_agree as (_ & _ & _ & H).
  destruct (H (CodeRef.mk (js "order.ts") (Some (js "pay")) (Some 12%Z))) as (-> & _).
  - discriminate.
  - reflexivity.
Defined.

(** ** [uniqueStrings] *)

Lemma Set_fold_spec (xs acc : list jsstring) :
  NoDup acc ->
  exists added,
    foldl Set_add acc xs = acc ++ added
    /\ NoDup (acc ++ added)
    /\ sublist added xs
    /\ (forall x, x ∈ xs -> x ∈ acc ++ added).
Proof.
  revert acc. induction xs as [|x xs IH]; intros acc Hacc; simpl.
  - exists []. rewrite app_nil_r. repeat split; [done | constructor |].
    intros x Hx. by apply elem_of_nil in Hx.
  - unfold Set_add at 2. case_bool_decide as Hx.
    + destruct (IH acc Hacc) as (added & -> & Hnd & Hsub & Hin).
      exists added. repeat split; [done | by apply sublist_cons |].
      intros y [->|Hy]%elem_of_cons; [apply elem_of_app; by left | by apply Hin].
    + assert (Hacc' : NoDup (acc ++ [x])).
      { apply NoDup_app. repeat split; [done | | apply NoDup_singleton].
        intros y Hy ->%list_elem_of_singleton. done. }
      destruct (IH (acc ++ [x]) Hacc') as (added & -> & Hnd & Hsub & Hin).
      exists (x :: added). rewrite <- app_assoc in *. simpl in *.
      repeat split; [done | by apply sublist_skip |].
      intros y [->|Hy]%elem_of_cons; [|by apply Hin].
      apply elem_of_app. right. by left.
Qed.

Lemma Array_from_Set_NoDup_id (xs : list jsstring) :
  NoDup xs -> Array_from_Set xs = xs.
Proof.
  unfold Array_from_Set.
  enough (forall acc, NoDup (acc ++ xs) -> foldl Set_add acc xs = acc ++ xs) as H
      by (intros Hnd; by apply (H [])).
  induction xs as [|x xs IH]; intros acc Hnd; simpl; [by rewrite app_nil_r|].
  unfold Set_add at 2. case_bool_decide as Hx.
  - apply NoDup_app in Hnd as (_ & Hdisj & _). exfalso.
    apply (Hdisj x Hx). by left.
  - rewrite IH; rewrite <- app_assoc; done.
Qed.

Lemma filter_all_true (xs : list jsstring) :
  (forall x, x ∈ xs -> truthy x = true) -> filter (fun x => truthy x = true) xs = xs.
Proof.
  induction xs as [|x xs IH]; intros H; [done|].
  rewrite filter_cons. rewrite decide_True by (apply H; by left).
  rewrite IH; [done|]. intros y Hy. apply H. by right.
Qed.

Lemma uniqueStrings_elem (xs : list jsstring) x :
  x ∈ uniqueStrings xs <-> x ∈ xs /\ x <> [].
Proof.
  unfold uniqueStrings, Array_from_Set.
  destruct (Set_fold_spec (filter (fun x => truthy x = true) xs) [] (NoDup_nil_2))
    as (added & Heq & _ & Hsub & Hin).
  simpl in *. rewrite Heq.
  assert (Htruthy : forall x : jsstring, truthy x = true <-> x <> []).
  { intros [|c y]; simpl; split; done. }
  split.
  - intros Hx. eapply elem_of_sublist in Hx; [|exact Hsub].
    apply list_elem_of_filter in Hx as [Ht Hx]. split; [done | by apply Htruthy].
  - intros [Hx Hne]. apply Hin. apply list_elem_of_filter. split; [by apply Htruthy | done].
Qed.

(** One more entry at the end is appended when it is non-empty and new. *)
Lemma uniqueStrings_snoc (xs : list jsstring) (x : jsstring) :
  uniqueStrings (xs ++ [x])
  = if truthy x && negb (bool_decide (x ∈ xs)) then uniqueStrings xs ++ [x]
    else uniqueStrings xs.
Proof.
  pose proof (uniqueStrings_elem xs x) as Hmem.
  unfold uniqueStrings, Array_from_Set in *.
  rewrite filter_app, foldl_app, filter_cons, filter_nil.
  destruct x as [|c x]; cbn [truthy andb].
  - rewrite decide_False by done. reflexivity.
  - rewrite decide_True by done. cbn [foldl]. unfold Set_add at 1.
    do 2 case_bool_decide; cbn [negb]; try reflexivity.
    + exfalso. tauto.
    + exfalso. apply H. apply Hmem. done.
Qed.

Lemma omap_pointwise_in {A B} (f g : A -> option B) (xs : list A) :
  (forall x, In x xs -> f x = g x) -> omap f xs = omap g xs.
Proof.
  induction xs as [|x xs IH]; intros H; csimpl; [done|].
  rewrite (H x) by (by left). rewrite IH; [done|]. intros y Hy. apply H. by right.
Qed.

Lemma firstOccurrences_snoc (xs : list jsstring) (x : jsstring) :
  firstOccurrences (xs ++ [x])
  = if truthy x && negb (bool_decide (x ∈ xs)) then firstOccurrences xs ++ [x]
    else firstOccurrences xs.
Proof.
  unfold firstOccurrences, indexed. rewrite imap_app, omap_app. csimpl.
  rewrite Nat.add_0_r, take_app_length.
  rewrite (omap_pointwise_in _
             (fun '(i, y) =>
                if truthy y && negb (bool_decide (y ∈ take i xs)) then Some y else None)
             (imap (fun i y => (i, y)) xs)).
  - destruct (truthy x && negb (bool_decide (x ∈ xs))); [done | by rewrite app_nil_r].
  - intros [i y] Hin. apply (indexed_In xs (i, y)) in Hin. cbn [fst snd] in Hin.
    apply lookup_lt_Some in Hin. rewrite take_app_le by lia. reflexivity.
Qed.

Lemma uniqueStrings_firstOccurrences (xs : list jsstring) :
  uniqueStrings xs = firstOccurrences xs.
Proof.
  induction xs as [|x xs IH] using rev_ind; [reflexivity|].
  rewrite uniqueStrings_snoc, firstOccurrences_snoc, IH. reflexivity.
Qed.

(** X6.  [uniqueStrings] returns the non-empty strings of its argument,
    each once, in the order of their first occurrence: it keeps exactly
    the entries that are non-empty and occur at no earlier position.
    Applying it again changes nothing. *)
Theorem uniqueStrings_dedupes :
  forall xs : list jsstring,
    uniqueStrings xs = firstOccurrences xs
    /\ NoDup (uniqueStrings xs)
    /\ (forall x, x ∈ uniqueStrings xs <-> x ∈ xs /\ x <> [])
    /\ sublist (uniqueStrings xs) xs
    /\ uniqueStrings (uniqueStrings xs) = uniqueStrings xs.
Proof.
  intros xs. split; [apply uniqueStrings_firstOccurrences|].
  unfold uniqueStrings, Array_from_Set.
  destruct (Set_fold_spec (filter (fun x => truthy x = true) xs) [] (NoDup_nil_2))
    as (added & Heq & Hnd & Hsub & Hin).
  simpl in *. rewrite Heq.
  assert (Htruthy : forall x : jsstring, truthy x = true <-> x <> []).
  { intros [|c x]; simpl; split; done. }
  assert (Hmem : forall x, x ∈ added <-> x ∈ xs /\ x <> []).
  { intros x. split.
    - intros Hx. eapply elem_of_sublist in Hx; [|exact Hsub].
      apply list_elem_of_filter in Hx as [Ht Hx]. split; [done | by apply Htruthy].
    - intros [Hx Hne]. apply Hin. apply list_elem_of_filter. split; [by apply Htruthy | done]. }
  split; [exact Hnd|]. split; [exact Hmem|]. split.
  - etrans; [exact Hsub | apply sublist_filter].
  - fold (Array_from_Set (filter (fun x => truthy x = true) added)).
    rewrite (filter_all_true added).
    + by apply Array_from_Set_NoDup_id.
    + intros x Hx. apply Htruthy. by apply Hmem.
Qed.

(** ** Lookup tables built by the emitters *)

Lemma byId_fold_lookup (ms : list Mod.t) (acc : gmap jsstring Mod.t) id :
  foldl (fun byId m => <[Mod.id m := m]> byId) acc ms !! id
  = match list_find (fun m => Mod.id m = id) (rev ms) with
    | Some (_, m) => Some m
    | None => acc !! id
    end.
Proof.
  revert acc. induction ms as [|m ms IH]; intros acc; simpl; [done|].
  rewrite IH. clear IH.
  destruct (list_find (fun m => Mod.id m = id) (rev ms)) as [[i m']|] eqn:E.
  - erewrite list_find_app_l by exact E. done.
  - rewrite list_find_app_r by exact E. simpl.
    case_decide as Hid; simpl.
    + subst id. by rewrite lookup_insert_eq.
    + by rewrite lookup_insert_ne.
Qed.

(** X7.  In the dependency graph a dependency string resolves to a module
    node exactly when it is the id of a module of the manifest (of several
    modules with one id the last one is taken, and its node id is the same
    as theirs); any other string resolves to an external node. *)
Theorem dependency_target_resolution :
  forall (manifest : LogicManifest.t) (dep : jsstring),
    (In dep (map Mod.id (LogicManifest.modules manifest)) ->
     dependencyTarget manifest dep = safeNodeId (js "mod_") dep
     /\ exists m, byId manifest !! dep = Some m
                  /\ In m (LogicManifest.modules manifest) /\ Mod.id m = dep)
    /\ (~ In dep (map Mod.id (LogicManifest.modules manifest)) ->
        dependencyTarget manifest dep = safeNodeId (js "ext_") dep
        /\ byId manifest !! dep = None).
Proof.
  intros manifest dep. unfold dependencyTarget, byId.
  rewrite byId_fold_lookup, lookup_empty.
  destruct (list_find (fun m => Mod.id m = dep) (rev (LogicManifest.modules manifest)))
    as [[i m]|] eqn:E.
  - apply list_find_Some in E as (Hm & Hid & _).
    apply list_elem_of_lookup_2, list_elem_of_In, in_rev in Hm.
    split; [|intros Hn; exfalso; apply Hn; apply in_map_iff; eauto].
    intros _. rewrite Hid. split; [done|]. eauto.
  - split; [|done].
    intros Hin. apply in_map_iff in Hin as (m & Hid & Hm).
    apply list_find_None in E. rewrite Forall_forall in E.
    exfalso. apply (E m); [|done]. apply list_elem_of_In. by apply -> in_rev.
Qed.

Lemma dependency_target_resolution_witness :
  let manifest := sample_manifest [sample_module (js "order") None] None in
  dependencyTarget manifest (js "order") = js "mod_order"
  /\ dependencyTarget manifest (js "stock") = js "ext_stock".
Proof.
  intros manifest. split.
  - destruct (dependency_target_resolution manifest (js "order")) as [H _].
    destruct H as [-> _]; [by left | reflexivity].
  - destruct (dependency_target_resolution manifest (js "stock")) as [_ H].
    destruct H as [-> _]; [|reflexivity].
    intros [H|[]]. discriminate.
Defined.

(** X8.  Every non-empty dependency string of every module of the manifest
    is drawn: the graph has the edge from the module's node to the node the
    string resolves to. *)
Theorem dependency_graph_draws_every_dependency :
  forall (manifest : LogicManifest.t) (m : Mod.t) (dep : jsstring) (st : Store),
    In m (LogicManifest.modules manifest) ->
    In dep (default [] (Mod.dependencies m)) ->
    dep <> [] ->
    exists before after : list jsstring,
      run (generateModuleDependencyGraph manifest) st
      = Normal (join [NEWLINE]
                  (before
                   ++ [edge (safeNodeId (js "mod_") (Mod.id m)) (dependencyTarget manifest dep)]
                   ++ after)).
Proof.
  intros manifest m dep st Hm Hdep Hne.
  assert (Hin : In (edge (safeNodeId (js "mod_") (Mod.id m)) (dependencyTarget manifest dep))
                   (dependencyGraph_lines manifest)).
  { unfold dependencyGraph_lines. rewrite !in_app_iff. right. right.
    apply in_flat_map. exists m. split; [done|].
    unfold dependencyLines. apply in_flat_map. exists dep. split.
    - apply list_elem_of_In, uniqueStrings_elem. split; [by apply list_elem_of_In | done].
    - apply in_app_iff. right. by left. }
  apply in_split in Hin as (before & after & Heq).
  exists before, after. unfold run.
  rewrite generateModuleDependencyGraph_lines. cbn [fst]. by rewrite Heq.
Qed.

Lemma dependency_graph_draws_every_dependency_witness :
  let m := sample_module (js "order") (Some [js "stock"; js "stock"]) in
  exists before after : list jsstring,
    run (generateModuleDependencyGraph (sample_manifest [m] None)) []
    = Normal (join [NEWLINE] (before ++ [js "  mod_order --> ext_stock"] ++ after)).
Proof.
  intros m.
  destruct (dependency_graph_draws_every_dependency
              (sample_manifest [m] None) m (js "stock") []) as (before & after & H).
  - by left.
  - by left.
  - discriminate.
  - exists before, after. exact H.
Defined.

(** *** What one dependency draws *)

Lemma byId_resolves (manifest : LogicManifest.t) (dep : jsstring) :
  (In dep (map Mod.id (LogicManifest.modules manifest)) ->
   exists m, byId manifest !! dep = Some m /\ Mod.id m = dep)
  /\ (~ In dep (map Mod.id (LogicManifest.modules manifest)) ->
      byId manifest !! dep = None).
Proof.
  unfold byId. rewrite byId_fold_lookup, lookup_empty.
  destruct (list_find (fun m => Mod.id m = dep) (rev (LogicManifest.modules manifest)))
    as [[i m]|] eqn:E.
  - apply list_find_Some in E as (Hm & Hid & _).
    apply list_elem_of_lookup_2, list_elem_of_In, in_rev in Hm.
    split; [eauto|]. intros Hn. exfalso. apply Hn. apply in_map_iff. eauto.
  - split; [|done].
    intros Hin. apply in_map_iff in Hin as (m & Hid & Hm).
    apply list_find_None in E. rewrite Forall_forall in E.
    exfalso. apply (E m); [|done]. apply list_elem_of_In. by apply -> in_rev.
Qed.

(** The lines of one module depend on the manifest through the ids of its
    modules only. *)
Lemma dependencyLines_by_ids (manifest : LogicManifest.t) (m : Mod.t) :
  dependencyLines manifest m
  = flat_map
      (fun dep =>
         if bool_decide (dep ∈ map Mod.id (LogicManifest.modules manifest))
         then [edge (safeNodeId (js "mod_") (Mod.id m)) (safeNodeId (js "mod_") dep)]
         else [externalNode dep;
               edge (safeNodeId (js "mod_") (Mod.id m)) (safeNodeId (js "ext_") dep)])
      (uniqueStrings (default [] (Mod.dependencies m))).
Proof.
  unfold dependencyLines. apply flat_map_ext. intros dep.
  destruct (byId_resolves manifest dep) as [Hknown Hunknown].
  unfold dependencyTarget.
  destruct (decide (dep ∈ map Mod.id (LogicManifest.modules manifest))) as [Hin|Hin].
  - rewrite (bool_decide_eq_true_2 (dep ∈ _)) by done. rewrite list_elem_of_In in Hin.
    destruct (Hknown Hin) as (depMod & Hget & Hid). rewrite Hget, Hid.
    rewrite bool_decide_eq_true_2 by (by eexists). reflexivity.
  - rewrite (bool_decide_eq_false_2 (dep ∈ _)) by done. rewrite list_elem_of_In in Hin.
    rewrite (Hunknown Hin).
    rewrite bool_decide_eq_false_2 by (by intros [? ?]). reflexivity.
Qed.

Lemma uniqueStrings_of_empty_strings (xs : list jsstring) :
  (forall x, In x xs -> x = []) -> uniqueStrings xs = [].
Proof.
  intros Hxs. destruct (uniqueStrings xs) as [|x l] eqn:E; [done|].
  assert (Hx : x ∈ uniqueStrings xs) by (rewrite E; by left).
  apply uniqueStrings_elem in Hx as [Hx%list_elem_of_In Hne]. by apply Hxs in Hx.
Qed.

Lemma uniqueStrings_without_empty_strings (xs : list jsstring) :
  uniqueStrings (filter (fun x => x <> []) xs) = uniqueStrings xs.
Proof.
  unfold uniqueStrings. f_equal.
  induction xs as [|x xs IH]; [done|]. destruct x as [|c x].
  - rewrite (filter_cons_False (fun x : jsstring => x <> [])) by (intros H; by apply H).
    rewrite (filter_cons_False (fun x : jsstring => truthy x = true)) by done. exact IH.
  - rewrite (filter_cons_True (fun x : jsstring => x <> [])) by done.
    rewrite !(filter_cons_True (fun x : jsstring => truthy x = true)) by done.
    f_equal. exact IH.
Qed.

Lemma flat_map_all_nil {A B} (f : A -> list B) (xs : list A) :
  (forall x, In x xs -> f x = []) -> flat_map f xs = [].
Proof.
  induction xs as [|x xs IH]; intros H; simpl; [done|].
  rewrite (H x) by (by left). apply IH. intros y Hy. apply H. by right.
Qed.

Lemma flat_map_Forall2 {A B C} (f : A -> list C) (g : B -> list C) xs ys :
  Forall2 (fun x y => f x = g y) xs ys -> flat_map f xs = flat_map g ys.
Proof. induction 1 as [|x y xs ys Hxy _ IH]; simpl; [done | by rewrite Hxy, IH]. Qed.

(** C5, as the code has it.  With modules A and B in the manifest, in either
    order and among whatever other modules, A depending on B's id alone,
    that id not empty, and no other module depending on anything, the graph
    is the module nodes and the one edge from A's node to B's.  With module
    A alone depending on a non-empty string C that is no module id, it is
    A's node, the external node of C and the one edge from A's node to it.
    An id minted with [ext_] is never one minted with [mod_].
    [uniqueStrings] drops the empty string: when every dependency string is
    empty nothing but the module nodes is drawn, and removing the empty
    strings from the dependency lists leaves the output as it is. *)
Theorem dependency_graph_resolves_dependencies :
  (forall (manifest : LogicManifest.t) (before after : list Mod.t) (A B : Mod.t) (st : Store),
      LogicManifest.modules manifest = before ++ A :: after ->
      In B (before ++ A :: after) ->
      Mod.dependencies A = Some [Mod.id B] ->
      Mod.id B <> [] ->
      (forall m, In m (before ++ after) -> default [] (Mod.dependencies m) = []) ->
      run (generateModuleDependencyGraph manifest) st
      = Normal (join [NEWLINE]
                  ([js "flowchart LR"]
                   ++ map moduleNode (before ++ A :: after)
                   ++ [edge (safeNodeId (js "mod_") (Mod.id A))
                            (safeNodeId (js "mod_") (Mod.id B))])))
  /\ (forall (manifest : LogicManifest.t) (A : Mod.t) (C : jsstring) (st : Store),
         LogicManifest.modules manifest = [A] ->
         Mod.dependencies A = Some [C] ->
         C <> Mod.id A ->
         C <> [] ->
         run (generateModuleDependencyGraph manifest) st
         = Normal (join [NEWLINE]
                     [ js "flowchart LR";
                       moduleNode A;
                       externalNode C;
                       edge (safeNodeId (js "mod_") (Mod.id A))
                            (safeNodeId (js "ext_") C) ]))
  /\ (forall dep id : jsstring,
         safeNodeId (js "ext_") dep <> safeNodeId (js "mod_") id)
  /\ (forall (manifest : LogicManifest.t) (st : Store),
         (forall m dep, In m (LogicManifest.modules manifest) ->
                        In dep (default [] (Mod.dependencies m)) -> dep = []) ->
         run (generateModuleDependencyGraph manifest) st
         = Normal (join [NEWLINE]
                     ([js "flowchart LR"]
                      ++ map moduleNode (LogicManifest.modules manifest))))
  /\ (forall (manifest manifest' : LogicManifest.t) (st : Store),
         Forall2 (fun m m' =>
                    Mod.id m' = Mod.id m /\ Mod.name m' = Mod.name m
                    /\ default [] (Mod.dependencies m')
                       = filter (fun dep => dep <> []) (default [] (Mod.dependencies m)))
                 (LogicManifest.modules manifest) (LogicManifest.modules manifest') ->
         run (generateModuleDependencyGraph manifest') st
         = run (generateModuleDependencyGraph manifest) st).
Proof.
  split; [|split; [|split; [apply ext_id_is_no_mod_id|split]]].
  - intros manifest before after A B st Hmods HB HA Hid Hothers. unfold run.
    rewrite generateModuleDependencyGraph_lines. cbn [fst]. do 2 f_equal.
    unfold dependencyGraph_lines. rewrite flat_map_singleton, Hmods. do 2 f_equal.
    assert (Hnone : forall m, In m (before ++ after) -> dependencyLines manifest m = []).
    { intros m Hm. rewrite dependencyLines_by_ids, (Hothers m Hm). reflexivity. }
    rewrite flat_map_app. cbn [flat_map].
    rewrite !flat_map_all_nil by (intros m Hm; apply Hnone; rewrite in_app_iff; tauto).
    rewrite app_nil_r. cbn [app].
    rewrite dependencyLines_by_ids, HA. cbn [from_option id].
    rewrite uniqueStrings_singleton by done. cbn [flat_map]. rewrite app_nil_r.
    rewrite bool_decide_eq_true_2; [done|].
    apply list_elem_of_In, in_map. by rewrite Hmods.
  - intros manifest A C st Hmods HA HC Hne. unfold run.
    rewrite generateModuleDependencyGraph_lines. cbn [fst]. do 2 f_equal.
    unfold dependencyGraph_lines. rewrite Hmods. cbn [flat_map app]. do 2 f_equal.
    rewrite dependencyLines_by_ids, HA, Hmods. cbn [from_option id].
    rewrite uniqueStrings_singleton by done. cbn [flat_map map]. rewrite !app_nil_r.
    rewrite bool_decide_eq_false_2; [done|].
    rewrite list_elem_of_In. intros [H|[]]. by apply HC.
  - intros manifest st Hempty. unfold run.
    rewrite generateModuleDependencyGraph_lines. cbn [fst]. do 2 f_equal.
    unfold dependencyGraph_lines. rewrite flat_map_singleton. do 2 f_equal.
    rewrite flat_map_all_nil; [by rewrite app_nil_r|].
    intros m Hm. rewrite dependencyLines_by_ids.
    rewrite uniqueStrings_of_empty_strings; [done|]. intros dep. by apply Hempty.
  - intros manifest manifest' st Hmods. unfold run.
    rewrite !generateModuleDependencyGraph_lines. cbn [fst]. do 2 f_equal.
    unfold dependencyGraph_lines. f_equal.
    assert (Hids : map Mod.id (LogicManifest.modules manifest')
                   = map Mod.id (LogicManifest.modules manifest)).
    { induction Hmods as [|m m' ms ms' (Hid & _) _ IH]; simpl; [done | by rewrite Hid, IH]. }
    f_equal.
    + apply flat_map_Forall2. eapply Forall2_flip, Forall2_impl; [exact Hmods|].
      intros m m' (Hid & Hname & _). cbn. unfold moduleNode. by rewrite Hid, Hname.
    + apply flat_map_Forall2. eapply Forall2_flip, Forall2_impl; [exact Hmods|].
      intros m m' (Hid & _ & Hdeps). cbn.
      rewrite !dependencyLines_by_ids, Hids, Hid, Hdeps.
      by rewrite uniqueStrings_without_empty_strings.
Qed.

Lemma dependency_graph_resolves_dependencies_witness :
  let A := sample_module (js "order") (Some [js "stock"]) in
  let B := sample_module (js "stock") None in
  run (generateModuleDependencyGraph (sample_manifest [B; A] None)) []
  = Normal (join [NEWLINE]
              [ js "flowchart LR";
                js "  mod_stock[" ++ dq ++ js "stock<br/>(stock)" ++ dq ++ js "]";
                js "  mod_order[" ++ dq ++ js "order<br/>(order)" ++ dq ++ js "]";
                js "  mod_order --> mod_stock" ])
  /\ run (generateModuleDependencyGraph (sample_manifest [A] None)) []
     = Normal (join [NEWLINE]
                 [ js "flowchart LR";
                   js "  mod_order[" ++ dq ++ js "order<br/>(order)" ++ dq ++ js "]";
                   js "  ext_stock[" ++ dq ++ js "stock<br/>(外部/未知模块)" ++ dq ++ js "]";
                   js "  mod_order --> ext_stock" ])
  /\ run (generateModuleDependencyGraph
            (sample_manifest [sample_module (js "order") (Some [[]; []])] None)) []
     = Normal (join [NEWLINE]
                 [ js "flowchart LR";
                   js "  mod_order[" ++ dq ++ js "order<br/>(order)" ++ dq ++ js "]" ])
  /\ run (generateModuleDependencyGraph
            (sample_manifest [sample_module (js "order") (Some [js "stock"])] None)) []
     = run (generateModuleDependencyGraph
              (sample_manifest [sample_module (js "order") (Some [[]; js "stock"; []])] None)) [].
Proof.
  intros A B.
  destruct dependency_graph_resolves_dependencies as (H1 & H2 & _ & H3 & H4).
  split; [|split; [|split]].
  - rewrite (H1 (sample_manifest [B; A] None) [B] [] A B []);
      [vm_compute; reflexivity | reflexivity | by left | reflexivity | discriminate |].
    intros m [<-|[]]. reflexivity.
  - rewrite (H2 (sample_manifest [A] None) A (js "stock") []);
      [vm_compute; reflexivity | reflexivity | reflexivity | discriminate | discriminate].
  - rewrite H3; [vm_compute; reflexivity|].
    intros m dep [<-|[]] [<-|[<-|[]]]; reflexivity.
  - apply H4. repeat constructor.
Defined.

(** C5 as stated fails in two ways.  When the id of B is the empty string,
    A's dependency list is [[B's id]] and the graph has the two nodes and no
    edge.  When B depends on A in return, the graph has two edges. *)
Lemma one_dependency_is_not_always_one_edge :
  (let A := sample_module (js "order") (Some [[]]) in
   let B := sample_module [] None in
   Mod.dependencies A = Some [Mod.id B]
   /\ run (generateModuleDependencyGraph (sample_manifest [A; B] None)) []
      = Normal (join [NEWLINE] [js "flowchart LR"; moduleNode A; moduleNode B])
   /\ some_line_contains (js " --> ")
        (join [NEWLINE] [js "flowchart LR"; moduleNode A; moduleNode B])
      = false)
  /\ (let A := sample_module (js "order") (Some [js "stock"]) in
      let B := sample_module (js "stock") (Some [js "order"]) in
      Mod.dependencies A = Some [Mod.id B]
      /\ run (generateModuleDependencyGraph (sample_manifest [A; B] None)) []
         = Normal (join [NEWLINE]
                     [ js "flowchart LR"; moduleNode A; moduleNode B;
                       js "  mod_order --> mod_stock";
                       js "  mod_stock --> mod_order" ])).
Proof. vm_compute. auto. Qed.

Lemma rulesById_fold_lookup (rules : list Rule.t) (acc : gmap jsstring Rule.t) rid :
  foldl (fun m e => <[e.1 := e.2]> m) acc (map (fun r => (Rule.id r, r)) rules) !! rid
  = match list_find (fun r => Rule.id r = rid) (rev rules) with
    | Some (_, r) => Some r
    | None => acc !! rid
    end.
Proof.
  revert acc. induction rules as [|r rules IH]; intros acc; simpl; [done|].
  rewrite IH. clear IH.
  destruct (list_find (fun r => Rule.id r = rid) (rev rules)) as [[i r']|] eqn:E.
  - erewrite list_find_app_l by exact E. done.
  - rewrite list_find_app_r by exact E. simpl.
    case_decide as Hid; simpl.
    + subst rid. by rewrite lookup_insert_eq.
    + by rewrite lookup_insert_ne.
Qed.

Lemma rulesById_shown (rules : list Rule.t) (rid : jsstring) :
  match Map_of_entries (map (fun r => (Rule.id r, r)) rules) !! rid with
  | Some r => Rule.name r
  | None => rid
  end = shownRule rules rid.
Proof.
  unfold Map_of_entries, shownRule. rewrite rulesById_fold_lookup, lookup_empty.
  by destruct (list_find _ _) as [[i r]|].
Qed.

Lemma shownRule_unknown (rules : list Rule.t) (rid : jsstring) :
  ~ In rid (map Rule.id rules) -> shownRule rules rid = rid.
Proof.
  intros Hn. unfold shownRule.
  destruct (list_find _ _) as [[i r]|] eqn:E; [|done].
  apply list_find_Some in E as (Hr & Hid & _). exfalso. apply Hn.
  apply in_map_iff. exists r. split; [done|].
  apply in_rev. apply list_elem_of_In. by eapply list_elem_of_lookup_2.
Qed.

Lemma shownRule_known (rules : list Rule.t) (rid : jsstring) :
  In rid (map Rule.id rules) ->
  exists pre r post,
    rules = pre ++ r :: post /\ Rule.id r = rid /\ ~ In rid (map Rule.id post)
    /\ shownRule rules rid = Rule.name r.
Proof.
  induction rules as [|r0 rules IH]; [intros []|]. intros Hin.
  destruct (decide (rid ∈ map Rule.id rules)) as [Hlater%list_elem_of_In|Hn].
  - destruct (IH Hlater) as (pre & r & post & -> & Hid & Hpost & Hshown).
    exists (r0 :: pre), r, post. repeat split; try done.
    unfold shownRule in *. simpl rev.
    destruct (list_find (fun r => Rule.id r = rid) (rev (pre ++ r :: post)))
      as [[i r']|] eqn:E.
    + erewrite list_find_app_l by exact E. exact Hshown.
    + apply list_find_None in E. rewrite Forall_forall in E.
      exfalso. apply (E r); [|done]. apply list_elem_of_In, in_rev.
      rewrite rev_involutive. apply in_app_iff. right. by left.
  - rewrite list_elem_of_In in Hn. destruct Hin as [Hid|Hin]; [|done].
    exists [], r0, rules. repeat split; try done.
    unfold shownRule. simpl rev.
    destruct (list_find (fun r => Rule.id r = rid) (rev rules)) as [[i r']|] eqn:E.
    + apply list_find_Some in E as (Hr & Hid' & _). exfalso. apply Hn.
      apply in_map_iff. exists r'. split; [done|].
      apply in_rev. apply list_elem_of_In. by eapply list_elem_of_lookup_2.
    + rewrite list_find_app_r by exact E. simpl. by rewrite decide_True.
Qed.

(** X9.  The node of the step at position [i] of the sorted steps is labelled
    with [order. name], the description if there is one, and, if any rule
    name is left, the line of rule names.  A rule id that names a rule of
    the list is shown by the name of the last rule with that id, an id that
    names no rule by itself; empty names are dropped and a repeated name is
    shown once, at its first place. *)
Theorem step_label_resolves_rule_ids :
  forall (flow : Flow.t) (rules : list Rule.t) (st : Store) (i : nat) (s : FlowStep.t),
    sort by_order (Flow.steps flow) !! i = Some s ->
    let names := uniqueStrings (map (shownRule rules) (default [] (FlowStep.rules s))) in
    let label :=
      join [NEWLINE]
        ([string_of_Z (FlowStep.order s) ++ js ". " ++ FlowStep.name s]
         ++ (if truthy_opt (FlowStep.description s)
             then [String_ (FlowStep.description s)] else [])
         ++ match names with
            | [] => []
            | _ :: _ => [js "规则：" ++ join (js "、") names]
            end) in
    (exists before after : list jsstring,
        run (generateFlowchartForFlow flow rules) st
        = Normal (join [NEWLINE]
                    (before
                     ++ [js "  " ++ js "S" ++ string_of_nat (i + 1) ++ js "[" ++ dq
                         ++ escapeLabel label ++ dq ++ js "]"]
                     ++ after))
        /\ length before = (4 + i)%nat)
    /\ names = firstOccurrences (map (shownRule rules) (default [] (FlowStep.rules s)))
    /\ (forall n, n ∈ names
                  <-> n <> [] /\ exists rid, In rid (default [] (FlowStep.rules s))
                                            /\ shownRule rules rid = n)
    /\ (forall rid, ~ In rid (map Rule.id rules) -> shownRule rules rid = rid)
    /\ (forall rid, In rid (map Rule.id rules) ->
                    exists pre r post,
                      rules = pre ++ r :: post /\ Rule.id r = rid
                      /\ ~ In rid (map Rule.id post)
                      /\ shownRule rules rid = Rule.name r).
Proof.
  intros flow rules st i s Hi names label.
  split; [|split; [|split; [|split]]].
  - exists (flowHead flow ++ imap (stepNode rules) (take i (sort by_order (Flow.steps flow)))).
    exists (imap (fun j => stepNode rules (S i + j)) (drop (S i) (sort by_order (Flow.steps flow)))
            ++ flowChain (length (sort by_order (Flow.steps flow))) ++ flowCode flow).
    split.
    + unfold run. rewrite generateFlowchartForFlow_lines. cbn [fst]. do 2 f_equal.
      unfold flowchart_lines. cbv zeta.
      rewrite <- (take_drop_middle _ i s Hi) at 1.
      rewrite imap_app, imap_cons. rewrite <- !app_assoc. do 2 f_equal.
      assert (Hlen : length (take i (sort by_order (Flow.steps flow))) = i).
      { rewrite length_take. apply lookup_lt_Some in Hi. lia. }
      rewrite Hlen, Nat.add_0_r. cbn [app]. f_equal.
      * unfold stepNode, stepId. rewrite <- !app_assoc. do 5 f_equal.
        unfold stepLabel, label, names. cbv zeta.
        rewrite (map_ext _ (shownRule rules)) by (intros rid; apply rulesById_shown).
        destruct (uniqueStrings _) as [|n ns]; cbn [length Nat.ltb Nat.leb];
          destruct (truthy_opt (FlowStep.description s)); reflexivity.
      * f_equal. apply imap_ext. intros j x _. cbn. do 2 f_equal. lia.
    + rewrite length_app, length_imap, length_take.
      apply lookup_lt_Some in Hi. unfold flowHead. cbn [length]. lia.
  - apply uniqueStrings_firstOccurrences.
  - intros n. unfold names. rewrite uniqueStrings_elem, list_elem_of_In, in_map_iff.
    split.
    + intros [(rid & Heq & Hin) Hne]. split; [done|]. eauto.
    + intros [Hne (rid & Hin & Heq)]. split; [eauto | done].
  - apply shownRule_unknown.
  - apply shownRule_known.
Qed.

Lemma step_label_resolves_rule_ids_witness :
  let paid := Rule.mk (js "R1") (js "paid in full") (js "d") high None None None None None in
  let step := FlowStep.mk (js "s1") 1 (js "pay") (Some (js "card"))
                (Some [js "R7"; js "R1"; js "R7"]) in
  exists before after : list jsstring,
    run (generateFlowchartForFlow (sample_flow [step]) [paid]) []
    = Normal (join [NEWLINE]
                (before
                 ++ [js "  S1[" ++ dq ++ js "1. pay<br/>card<br/>规则：R7、paid in full" ++ dq ++ js "]"]
                 ++ after))
    /\ length before = 4%nat.
Proof.
  intros paid step.
  destruct (step_label_resolves_rule_ids (sample_flow [step]) [paid] [] 0 step eq_refl)
    as ((before & after & H & Hlen) & _).
  exists before, after. split; [|exact Hlen].
  rewrite H. vm_compute. reflexivity.
Defined.

(** ** State diagram *)

Lemma alias_fold_other (l : list (nat * StateDefinition.t)) (m : gmap jsstring jsstring) k :
  (forall p, In p l -> StateDefinition.id p.2 <> k) ->
  foldl set_alias m l !! k = m !! k.
Proof.
  revert m. induction l as [|[i s] l IH]; intros m Hl; simpl; [done|].
  rewrite IH by (intros p Hp; apply Hl; by right).
  apply lookup_insert_ne. apply (Hl (i, s)). by left.
Qed.

Lemma codes_of_uint_inj d d' : codes_of_uint d = codes_of_uint d' -> d = d'.
Proof.
  revert d'. induction d; intros d'; destruct d'; simpl; intros H;
    try discriminate; try reflexivity; injection H as H; f_equal; auto.
Qed.

Lemma string_of_nat_inj n n' : string_of_nat n = string_of_nat n' -> n = n'.
Proof.
  unfold string_of_nat, string_of_N. intros H.
  apply codes_of_uint_inj in H.
  destruct (N.of_nat n) as [|p] eqn:En, (N.of_nat n') as [|p'] eqn:En'; simpl in H.
  - lia.
  - symmetry in H. by apply Unsigned.to_uint_nonzero in H.
  - by apply Unsigned.to_uint_nonzero in H.
  - apply Unsigned.to_uint_inj in H. lia.
Qed.

Lemma aliasById_last_declaration sm i s :
  StateMachine.states sm !! i = Some s ->
  (forall j s', (i < j)%nat -> StateMachine.states sm !! j = Some s' ->
                StateDefinition.id s' <> StateDefinition.id s) ->
  aliasById sm !! StateDefinition.id s = Some (js "S" ++ string_of_nat (i + 1)).
Proof.
  intros Hi Hlast. unfold aliasById, indexed.
  rewrite <- (take_drop_middle _ _ _ Hi) at 1.
  rewrite imap_app, foldl_app. simpl.
  rewrite alias_fold_other.
  - rewrite length_take_le by (apply lookup_lt_Some in Hi; lia).
    rewrite Nat.add_0_r. apply lookup_insert_eq.
  - intros p Hp. apply list_elem_of_In, list_elem_of_lookup in Hp as (n & Hn).
    apply list_lookup_imap_Some in Hn as (s' & Hs' & ->). simpl.
    rewrite lookup_drop in Hs'. apply (Hlast (S i + n)%nat); [lia | done].
Qed.

(** X10.  A declared state gets the alias [S] followed by its position
    (from 1) in the list of states; of several states with one id it is the
    position of the last one, which all of them then share.  When the state
    ids are all different, so are the aliases. *)
Theorem state_alias_is_position_of_last_declaration :
  forall (sm : StateMachine.t) (i : nat) (s : StateDefinition.t),
    StateMachine.states sm !! i = Some s ->
    (forall j s', (i < j)%nat -> StateMachine.states sm !! j = Some s' ->
                  StateDefinition.id s' <> StateDefinition.id s) ->
    aliasOf sm (StateDefinition.id s) = js "S" ++ string_of_nat (i + 1)
    /\ (forall k s0, StateMachine.states sm !! k = Some s0 ->
                     StateDefinition.id s0 = StateDefinition.id s ->
                     stateLine sm s0
                     = js "  state " ++ dq ++ escapeLabel (StateDefinition.name s0) ++ dq
                       ++ js " as " ++ js "S" ++ string_of_nat (i + 1))
    /\ (NoDup (map StateDefinition.id (StateMachine.states sm)) ->
        forall k s0, StateMachine.states sm !! k = Some s0 -> k <> i ->
                     aliasOf sm (StateDefinition.id s0) <> aliasOf sm (StateDefinition.id s)).
Proof.
  intros sm i s Hi Hlast.
  assert (Halias : aliasOf sm (StateDefinition.id s) = js "S" ++ string_of_nat (i + 1)).
  { unfold aliasOf.
    exact (f_equal (default (safeNodeId (js "S") (StateDefinition.id s)))
                   (aliasById_last_declaration sm i s Hi Hlast)). }
  split; [exact Halias|]. split.
  - intros k s0 Hk Hid. unfold stateLine. by rewrite Hid, Halias.
  - intros Hnd k s0 Hk Hne. rewrite Halias.
    assert (Hdistinct : forall a b sa sb,
               StateMachine.states sm !! a = Some sa ->
               StateMachine.states sm !! b = Some sb ->
               StateDefinition.id sa = StateDefinition.id sb -> a = b).
    { intros a b sa sb Ha Hb Hid.
      apply (NoDup_lookup _ a b (StateDefinition.id sa) Hnd);
        rewrite list_lookup_fmap; [by rewrite Ha | by rewrite Hb, Hid]. }
    assert (Hk' : aliasOf sm (StateDefinition.id s0) = js "S" ++ string_of_nat (k + 1)).
    { unfold aliasOf.
      refine (f_equal (default (safeNodeId (js "S") (StateDefinition.id s0)))
                      (aliasById_last_declaration sm k s0 Hk _)).
      intros j s' Hj Hs' Hid. pose proof (Hdistinct _ _ _ _ Hs' Hk Hid). lia. }
    rewrite Hk'. intros H. apply app_inv_head, string_of_nat_inj in H. lia.
Qed.

Lemma state_alias_is_position_of_last_declaration_witness :
  aliasOf sample_machine (js "paid") = js "S2".
Proof.
  destruct (state_alias_is_position_of_last_declaration sample_machine 1
              (StateDefinition.mk (js "paid") (js "Paid") None None (Some true)))
    as (H & _).
  - reflexivity.
  - intros j s' Hj Hs'. destruct j as [|[|[|j]]]; [lia | lia | discriminate | discriminate].
  - exact H.
Defined.

(** X11.  A machine without states gets no arrow from or to [[*]]: after the
    two header lines come the arrows of its transitions only, each between
    two minted aliases. *)
Theorem state_diagram_of_no_states :
  forall (sm : StateMachine.t) (st : Store),
    StateMachine.states sm = [] ->
    run (generateStateDiagram sm) st
    = Normal (join [NEWLINE]
                ([ js "stateDiagram-v2";
                   js "  %% " ++ escapeLabel (StateMachine.name sm ++ js "（"
                                               ++ StateMachine.entity sm ++ js "."
                                               ++ StateMachine.field sm ++ js "）") ]
                 ++ map (fun t =>
                           js "  " ++ safeNodeId (js "S") (StateTransition.from t) ++ js " --> "
                           ++ safeNodeId (js "S") (StateTransition.to t)
                           ++ (if truthy (StateTransition.trigger t)
                               then js ": " ++ StateTransition.trigger t else []))
                        (StateMachine.transitions sm))).
Proof.
  intros sm st Hs. unfold run. rewrite generateStateDiagram_lines. cbn [fst].
  do 2 f_equal. unfold stateDiagram_lines, initialState, transitionLine, aliasOf, aliasById.
  rewrite Hs. simpl. rewrite app_nil_r, flat_map_singleton.
  do 2 f_equal.
Qed.

Lemma state_diagram_of_no_states_witness :
  run (generateStateDiagram
         (StateMachine.mk (js "sm") (js "m") None (js "order") (js "status") []
            [StateTransition.mk (js "a") (js "b") [] None None])) []
  = Normal (join [NEWLINE] [js "stateDiagram-v2"; js "  %% m（order.status）"; js "  Sa --> Sb"]).
Proof.
  rewrite state_diagram_of_no_states by reflexivity. vm_compute. reflexivity.
Defined.

(** X12.  The arrow from [[*]] goes to the first state flagged initial and,
    when no state is flagged, to the first state; it is left out when the id
    of that state is the empty string. *)
Theorem initial_arrow_target :
  forall (sm : StateMachine.t) (before : list StateDefinition.t) (s : StateDefinition.t)
         (after : list StateDefinition.t) (st : Store),
    StateMachine.states sm = before ++ s :: after ->
    Forall (fun s' => flag (StateDefinition.is_initial s') = false) before ->
    (flag (StateDefinition.is_initial s) = true
     \/ (before = [] /\ Forall (fun s' => flag (StateDefinition.is_initial s') = false) after)) ->
    run (generateStateDiagram sm) st
    = Normal (join [NEWLINE]
                ([ js "stateDiagram-v2";
                   js "  %% " ++ escapeLabel (StateMachine.name sm ++ js "（"
                                               ++ StateMachine.entity sm ++ js "."
                                               ++ StateMachine.field sm ++ js "）") ]
                 ++ map (stateLine sm) (StateMachine.states sm)
                 ++ (if truthy (StateDefinition.id s)
                     then [js "  [*] --> " ++ aliasOf sm (StateDefinition.id s)] else [])
                 ++ map (transitionLine sm) (StateMachine.transitions sm)
                 ++ map (fun f => js "  " ++ aliasOf sm f ++ js " --> [*]")
                      (map StateDefinition.id
                           (filter (fun s => flag (StateDefinition.is_final s) = true)
                                   (StateMachine.states sm))))).
Proof.
  intros sm before s after st Hstates Hbefore Hs.
  assert (Hinit : initialState sm = Some (StateDefinition.id s)).
  { unfold initialState. rewrite Hstates.
    destruct Hs as [Hs|[-> Hafter]].
    - assert (Hfind : find (fun s0 => flag (StateDefinition.is_initial s0)) (before ++ s :: after)
                      = Some s).
      { clear Hstates. induction Hbefore as [|b before Hb _ IH]; simpl; [by rewrite Hs|].
        by rewrite Hb. }
      by rewrite Hfind.
    - simpl. destruct (flag (StateDefinition.is_initial s)); [done|].
      assert (Hfind : find (fun s0 => flag (StateDefinition.is_initial s0)) after = None).
      { clear Hstates. induction Hafter as [|a after Ha _ IH]; simpl; [done|]. by rewrite Ha. }
      by rewrite Hfind. }
  unfold run. rewrite generateStateDiagram_lines. cbn [fst]. do 2 f_equal.
  unfold stateDiagram_lines. rewrite Hinit, !flat_map_singleton. reflexivity.
Qed.

Lemma initial_arrow_target_witness :
  run (generateStateDiagram sample_machine) []
  = Normal (join [NEWLINE]
              [ js "stateDiagram-v2"; js "  %% order status（order.status）";
                js "  state " ++ dq ++ js "New" ++ dq ++ js " as S1";
                js "  state " ++ dq ++ js "Paid" ++ dq ++ js " as S2";
                js "  [*] --> S1";
                js "  S1 --> Sshipped: ship";
                js "  S2 --> [*]" ]).
Proof.
  rewrite (initial_arrow_target sample_machine []
             (StateDefinition.mk (js "new") (js "New") None (Some true) None)
             [StateDefinition.mk (js "paid") (js "Paid") None None (Some true)] []);
    [ vm_compute; reflexivity | reflexivity | constructor | by left ].
Defined.

(** ** Statements stay on their line and inside their quotes *)

Lemma not_in_app (c : N) (a b : list N) : ~ In c a -> ~ In c b -> ~ In c (a ++ b).
Proof. rewrite in_app_iff. tauto. Qed.

Lemma safeNodeId_free c prefix raw :
  is_word c = false -> ~ In c prefix -> ~ In c (safeNodeId prefix raw).
Proof.
  intros Hc Hp. rewrite safeNodeId_unfold.
  destruct (truthy _); apply not_in_app; try done.
  - intros Hin. pose proof (normalized_is_word raw) as Hw.
    rewrite Forall_forall in Hw. apply list_elem_of_In, Hw in Hin. congruence.
  - intros [<-|[]]. discriminate.
Qed.

Lemma string_of_nat_free c n : is_digit c = false -> ~ In c (string_of_nat n).
Proof. intros Hc Hin. apply codes_of_uint_digits in Hin. congruence. Qed.

Lemma aliasById_values sm k a : aliasById sm !! k = Some a -> is_alias a.
Proof.
  unfold aliasById.
  assert (H : forall l (m : gmap jsstring jsstring),
             (forall k a, m !! k = Some a -> is_alias a) ->
             forall k a, foldl set_alias m l !! k = Some a -> is_alias a).
  { induction l as [|[i s] l IH]; intros m Hm k' b; simpl; [apply Hm|].
    apply IH. intros k'' b'.
    destruct (decide (StateDefinition.id s = k'')) as [->|Hne].
    - rewrite lookup_insert_eq. intros [= <-]. by eexists.
    - rewrite lookup_insert_ne by done. apply Hm. }
  apply H. intros k' b. by rewrite lookup_empty.
Qed.

Lemma aliasOf_free c sm id :
  is_word c = false -> ~ In c (aliasOf sm id).
Proof.
  intros Hc. unfold aliasOf. destruct (aliasById sm !! id) as [a|] eqn:E; cbn [default].
  - apply aliasById_values in E as [n ->]. apply not_in_app.
    + intros [<-|[]]. discriminate.
    + apply string_of_nat_free. unfold is_word in Hc.
      destruct (is_digit c); [|done]. by rewrite !orb_true_r in Hc.
  - apply safeNodeId_free; [done|]. intros [<-|[]]. discriminate.
Qed.

(** A text made of literals, escaped labels, node ids and numbers is free
    of the character in question. *)
Ltac free_of :=
  lazymatch goal with
  | |- ~ In _ (_ ++ _) => apply not_in_app; free_of
  | |- ~ In NEWLINE (escapeLabel _) => apply escapeLabel_no_newline
  | |- ~ In DQUOTE (escapeLabel _) => apply escapeLabel_no_dquote
  | |- ~ In _ (safeNodeId _ _) => apply safeNodeId_free; [reflexivity | literal_free]
  | |- ~ In _ (aliasOf _ _) => apply aliasOf_free; reflexivity
  | |- ~ In _ (string_of_nat _) => apply string_of_nat_free; reflexivity
  | |- ~ In _ (stepId _) => unfold stepId; free_of
  | |- ~ In _ (dependencyTarget _ _) =>
    unfold dependencyTarget; destruct (byId _ !! _); free_of
  | |- _ => literal_free
  end.

Lemma split_on_join c (lines : list jsstring) :
  lines <> [] -> Forall (fun l => ~ In c l) lines ->
  split_on c (join [c] lines) = lines.
Proof.
  intros Hne Hfree. induction Hfree as [|l lines Hl Hfree IH]; [done|].
  destruct lines as [|l' lines].
  - simpl. by apply split_on_line.
  - change (join [c] (l :: l' :: lines)) with (l ++ c :: join [c] (l' :: lines)).
    rewrite split_on_app, split_on_line by done. rewrite IH by done. done.
Qed.

Lemma flowchart_lines_free flow rules :
  Forall (fun l => ~ In NEWLINE l) (flowchart_lines flow rules).
Proof.
  unfold flowchart_lines. cbv zeta. rewrite !Forall_app. repeat split.
  - unfold flowHead, edge. repeat constructor; free_of.
  - apply Forall_forall. intros l Hl.
    apply list_elem_of_lookup in Hl as [i Hi].
    apply list_lookup_imap_Some in Hi as (s & _ & ->).
    unfold stepNode. free_of.
  - unfold flowChain. destruct (_ =? 0)%nat.
    + unfold flowEmpty, edge. repeat constructor; free_of.
    + constructor; [unfold edge; free_of|].
      apply Forall_forall. intros l Hl. apply list_elem_of_In, in_map_iff in Hl as (i & <- & _).
      unfold edge. free_of.
  - unfold flowCode. cbv zeta. destruct (truthy _); repeat constructor; free_of.
Qed.

(** X13.  No label can break a statement of the flowchart: the lines of the
    text are exactly the statements pushed, four for title and trigger, one
    node per step, the chain (or the placeholder) and the two of the code
    reference when there is one. *)
Theorem flowchart_text_reads_back_as_its_statements :
  forall (flow : Flow.t) (rules : list Rule.t) (st : Store),
    exists text : jsstring,
      run (generateFlowchartForFlow flow rules) st = Normal text
      /\ split_on NEWLINE text
         = flowHead flow
           ++ imap (stepNode rules) (sort by_order (Flow.steps flow))
           ++ flowChain (length (Flow.steps flow))
           ++ flowCode flow
      /\ length (split_on NEWLINE text)
         = (4 + length (Flow.steps flow)
            + (if (length (Flow.steps flow) =? 0)%nat then 2 else length (Flow.steps flow))
            + (if truthy (Diagrams.formatCodeRef (Flow.code_ref flow)) then 2 else 0))%nat.
Proof.
  intros flow rules st. eexists. unfold run.
  rewrite generateFlowchartForFlow_lines. cbn [fst]. split; [reflexivity|].
  rewrite split_on_join; [|by unfold flowchart_lines, flowHead | apply flowchart_lines_free].
  unfold flowchart_lines. cbv zeta.
  rewrite (sort_length FlowStep.order). split; [reflexivity|].
  rewrite !length_app, length_imap, (sort_length FlowStep.order).
  unfold flowChain, flowCode, flowEmpty. cbv zeta.
  destruct (Flow.steps flow) as [|s steps]; simpl length;
    destruct (truthy _); simpl; rewrite ?length_map, ?length_seq; lia.
Qed.

Lemma dependencyGraph_lines_free manifest :
  Forall (fun l => ~ In NEWLINE l) (dependencyGraph_lines manifest).
Proof.
  unfold dependencyGraph_lines. rewrite !Forall_app. repeat split.
  - repeat constructor; free_of.
  - apply Forall_forall. intros l Hl.
    apply list_elem_of_In, in_flat_map in Hl as (m & _ & [<-|[]]).
    unfold moduleNode. free_of.
  - apply Forall_forall. intros l Hl.
    apply list_elem_of_In, in_flat_map in Hl as (m & _ & Hl).
    unfold dependencyLines in Hl. apply in_flat_map in Hl as (dep & _ & Hl).
    apply in_app_iff in Hl as [Hl|[<-|[]]].
    + destruct (negb _); [|done]. destruct Hl as [<-|[]].
      unfold externalNode. free_of.
    + unfold edge. free_of.
Qed.

(** X14.  The same holds for the dependency graph: its lines are the header,
    one node per module, and per module the external nodes and edges of its
    dependencies, however the names and ids are spelled. *)
Theorem dependency_graph_text_reads_back_as_its_statements :
  forall (manifest : LogicManifest.t) (st : Store),
    exists text : jsstring,
      run (generateModuleDependencyGraph manifest) st = Normal text
      /\ split_on NEWLINE text
         = [js "flowchart LR"]
           ++ map moduleNode (LogicManifest.modules manifest)
           ++ flat_map (dependencyLines manifest) (LogicManifest.modules manifest).
Proof.
  intros manifest st. eexists. unfold run.
  rewrite generateModuleDependencyGraph_lines. cbn [fst]. split; [reflexivity|].
  rewrite split_on_join; [|by unfold dependencyGraph_lines | apply dependencyGraph_lines_free].
  unfold dependencyGraph_lines. by rewrite flat_map_singleton.
Qed.

Lemma count_free (c : N) (l : list N) : ~ In c l -> count_occ N.eq_dec l c = 0%nat.
Proof. apply count_occ_not_In. Qed.

Ltac count_quotes :=
  rewrite !count_occ_app;
  repeat match goal with
         | |- context [count_occ N.eq_dec ?l DQUOTE] =>
           first [ change (count_occ N.eq_dec l DQUOTE) with 1%nat
                 | rewrite (count_free DQUOTE l) by free_of ]
         end;
  reflexivity.

(** X15.  Every node statement has exactly two double quotes, those around
    its label: no name, id or description can close the label early. *)
Theorem node_statements_have_two_quotes :
  (forall m : Mod.t, count_occ N.eq_dec (moduleNode m) DQUOTE = 2%nat)
  /\ (forall dep : jsstring, count_occ N.eq_dec (externalNode dep) DQUOTE = 2%nat)
  /\ (forall (rules : list Rule.t) (i : nat) (s : FlowStep.t),
         count_occ N.eq_dec (stepNode rules i s) DQUOTE = 2%nat)
  /\ (forall (sm : StateMachine.t) (s : StateDefinition.t),
         count_occ N.eq_dec (stateLine sm s) DQUOTE = 2%nat).
Proof.
  repeat split; intros.
  - unfold moduleNode. count_quotes.
  - unfold externalNode. count_quotes.
  - unfold stepNode, stepId. count_quotes.
  - unfold stateLine. count_quotes.
Qed.

(** ** The line structure of the state diagram *)














(** ** Outline text *)

Lemma trimStart_suffix (s : jsstring) :
  exists w, s = w ++ trimStart s /\ Forall (fun c => is_space c = true) w.
Proof.
  induction s as [|c s (w & Hw & Hsp)]; simpl.
  - by exists [].
  - destruct (is_space c) eqn:E.
    + exists (c :: w). split; [by rewrite Hw at 1 | by constructor].
    + by exists [].
Qed.

Lemma trimStart_head (s : jsstring) c r : trimStart s = c :: r -> is_space c = false.
Proof.
  induction s as [|x s IH]; simpl; [done|].
  destruct (is_space x) eqn:E; [exact IH|]. by intros [= <- _].
Qed.

Lemma trim_In c (s : jsstring) : In c (trim s) -> In c s.
Proof.
  unfold trim. rewrite <- in_rev. intros Hin.
  destruct (trimStart_suffix (rev (trimStart s))) as (w & Hw & _).
  assert (Hin' : In c (rev (trimStart s))) by (rewrite Hw, in_app_iff; by right).
  rewrite <- in_rev in Hin'.
  destruct (trimStart_suffix s) as (w' & Hw' & _).
  rewrite Hw', in_app_iff. by right.
Qed.

Lemma trim_first (s : jsstring) c r : trim s = c :: r -> is_space c = false.
Proof.
  unfold trim. intros H.
  destruct (trimStart_suffix (rev (trimStart s))) as (w & Hw & _).
  apply (f_equal (@rev N)) in Hw. rewrite rev_involutive, rev_app_distr, H in Hw.
  simpl in Hw. by apply trimStart_head in Hw.
Qed.

Lemma trim_last (s : jsstring) pre c : trim s = pre ++ [c] -> is_space c = false.
Proof.
  unfold trim. intros H.
  apply (f_equal (@rev N)) in H. rewrite rev_involutive, rev_app_distr in H.
  simpl in H. by apply trimStart_head in H.
Qed.

Ltac replaced_away :=
  repeat first [ apply replaceAll_not_in_same; literal_free
               | apply replaceAll_not_in_other; [|literal_free] ].

(** X16.  A text that went through [mdEscape] has no [<], [>], square
    bracket, newline or carriage return left, and neither starts nor ends
    with white space. *)
Theorem mdEscape_output_is_inert :
  forall text : jsstring,
    (forall c, In c [LT; GT; LBRACKET; RBRACKET; NEWLINE; CR] -> ~ In c (mdEscape text))
    /\ (forall c rest, mdEscape text = c :: rest -> is_space c = false)
    /\ (forall before c, mdEscape text = before ++ [c] -> is_space c = false).
Proof.
  intros text. split; [|split].
  - intros c Hc Hin. unfold mdEscape in Hin. apply trim_In in Hin. revert Hin.
    destruct Hc as [<-|[<-|[<-|[<-|[<-|[<-|[]]]]]]]; replaced_away.
  - intros c rest. apply trim_first.
  - intros before c. apply trim_last.
Qed.

Lemma mdEscape_output_is_inert_witness :
  mdEscape (js " <b>pay</b> [x] ") = js "&lt;b&gt;pay&lt;/b&gt; 【x】"
  /\ ~ In LT (mdEscape (js " <b>pay</b> [x] ")).
Proof.
  split; [vm_compute; reflexivity|].
  apply (mdEscape_output_is_inert (js " <b>pay</b> [x] ")). by left.
Defined.

Lemma trim_fixed (s : jsstring) :
  (forall c r, s = c :: r -> is_space c = false) ->
  (forall p c, s = p ++ [c] -> is_space c = false) ->
  trim s = s.
Proof.
  intros Hfirst Hlast. unfold trim.
  assert (H1 : trimStart s = s).
  { destruct s as [|c r]; [done|]. simpl. by rewrite (Hfirst c r eq_refl). }
  rewrite H1.
  assert (H2 : trimStart (rev s) = rev s).
  { destruct (rev s) as [|c r] eqn:E; [done|]. simpl.
    apply (f_equal (@rev N)) in E. rewrite rev_involutive in E. simpl in E.
    by rewrite (Hlast _ c E). }
  rewrite H2. apply rev_involutive.
Qed.

(** X17.  [mdEscape] leaves a text as it is when the text has none of the
    characters it replaces and no white space at its ends. *)
Theorem mdEscape_keeps_clean_text :
  forall text : jsstring,
    (forall c, In c [CR; AMP; LT; GT; NEWLINE; LBRACKET; RBRACKET] -> ~ In c text) ->
    (forall c r, text = c :: r -> is_space c = false) ->
    (forall p c, text = p ++ [c] -> is_space c = false) ->
    mdEscape text = text.
Proof.
  intros text Hclean Hfirst Hlast. unfold mdEscape.
  rewrite (replaceAll_absent CR) by (apply Hclean; simpl; tauto).
  rewrite (replaceAll_absent AMP) by (apply Hclean; simpl; tauto).
  rewrite (replaceAll_absent LT) by (apply Hclean; simpl; tauto).
  rewrite (replaceAll_absent GT) by (apply Hclean; simpl; tauto).
  rewrite (replaceAll_absent NEWLINE) by (apply Hclean; simpl; tauto).
  rewrite (replaceAll_absent LBRACKET) by (apply Hclean; simpl; tauto).
  rewrite (replaceAll_absent RBRACKET) by (apply Hclean; simpl; tauto).
  by apply trim_fixed.
Qed.

Lemma mdEscape_keeps_clean_text_witness :
  mdEscape (js "创建 订单") = js "创建 订单".
Proof.
  apply (mdEscape_keeps_clean_text (js "创建 订单")).
  - intros c Hc. apply not_in_literal.
    destruct Hc as [<-|[<-|[<-|[<-|[<-|[<-|[<-|[]]]]]]]]; vm_compute; reflexivity.
  - intros c r [= <- _]. reflexivity.
  - intros p c H. change (js "创建 订单") with ([21019; 24314; 32; 35746] ++ [21333]) in H.
    apply app_inj_tail in H as [_ <-]. reflexivity.
Defined.

(** X18.  [pushTitle] clamps the level: the line it appends starts with
    between one and six [#], as many as the level when that is within 1..6,
    one below and six above. *)
Theorem pushTitle_clamps_level :
  forall (a : ArrayRef) (level : Z) (text : jsstring) (buf : list jsstring),
    exists k : nat,
      (1 <= k <= 6)%nat
      /\ runs_from a (pushTitle a level text) buf (Normal tt)
                   [repeat_str (js "#") k ++ js " " ++ text]
      /\ ((1 <= level <= 6)%Z -> Z.of_nat k = level)
      /\ ((level < 1)%Z -> k = 1%nat)
      /\ ((6 < level)%Z -> k = 6%nat).
Proof.
  intros a level text buf.
  exists (Z.to_nat (Z.min 6 (Z.max 1 level))).
  split; [lia|]. split; [apply rf_mm_pushTitle|]. repeat split; lia.
Qed.

(** X19.  A pseudocode step is listed three to nine levels deep: its
    [indent] is clamped to 0..6 before it is added to the depth 3 of the
    step list. *)
Theorem pseudocode_step_depth_is_bounded :
  forall (pc : Pseudocode.t) (step : PseudocodeStep.t),
    In step (Pseudocode.steps pc) ->
    exists depth : nat,
      (3 <= depth <= 9)%nat
      /\ In (repeat_str (js "  ") depth ++ js "- " ++ mdEscape (PseudocodeStep.text step))
            (pseudocodeLines pc)
      /\ ((0 <= PseudocodeStep.indent step <= 6)%Z ->
          Z.of_nat depth = (3 + PseudocodeStep.indent step)%Z)
      /\ ((PseudocodeStep.indent step < 0)%Z -> depth = 3%nat)
      /\ ((6 < PseudocodeStep.indent step)%Z -> depth = 9%nat).
Proof.
  intros pc step Hstep.
  exists (Z.to_nat (Z.max 0 (3 + Z.min 6 (Z.max 0 (PseudocodeStep.indent step))))).
  split; [lia|]. split; [|repeat split; lia].
  unfold pseudocodeLines, guarded. rewrite !in_app_iff. do 4 right.
  destruct (Pseudocode.steps pc) as [|s0 steps] eqn:E; [done|].
  simpl Nat.ltb. cbv iota. rewrite <- E. apply in_app_iff. right.
  apply in_flat_map. exists step. split; [by rewrite E | by left].
Qed.

Lemma pseudocode_step_depth_is_bounded_witness :
  let step := PseudocodeStep.mk 42 (js "retry") st_action in
  let pc := Pseudocode.mk (js "p") (js "pay") None None None [step] [] None in
  In (repeat_str (js "  ") 9 ++ js "- retry") (pseudocodeLines pc).
Proof.
  intros step pc.
  destruct (pseudocode_step_depth_is_bounded pc step) as (d & _ & Hin & _ & _ & Hd);
    [by left|].
  rewrite Hd in Hin by (simpl; lia). exact Hin.
Defined.

Lemma join_snoc (sep : jsstring) (xs : list jsstring) (l : jsstring) :
  xs <> [] -> join sep (xs ++ [l]) = join sep xs ++ sep ++ l.
Proof.
  induction xs as [|x xs IH]; [done|]. intros _.
  destruct xs as [|y xs]; [reflexivity|].
  change (join sep ((x :: y :: xs) ++ [l])) with (x ++ sep ++ join sep ((y :: xs) ++ [l])).
  rewrite IH by done.
  change (join sep (x :: y :: xs)) with (x ++ sep ++ join sep (y :: xs)).
  by rewrite <- !app_assoc.
Qed.

Lemma mdEscape_tail_not_space (p text : jsstring) c0 :
  is_space c0 = false ->
  exists q c, p ++ [c0] ++ mdEscape text = q ++ [c] /\ is_space c = false.
Proof.
  intros Hc0. destruct (mdEscape text) as [|x e] eqn:E using rev_ind.
  - exists p, c0. by rewrite app_nil_r.
  - exists (p ++ [c0] ++ e), x. split; [by rewrite <- !app_assoc|].
    by apply (trim_last _ _ _ E).
Qed.

(** The last line of the outline ends with a character that is no white
    space. *)
Lemma outline_last_line manifest entities :
  exists (lines : list jsstring) (q : jsstring) (c : N),
    outline_lines manifest entities = lines ++ [q ++ [c]]
    /\ lines <> [] /\ is_space c = false.
Proof.
  unfold outline_lines, outline_lines_rest.
  destruct (LogicManifest.changelog manifest) as [|e changelog _] using rev_ind.
  - exists (outline_lines_modules manifest
            ++ [heading 2 (js "实体" ++ count (length entities))]
            ++ flat_map entityLines entities
            ++ [heading 2 (js "数据模型" ++ count (length (LogicManifest.data_models manifest)))]
            ++ flat_map dataModelLines (LogicManifest.data_models manifest)
            ++ [heading 2 (js "术语表" ++ count (length (LogicManifest.glossary manifest)))]
            ++ flat_map (fun p => [glossaryLine p.1 p.2]) (LogicManifest.glossary manifest)).
    exists (js "## 变更历史" ++ js "（" ++ string_of_nat 0), 65289.
    split; [|split; [|reflexivity]].
    + rewrite <- !app_assoc. reflexivity.
    + unfold outline_lines_modules, projectLines. done.
  - rewrite flat_map_app.
    change (flat_map (fun c => [changelogLine c]) [e]) with [changelogLine e].
    destruct (mdEscape_tail_not_space
                (repeat_str (js "  ") (Z.to_nat (Z.max 0 0)) ++ js "- "
                 ++ mdEscape (ChangelogEntry.date e) ++ js " / "
                 ++ mdEscape (ChangeType_string (ChangelogEntry.type e)))
                (ChangelogEntry.summary e) 65306 eq_refl) as (q & c & Hq & Hc).
    exists (outline_lines_modules manifest
            ++ [heading 2 (js "实体" ++ count (length entities))]
            ++ flat_map entityLines entities
            ++ [heading 2 (js "数据模型" ++ count (length (LogicManifest.data_models manifest)))]
            ++ flat_map dataModelLines (LogicManifest.data_models manifest)
            ++ [heading 2 (js "术语表" ++ count (length (LogicManifest.glossary manifest)))]
            ++ flat_map (fun p => [glossaryLine p.1 p.2]) (LogicManifest.glossary manifest)
            ++ [heading 2 (js "变更历史" ++ count (length (changelog ++ [e])))]
            ++ flat_map (fun c => [changelogLine c]) changelog).
    exists q, c. split; [|split; [|exact Hc]].
    + replace [q ++ [c]] with [changelogLine e].
      * rewrite <- !app_assoc. reflexivity.
      * rewrite <- Hq. unfold changelogLine, bullet. rewrite <- !app_assoc. reflexivity.
    + unfold outline_lines_modules, projectLines. done.
Qed.

(** X20.  The Markmap component's normalization ([markdown.trim() + '\n'])
    leaves the outline text as the emitter returned it: the text starts with
    the [#] of the project title and ends with exactly one newline after a
    character that is no white space. *)
Theorem markmap_normalization_keeps_outline :
  forall (manifest : LogicManifest.t) (entities : list Entity.t) (st : Store),
    LogicManifest.entities manifest = Some entities ->
    exists text : jsstring,
      run (generateMindmapMarkdown manifest) st = Normal text
      /\ MarkmapMindmap.normalized text = text.
Proof.
  intros manifest entities st E. eexists. unfold run.
  rewrite (generateMindmapMarkdown_lines _ _ _ E). cbn [fst]. split; [reflexivity|].
  unfold MarkmapMindmap.normalized. f_equal.
  destruct (outline_last_line manifest entities) as (lines & q & c & Hlines & Hne & Hc).
  rewrite Hlines, join_snoc by done.
  set (body := join [NEWLINE] lines ++ [NEWLINE] ++ q).
  replace (((join [NEWLINE] lines ++ [NEWLINE] ++ q ++ [c]) ++ [NEWLINE]))
    with (body ++ [c; NEWLINE]) by (unfold body; by rewrite <- !app_assoc).
  replace (join [NEWLINE] lines ++ [NEWLINE] ++ q ++ [c])
    with (body ++ [c]) by (unfold body; by rewrite <- !app_assoc).
  assert (Hstart : exists r, body = 35 :: r).
  { unfold body. unfold outline_lines, outline_lines_modules, projectLines in Hlines.
    destruct lines as [|l0 lines']; [done|].
    assert (Hl0 : exists r0, l0 = 35 :: r0).
    { simpl in Hlines. injection Hlines as Hl0 _. rewrite <- Hl0. unfold heading.
      eexists. reflexivity. }
    destruct Hl0 as (r0 & ->).
    destruct lines' as [|l1 lines'']; simpl; eauto. }
  destruct Hstart as (r & Hbody).
  unfold trim.
  assert (H1 : trimStart (body ++ [c; NEWLINE]) = body ++ [c; NEWLINE]).
  { rewrite Hbody. reflexivity. }
  rewrite H1, rev_app_distr. simpl rev.
  change (trimStart ((NEWLINE :: [c]) ++ rev body)) with (trimStart (c :: rev body)).
  simpl trimStart. rewrite Hc.
  change (c :: rev body) with (rev [c] ++ rev body).
  by rewrite <- rev_app_distr, rev_involutive.
Qed.

Lemma markmap_normalization_keeps_outline_witness :
  exists text : jsstring,
    run (generateMindmapMarkdown (sample_manifest [] (Some []))) [] = Normal text
    /\ MarkmapMindmap.normalized text = text.
Proof.
  apply (markmap_normalization_keeps_outline (sample_manifest [] (Some [])) [] []).
  reflexivity.
Defined.

(** ** Loading a manifest *)

Import ManifestClient.

(** X21.  [shortSha] returns the first twelve code units of a longer name
    and a name of at most twelve as it is: the result is a prefix of the
    name, at most twelve long, and shortening twice changes nothing. *)
Theorem shortSha_is_a_prefix_of_at_most_twelve :
  forall sha : jsstring,
    length (shortSha sha) = Nat.min 12 (length sha)
    /\ (exists rest, sha = shortSha sha ++ rest)
    /\ ((length sha <= 12)%nat -> shortSha sha = sha)
    /\ shortSha (shortSha sha) = shortSha sha.
Proof.
  intros sha. unfold shortSha.
  destruct (Nat.ltb_spec 12 (length sha)) as [Hlt|Hle].
  - assert (Hlen : length (take 12 sha) = 12%nat) by (rewrite length_take; lia).
    repeat split.
    + lia.
    + exists (drop 12 sha). by rewrite take_drop.
    + lia.
    + rewrite Hlen. reflexivity.
  - repeat split.
    + lia.
    + exists []. by rewrite app_nil_r.
    + destruct (Nat.ltb_spec 12 (length sha)); [lia | done].
Qed.

Lemma omap_length_le {A B} (f : A -> option B) (xs : list A) :
  (length (omap f xs) <= length xs)%nat.
Proof. induction xs as [|x xs IH]; csimpl; [done|]. destruct (f x); csimpl; lia. Qed.

Lemma omap_pointwise {A B} (f g : A -> option B) (xs : list A) :
  (forall x, f x = g x) -> omap f xs = omap g xs.
Proof. intros H. induction xs as [|x xs IH]; csimpl; [done|]. by rewrite H, IH. Qed.

(** X22.  A modular index always yields a manifest, whatever modules or
    data models fail to load: it has at most as many modules as the index
    lists, the project of the index, and no [entities], so that
    [generateMindmapMarkdown] throws on it while [generateProjectMindmap]
    returns its text. *)
Theorem modular_manifest_has_no_entities :
  forall (server : Server) (baseUrl projectId ref : jsstring) (index : ManifestIndex.t)
         (st : Store),
    top server (manifestUrl baseUrl projectId ref) = Document (inr index) ->
    ManifestIndex.structure index = Some modular ->
    exists manifest : LogicManifest.t,
      fetchManifest server baseUrl projectId ref = Fetched (Manifest manifest)
      /\ LogicManifest.entities manifest = None
      /\ LogicManifest.project manifest = ManifestIndex.project index
      /\ (length (LogicManifest.modules manifest) <= length (ManifestIndex.modules index))%nat
      /\ run (generateMindmapMarkdown manifest) st
         = Throw (TypeError "Cannot read properties of undefined")
      /\ exists text, run (generateProjectMindmap manifest) st = Normal text.
Proof.
  intros server baseUrl projectId ref index st Htop Hmod.
  unfold fetchManifest, fetchJson. cbv zeta.
  destruct (top server _) as [| | |[m|index']] eqn:E; try discriminate.
  injection Htop as ->. rewrite Hmod.
  eexists. split; [reflexivity|]. split; [reflexivity|]. split; [reflexivity|].
  split; [apply omap_length_le|]. split.
  - unfold run. by rewrite generateMindmapMarkdown_throws.
  - match goal with |- exists text, run (generateProjectMindmap ?m) st = _ =>
      destruct (generateProjectMindmap_lines m) as (lines & H) end.
    eexists. unfold run. by rewrite H.
Qed.

Lemma modular_manifest_has_no_entities_witness :
  exists manifest : LogicManifest.t,
    fetchManifest sample_server (js "/manifests") (js "shop") (js "latest")
    = Fetched (Manifest manifest)
    /\ LogicManifest.modules manifest = [sample_module (js "order") None]
    /\ run (generateMindmapMarkdown manifest) []
       = Throw (TypeError "Cannot read properties of undefined").
Proof.
  destruct (modular_manifest_has_no_entities sample_server (js "/manifests") (js "shop")
              (js "latest") (sample_index [js "order"; js "stock"]) [] eq_refl eq_refl)
    as (manifest & Hfetch & _ & _ & _ & Hthrow & _).
  exists manifest. split; [exact Hfetch|]. split; [|exact Hthrow].
  assert (H : Fetched (Manifest manifest)
              = Fetched (Manifest
                           (LogicManifest.mk (js "v3.1") sample_project
                              [sample_module (js "order") None] [] None [] [])))
    by (rewrite <- Hfetch; vm_compute; reflexivity).
  by injection H as ->.
Defined.

(** X23.  For an index without [modules_dir], [fetchManifest] reads the
    modules, at whatever [ref] it is called, from where [fetchModule] reads
    them for the ref [latest]: its modules are those that [fetchModule]
    loads there, in the order of the index. *)
Theorem modular_manifest_reads_latest_modules :
  forall (server : Server) (baseUrl projectId ref : jsstring) (index : ManifestIndex.t)
         (manifest : LogicManifest.t),
    top server (manifestUrl baseUrl projectId ref) = Document (inr index) ->
    ManifestIndex.structure index = Some modular ->
    ManifestIndex.modules_dir index = None ->
    fetchManifest server baseUrl projectId ref = Fetched (Manifest manifest) ->
    LogicManifest.modules manifest
    = omap (fun moduleId =>
              loaded_module (fetchModule server baseUrl projectId (js "latest") moduleId))
           (ManifestIndex.modules index).
Proof.
  intros server baseUrl projectId ref index manifest Htop Hmod Hdir.
  unfold fetchManifest, fetchJson. cbv zeta.
  destruct (top server _) as [| | |[m|index']] eqn:E; try discriminate.
  injection Htop as ->. rewrite Hmod, Hdir.
  intros [= <-]. cbn [LogicManifest.modules].
  apply omap_pointwise. intros moduleId.
  unfold fetchModule, fetchJson, loaded_module. cbv zeta.
  rewrite bool_decide_eq_true_2 by done. cbn [fmap option_fmap option_map default truthy].
  by destruct (module_at server _).
Qed.

Lemma modular_manifest_reads_latest_modules_witness :
  omap (fun moduleId =>
          loaded_module (fetchModule sample_server (js "/manifests") (js "shop") (js "latest")
                                     moduleId))
       [js "order"; js "stock"]
  = [sample_module (js "order") None].
Proof.
  symmetry.
  apply (modular_manifest_reads_latest_modules sample_server (js "/manifests") (js "shop")
           (js "latest") (sample_index [js "order"; js "stock"])
           (LogicManifest.mk (js "v3.1") sample_project
              [sample_module (js "order") None] [] None [] []));
    [reflexivity | reflexivity | reflexivity | vm_compute; reflexivity].
Defined.

(** X24.  [fetchManifest] fails exactly when the load of the top document
    of the version fails, and with the error of that load: the error of
    [fetch] when there is no response, the [Error] whose message gives the
    status and the URL of the top document when the response is not [ok],
    the error of [res.json()] when the body is no JSON text.  Nothing that
    goes wrong below the top document makes it fail. *)
Theorem fetchManifest_fails_only_on_the_top_document :
  forall (server : Server) (baseUrl projectId ref : jsstring) (e : FetchError),
    fetchManifest server baseUrl projectId ref = Failed e
    <-> match top server (manifestUrl baseUrl projectId ref) with
        | NoResponse => e = NetworkError
        | NotOk status statusText =>
          e = FetchFailed (js "Fetch failed: " ++ string_of_nat status ++ js " " ++ statusText
                           ++ js " (" ++ manifestUrl baseUrl projectId ref ++ js ")")
        | NotJson => e = InvalidJson
        | Document _ => False
        end.
Proof.
  intros server baseUrl projectId ref e.
  unfold fetchManifest, fetchJson, manifestUrl. cbv zeta.
  destruct (top server _) as [|status statusText| |[manifest|index]].
  - split; [intros [= <-]; done | intros ->; done].
  - split; [intros [= <-]; done | intros ->; done].
  - split; [intros [= <-]; done | intros ->; done].
  - split; [discriminate | done].
  - destruct (ManifestIndex.structure index) as [[|]|]; (split; [discriminate | done]).
Qed.

(** ** The indexing script *)

Lemma starts_with_spec (p s : jsstring) :
  starts_with p s = true <-> exists r, s = p ++ r.
Proof.
  revert s. induction p as [|x p IH]; intros s; simpl.
  - split; eauto.
  - destruct s as [|y s]; [split; [done | intros (r & H); done]|].
    rewrite andb_true_iff, N.eqb_eq, IH. split.
    + intros [-> (r & ->)]. eauto.
    + intros (r & [= -> ->]). eauto.
Qed.

Lemma endsWith_spec (f suffix : jsstring) :
  Indexer.endsWith f suffix = true <-> exists base, f = base ++ suffix.
Proof.
  unfold Indexer.endsWith. rewrite starts_with_spec. split.
  - intros (r & H). exists (rev r).
    apply (f_equal (@rev N)) in H. by rewrite rev_involutive, rev_app_distr, rev_involutive in H.
  - intros (base & ->). exists (rev base). by rewrite rev_app_distr.
Qed.

Lemma versionOfFile_spec (f v : jsstring) :
  versionOfFile f = Some v <-> f = v ++ js ".json" /\ Indexer.isShaLike v = true.
Proof.
  unfold versionOfFile. cbv zeta. split.
  - destruct (Indexer.endsWith f (js ".json")) eqn:E; [|done]. simpl.
    apply endsWith_spec in E as (base & ->).
    rewrite length_app, Nat.add_sub, take_app_length.
    destruct (_ || _); [done|].
    destruct (Indexer.isShaLike base) eqn:Hsha; [|done]. simpl. by intros [= <-].
  - intros [-> Hsha].
    assert (E : Indexer.endsWith (v ++ js ".json") (js ".json") = true)
      by (apply endsWith_spec; eauto).
    rewrite E. simpl. rewrite length_app, Nat.add_sub, take_app_length.
    rewrite !bool_decide_eq_false_2, Hsha; [done | |]; intros ->; discriminate.
Qed.

Lemma collectVersions_omap (files : list jsstring) :
  Indexer.collectVersions files = omap versionOfFile files.
Proof.
  unfold Indexer.collectVersions.
  enough (forall acc,
             foldl (fun versions f =>
                      if negb (Indexer.endsWith f (js ".json")) then versions
                      else
                        let base := take (length f - length (js ".json")) f in
                        if bool_decide (base = js "latest") || bool_decide (base = js "index")
                        then versions
                        else if negb (Indexer.isShaLike base) then versions
                             else versions ++ [base])
                   acc files
             = acc ++ omap versionOfFile files) as H by apply (H []).
  induction files as [|f files IH]; intros acc; simpl; [by rewrite app_nil_r|].
  rewrite IH. unfold versionOfFile at 2. cbv zeta.
  destruct (negb (Indexer.endsWith f (js ".json"))); [done|].
  destruct (_ || _); [done|].
  destruct (negb _); [done|]. by rewrite <- app_assoc.
Qed.

(** X25.  The versions the indexer collects are exactly the names [v] that
    look like a commit hash (7 to 40 hexadecimal digits) and for which the
    directory has a file [v.json], in the order of the directory listing;
    [latest.json] and [index.json] are never among them. *)
Theorem indexer_collects_the_hash_named_files :
  forall (files : list jsstring) (v : jsstring),
    (In v (Indexer.collectVersions files)
     <-> In (v ++ js ".json") files /\ Indexer.isShaLike v = true)
    /\ Indexer.collectVersions files = omap versionOfFile files
    /\ ~ In (js "latest") (Indexer.collectVersions files)
    /\ ~ In (js "index") (Indexer.collectVersions files).
Proof.
  intros files v.
  assert (Hin : forall v, In v (Indexer.collectVersions files)
                          <-> In (v ++ js ".json") files /\ Indexer.isShaLike v = true).
  { intros w. rewrite collectVersions_omap, <- list_elem_of_In, list_elem_of_omap. split.
    - intros (f & Hf & Hv). apply versionOfFile_spec in Hv as [-> Hsha].
      split; [by apply list_elem_of_In | done].
    - intros [Hf Hsha]. exists (w ++ js ".json").
      split; [by apply list_elem_of_In | by apply versionOfFile_spec]. }
  split; [apply Hin|]. split; [apply collectVersions_omap|].
  split; intros H; apply Hin in H as [_ H]; discriminate.
Qed.

(** X26.  A version name that the indexer accepts is still one after
    [shortSha]: the shortened name the viewer shows is 7 to 12 hexadecimal
    digits. *)
Theorem shortSha_of_a_hash_is_a_hash :
  forall sha : jsstring,
    Indexer.isShaLike sha = true ->
    Indexer.isShaLike (shortSha sha) = true
    /\ (7 <= length (shortSha sha) <= 12)%nat.
Proof.
  intros sha. unfold Indexer.isShaLike, shortSha.
  rewrite !andb_true_iff, !Nat.leb_le. intros [[H7 H40] Hhex].
  destruct (Nat.ltb_spec 12 (length sha)) as [Hlt|Hle].
  - assert (Hlen : length (take 12 sha) = 12%nat) by (rewrite length_take; lia).
    rewrite Hlen. repeat split; try lia.
    rewrite forallb_forall in *. intros c Hc. apply Hhex.
    apply list_elem_of_In in Hc. apply list_elem_of_In.
    apply list_elem_of_lookup in Hc as (i & Hi). apply lookup_take_Some in Hi as [Hi _].
    by eapply list_elem_of_lookup_2.
  - repeat split; try lia. exact Hhex.
Qed.

Lemma shortSha_of_a_hash_is_a_hash_witness :
  Indexer.isShaLike (js "0123456789abcdef0123") = true
  /\ shortSha (js "0123456789abcdef0123") = js "0123456789ab"
  /\ Indexer.isShaLike (shortSha (js "0123456789abcdef0123")) = true.
Proof.
  split; [reflexivity|]. split; [reflexivity|].
  apply (shortSha_of_a_hash_is_a_hash (js "0123456789abcdef0123")). reflexivity.
Defined.
